(** * auto_derby.scenes.single_mode.training: the training-screen recogniser

    A shallow embedding of [src/auto_derby/scenes/single_mode/training.py].
    Python integers are [Z]; Python floats (mask averages, similarity scores,
    quotients of integers) are modelled by exact rationals [Q], so every
    comparison against a literal such as [0.9] is a comparison of rationals,
    and a quotient of integers keeps the range check of the float it stands
    for; exceptions are an explicit [result] type.  Image buffers, the OCR engine,
    template matching and the resize proxy are collaborators declared outside
    this module: they enter as the fields of an interface record and the
    recognisers are embedded on top of what those collaborators return. *)

From Stdlib Require Import ZArith QArith Qabs Lia List Bool Ascii String.
From stdpp Require Import gmap.
Import ListNotations.

Local Open Scope Z_scope.

(** ** Python runtime: exceptions, sequence indexing *)

Inductive exn : Set :=
| ValueError
| KeyError
| IndexError
| ZeroDivisionError
| OverflowError
| AssertionError
| NotImplementedError.

Inductive result (A : Type) : Type :=
| Ok (a : A)
| Raise (e : exn).

Arguments Ok {A} a.
Arguments Raise {A} e.

#[export] Instance result_ret : MRet result := @Ok.

#[export] Instance result_bind : MBind result := fun A B k r =>
  match r with
  | Ok a => k a
  | Raise e => Raise e
  end.

(** [t[i]] on a tuple: a negative index counts from the end, anything out
    of range raises [IndexError]. *)
Definition py_index {A : Type} (t : list A) (i : Z) : result A :=
  let n := Z.of_nat (length t) in
  let j := if i <? 0 then i + n else i in
  if (0 <=? j) && (j <? n) then
    match nth_error t (Z.to_nat j) with
    | Some a => Ok a
    | None => Raise IndexError
    end
  else Raise IndexError.

(** Comparison of two rationals as a boolean: Python's [a < b]. *)
Definition Qltb (a b : Q) : bool :=
  (Qnum a * Z.pos (Qden b) <? Qnum b * Z.pos (Qden a)).

(** [max(a, b)] and [min(a, b)]: the first argument is kept unless the
    second is strictly larger (smaller). *)
Definition py_max2 (a b : Q) : Q := if Qltb a b then b else a.

Definition py_min2 (a b : Q) : Q := if Qltb b a then b else a.

(** [max(iterable)]: [ValueError] on an empty one. *)
Definition py_max (l : list Q) : result Q :=
  match l with
  | [] => Raise ValueError
  | x :: xs => Ok (fold_left py_max2 xs x)
  end.

(** The least magnitude a quotient of two integers must have for its
    nearest double to be out of range: half a unit in the last place above
    the largest finite double, [2 ^ 1024 - 2 ^ 971]. *)
Definition float_overflow : Z := 2 ^ 1024 - 2 ^ 970.

(** [a / b] on two integers: true division, [ZeroDivisionError] on [b = 0]
    and [OverflowError] when the quotient, rounded to the nearest double,
    is out of range. *)
Definition py_truediv (a b : Z) : result Q :=
  if b =? 0 then Raise ZeroDivisionError
  else if float_overflow * Z.abs b <=? Z.abs a then Raise OverflowError
  else Ok (inject_Z a / inject_Z b)%Q.

(** ** Python strings

    OCR text is modelled as a [string] of ASCII characters. *)

Definition is_digit (c : ascii) : bool :=
  let n := N_of_ascii c in ((48 <=? n) && (n <=? 57))%N.

Definition digit_value (c : ascii) : Z := Z.of_N (N_of_ascii c) - 48.

(** The characters [int()] skips around the literal of an ASCII string:
    tab, line feed, vertical tab, form feed, carriage return and the space.
    The separators 28..31, which [str.isspace] accepts, are not among
    them. *)
Definition is_space (c : ascii) : bool :=
  let n := N_of_ascii c in
  (((9 <=? n) && (n <=? 13)) || (n =? 32))%N.

(** [re.sub("[^0-9]", "", text)]: every character that is not a decimal
    digit is deleted. *)
Fixpoint re_sub_non_digits (text : string) : string :=
  match text with
  | EmptyString => EmptyString
  | String c rest =>
      if is_digit c then String c (re_sub_non_digits rest)
      else re_sub_non_digits rest
  end.

(** [text.lstrip("+")]: every leading plus sign is removed. *)
Fixpoint lstrip_plus (text : string) : string :=
  match text with
  | String "+"%char rest => lstrip_plus rest
  | _ => text
  end.

Fixpoint lstrip_space (l : list ascii) : list ascii :=
  match l with
  | c :: rest => if is_space c then lstrip_space rest else l
  | [] => []
  end.

Definition strip_space (l : list ascii) : list ascii :=
  rev (lstrip_space (rev (lstrip_space l))).

(** The digits of an [int()] literal after its first digit: decimal digits,
    single underscores between them. [acc] is the value read so far and
    [after_underscore] tells whether the previous character was one. *)
Fixpoint int_digits (acc : Z) (after_underscore : bool) (l : list ascii)
    : option Z :=
  match l with
  | [] => if after_underscore then None else Some acc
  | c :: rest =>
      if is_digit c then int_digits (10 * acc + digit_value c) false rest
      else if Ascii.eqb c "_" then
        if after_underscore then None else int_digits acc true rest
      else None
  end.

Definition int_body (l : list ascii) : option Z :=
  match l with
  | c :: rest => if is_digit c then int_digits (digit_value c) false rest else None
  | [] => None
  end.

(** The digits of a literal: underscores, sign and blanks do not count,
    leading zeros do. *)
Definition count_digits (l : list ascii) : Z :=
  Z.of_nat (List.length (List.filter is_digit l)).

(** The interpreter's limit on the length of a decimal literal.
    [max_str_digits] is [sys.get_int_max_str_digits()]: CPython 3.11 and
    later, and the security releases of 3.7 to 3.10, refuse to convert a
    literal of more digits than this setting.  Its default is 4300; 0 turns
    the check off, which is also how the interpreters before the limit
    behave.  A literal of at most 640 digits is never checked. *)
Definition int_limit_exceeded (max_str_digits digits : Z) : bool :=
  (640 <? digits) && (0 <? max_str_digits) && (max_str_digits <? digits).

(** [int(text)] in base 10: surrounding blanks, one optional sign, then the
    digits; anything else is a [ValueError], and so is a literal of more
    digits than the interpreter's limit. *)
Definition py_int (max_str_digits : Z) (text : string) : result Z :=
  let l := strip_space (list_ascii_of_string text) in
  let '(negative, body) :=
    match l with
    | "+"%char :: rest => (false, rest)
    | "-"%char :: rest => (true, rest)
    | _ => (false, l)
    end in
  match int_body body with
  | Some n =>
      if int_limit_exceeded max_str_digits (count_digits body)
      then Raise ValueError
      else Ok (if negative then - n else n)
  | None => Raise ValueError
  end.

(** The number a run of decimal digits spells, and the runs that are made
    of decimal digits only. *)
Definition decimal_value (l : list ascii) : Z :=
  fold_left (fun acc c => 10 * acc + digit_value c) l 0.

Definition all_digits (l : list ascii) : Prop :=
  Forall (fun c => is_digit c = true) l.

(** ** Data model *)

Definition Vector2 : Type := Z * Z.
Definition Vector4 : Type := Z * Z * Z * Z.
Definition Color : Type := Z * Z * Z.

(** [color[::-1]]: an RGB triple read as BGR. *)
Definition reversed (c : Color) : Color := let '(r, g, b) := c in (b, g, r).

(** [mathtools.ResizeProxy]: scales a length, a point or a box given for
    the logical width of the second argument to the width of the screenshot.
    The class is declared outside this module; only its three methods are
    used here. *)
Record ResizeProxy : Type := {
  vector : Z -> Z -> Z;
  vector2 : Vector2 -> Z -> Vector2;
  vector4 : Vector4 -> Z -> Vector4
}.

(** Modelled from the spec: the scenario is an enumeration of the game's
    storylines ([Context.SCENARIO_*], declared outside this module);
    [SCENARIO_OTHER] stands for any value that is none of the seven constants
    this module names. *)
Inductive Scenario : Set :=
| SCENARIO_URA
| SCENARIO_AOHARU
| SCENARIO_CLIMAX
| SCENARIO_GRAND_MASTERS
| SCENARIO_GRAND_LIVE
| SCENARIO_PROJECT_LARK
| SCENARIO_UAF_READY_GO
| SCENARIO_OTHER (name : string).

#[export] Instance Scenario_eq_dec : EqDecision Scenario.
Proof. solve_decision. Defined.

Module Partner.

(** Modelled from the spec: the type classification of a partner
    ([Partner.TYPE_*], declared outside this module). *)
Inductive type_t : Set :=
| TYPE_SPEED
| TYPE_STAMINA
| TYPE_POWER
| TYPE_GUTS
| TYPE_WISDOM
| TYPE_FRIEND
| TYPE_GROUP
| TYPE_TEAMMATE
| TYPE_OTHER.

#[global] Instance type_eq_dec : EqDecision type_t.
Proof. solve_decision. Defined.

Record t : Type := {
  icon_bbox : Vector4;
  level : Z;
  soul : Q;
  has_hint : bool;
  has_training : bool;
  has_soul_burst : bool;
  type : type_t
}.

End Partner.

Module Training.

(** The type constants [Training.TYPE_*] are class attributes of
    [auto_derby.single_mode.Training], declared outside this module; the
    recogniser only uses them as dictionary keys. *)
Class Types : Set := {
  TYPE_SPEED : Z;
  TYPE_STAMINA : Z;
  TYPE_POWER : Z;
  TYPE_GUTS : Z;
  TYPE_WISDOM : Z
}.

Record t : Type := {
  type : Z;
  level : Z;
  speed : Z;
  stamina : Z;
  power : Z;
  guts : Z;
  wisdom : Z;
  skill : Z;
  vitality : Q;
  failure_rate : Q;
  confirm_position : Vector2;
  partners : list Partner.t
}.

End Training.

(** The attributes of [single_mode.Context] this module reads or writes. *)
Record SingleModeContext : Type := {
  scenario : Scenario;
  max_vitality : Z;
  is_summer_camp : bool;
  trainings : list Training.t;
  training_levels : gmap Z Z
}.

(** ** Collaborators

    What this module calls and does not define: image buffers (PIL, numpy,
    cv2, [imagetools]), template matching, the OCR engine and the resize
    proxy, and the interpreter that runs it.  A field that stands for a
    chain of image transforms names the source lines it abbreviates; the
    recognisers below start from what the chain returns. *)
Class Collaborators (Image : Type) : Type := {
  (** [sys.get_int_max_str_digits()] of the interpreter the module runs on *)
  int_max_str_digits : Z;
  (** [img.width] *)
  width : Image -> Z;
  (** [img.crop(bbox)] *)
  crop : Image -> Vector4 -> Image;
  (** [mathtools.ResizeProxy(width)] *)
  resize_proxy_of : Z -> ResizeProxy;
  (** [imagetools.compare_color_near(imagetools.cv_image(img), pos, color)] *)
  compare_color_near : Image -> Vector2 -> Color -> Q;
  (** [np.average(imagetools.constant_color_key(imagetools.cv_image(img),
      *colors, threshold=...))]; [None] when the call passes no threshold *)
  constant_color_key_average : Image -> list Color -> option Q -> Q;
  (** [any(template.match(img, templates.SINGLE_MODE_AOHARU_SOUL_FULL))] *)
  match_soul_full : Image -> bool;
  (** the gauge pipeline of [_recognize_soul] (resize to height 40, the two
      outline flood fills, [fill_area]) applied to the cropped gauge:
      [(np.average(fg_mask2), np.average(empty_mask))] *)
  soul_gauge_averages : Image -> Q * Q;
  (** the segmentation of [_recognize_base_effect], from the resize to
      height 32 down to [fill_area(text_img, (0,), size_lt=48)] *)
  base_effect_text_img : Image -> Image;
  (** the segmentation of [_recognize_red_effect], from the two resizes
      down to the last [fill_area] *)
  red_effect_text_img : Image -> Image;
  (** the segmentation of [_recognize_failure_rate] applied to the cropped
      rate region: resize to height 48, outline mask, [inside_outline],
      text mask *)
  failure_rate_text_img : Image -> Image;
  (** [cv2.countNonZero] *)
  countNonZero : Image -> Z;
  (** [imagetools.image_hash(imagetools.pil_image(img))] *)
  image_hash : Image -> string;
  (** [imagetools.compare_hash] *)
  compare_hash : string -> string -> Q;
  (** [ocr.text] *)
  ocr_text : Image -> string
}.

(** ** Vitality estimator *)

(** The dictionary literal of [_estimate_vitality], built key by key in
    source order (a later duplicate key would replace an earlier one). *)
Definition vit_data `{Training.Types} : gmap Z (list Z) :=
  <[Training.TYPE_WISDOM := [5; 5; 5; 5; 5]]>
    (<[Training.TYPE_GUTS := [-22; -23; -24; -26; -28]]>
      (<[Training.TYPE_POWER := [-20; -21; -22; -24; -26]]>
        (<[Training.TYPE_STAMINA := [-19; -20; -21; -23; -25]]>
          (<[Training.TYPE_SPEED := [-21; -22; -23; -25; -27]]> ∅)))).

Definition _estimate_vitality `{Training.Types}
    (max_vitality trn_type trn_level : Z) : result Q :=
  match vit_data !! trn_type with
  | None => Ok 0%Q
  | Some row =>
      c ← py_index row (trn_level - 1);
      py_truediv c max_vitality
  end.

(** The types whose rows are costs, and all five keys of the table. *)
Definition cost_types `{Training.Types} : list Z :=
  [Training.TYPE_SPEED; Training.TYPE_STAMINA; Training.TYPE_POWER; Training.TYPE_GUTS].

Definition table_types `{Training.Types} : list Z := cost_types ++ [Training.TYPE_WISDOM].

(** ** Effect-digit recognisers *)

(** The tail both effect recognisers share: [if not text: return 0] and
    [return int(text.lstrip("+"))]. *)
Definition effect_text_value (max_str_digits : Z) (text : string)
    : result Z :=
  match text with
  | EmptyString => Ok 0
  | _ => py_int max_str_digits (lstrip_plus text)
  end.

Definition hash100 : list string :=
  [ "000000000000006600ee00ff00ff00ff004e0000000000000000000000000000";
    "00000000000000000066007e007e007e007e005e005a00420000000000000000" ]%string.

(** [max(map(lambda lst: imagetools.compare_hash(text_img_hash, lst), hash100))] *)
Definition hash_sim `{Collaborators Image} (text_img : Image) : result Q :=
  let text_img_hash := image_hash text_img in
  py_max (map (fun lst => compare_hash text_img_hash lst) hash100).

(** A recogniser returns its outcome together with the images it handed to
    the OCR engine, in call order. *)
Definition _recognize_base_effect `{Collaborators Image} (img : Image)
    : result Z * list Image :=
  let text_img := base_effect_text_img img in
  if countNonZero text_img <? 100 then (Ok 0, [])
  else
    match hash_sim text_img with
    | Raise e => (Raise e, [])
    | Ok sim =>
        if Qltb (9 # 10) sim then (Ok 100, [])
        else (effect_text_value int_max_str_digits (ocr_text text_img),
              [text_img])
    end.

Definition _recognize_red_effect `{Collaborators Image} (img : Image)
    : result Z * list Image :=
  let text_img := red_effect_text_img img in
  (effect_text_value int_max_str_digits (ocr_text text_img), [text_img]).

(** ** Failure rate *)

(** [int(re.sub("[^0-9]", "", text)) / 100] *)
Definition failure_rate_of_text (max_str_digits : Z) (text : string)
    : result Q :=
  n ← py_int max_str_digits (re_sub_non_digits text);
  py_truediv n 100.

Definition failure_rate_bbox (rp : ResizeProxy) (confirm_position : Vector2)
    : Vector4 :=
  let '(x, y) := confirm_position in
  (x + vector rp 15 540, y + vector rp (-155) 540,
   x + vector rp 75 540, y + vector rp (-107) 540).

Definition _recognize_failure_rate `{Collaborators Image}
    (rp : ResizeProxy) (confirm_position : Vector2) (img : Image) : result Q :=
  let bbox := failure_rate_bbox rp confirm_position in
  let text_img := failure_rate_text_img (crop img bbox) in
  failure_rate_of_text int_max_str_digits (ocr_text text_img).

(** ** Scenario geometry *)

(** [rp] is the proxy the function obtains from [action.resize_proxy()]. *)
Definition _iter_training_confirm_pos (rp : ResizeProxy) (sc : Scenario)
    : result (list Vector2) :=
  if decide (sc = SCENARIO_PROJECT_LARK) then
    Ok [ vector2 rp (33, 835) 540; vector2 rp (121, 835) 540;
         vector2 rp (209, 835) 540; vector2 rp (297, 835) 540;
         vector2 rp (385, 835) 540 ]
  else
    Ok [ vector2 rp (78, 850) 540; vector2 rp (171, 850) 540;
         vector2 rp (268, 850) 540; vector2 rp (367, 850) 540;
         vector2 rp (461, 850) 540 ].

Inductive EffectRecognizer : Set := BaseEffect | RedEffect.

Definition _bbox_groups (rp : ResizeProxy) (t b : Z) : list Vector4 :=
  [ vector4 rp (18, t, 104, b) 540; vector4 rp (104, t, 190, b) 540;
    vector4 rp (190, t, 273, b) 540; vector4 rp (273, t, 358, b) 540;
    vector4 rp (358, t, 441, b) 540; vector4 rp (448, t, 521, b) 540 ].

(** The generator, run to its end: the groups it yields, or the exception
    it raises on the first [next()]. *)
Definition _effect_recognitions (sc : Scenario) (rp : ResizeProxy)
    : result (list (list Vector4 * EffectRecognizer)) :=
  match sc with
  | SCENARIO_URA => Ok [ (_bbox_groups rp 582 616, BaseEffect) ]
  | SCENARIO_AOHARU =>
      Ok [ (_bbox_groups rp 597 625, BaseEffect);
           (_bbox_groups rp 570 595, RedEffect) ]
  | SCENARIO_CLIMAX | SCENARIO_GRAND_LIVE | SCENARIO_GRAND_MASTERS
  | SCENARIO_PROJECT_LARK | SCENARIO_UAF_READY_GO =>
      Ok [ (_bbox_groups rp 595 623, BaseEffect);
           (_bbox_groups rp 568 593, RedEffect) ]
  | SCENARIO_OTHER _ => Raise NotImplementedError
  end.

(** The dictionary literal of [_recognize_partners], as its items in source
    order, and the subscript [{...}[ctx.scenario]]. *)
Definition partner_icon_layouts (rp : ResizeProxy)
    : list (Scenario * (Vector4 * Z)) :=
  [ (SCENARIO_URA, (vector4 rp (448, 146, 516, 220) 540, vector rp 90 540));
    (SCENARIO_AOHARU, (vector4 rp (448, 147, 516, 220) 540, vector rp 86 540));
    (SCENARIO_CLIMAX, (vector4 rp (448, 147, 516, 220) 540, vector rp 90 540));
    (SCENARIO_GRAND_MASTERS,
       (vector4 rp (448, 147, 516, 220) 540, vector rp 90 540));
    (SCENARIO_GRAND_LIVE,
       (vector4 rp (448, 147, 516, 220) 540, vector rp 86 540));
    (SCENARIO_PROJECT_LARK,
       (vector4 rp (448, 147, 516, 220) 540, vector rp 86 540));
    (SCENARIO_UAF_READY_GO,
       (vector4 rp (448, 147, 516, 220) 540, vector rp 86 540)) ].

Fixpoint dict_getitem {V : Type} (items : list (Scenario * V)) (key : Scenario)
    (found : option V) : result V :=
  match items with
  | [] => match found with Some v => Ok v | None => Raise KeyError end
  | (k, v) :: rest =>
      dict_getitem rest key (if decide (k = key) then Some v else found)
  end.

Definition partner_icon_layout (rp : ResizeProxy) (sc : Scenario)
    : result (Vector4 * Z) :=
  dict_getitem (partner_icon_layouts rp) sc None.

Definition supported (sc : Scenario) : Prop :=
  match sc with SCENARIO_OTHER _ => False | _ => True end.

(** ** Partner icons *)

Definition _recognize_type_color `{Collaborators Image}
    (rp : ResizeProxy) (icon_img : Image) : Partner.type_t :=
  let type_pos := vector2 rp (2, 2) 540 in
  let type_colors :=
    [ ((36, 170, 255), Partner.TYPE_SPEED);
      ((255, 106, 86), Partner.TYPE_STAMINA);
      ((255, 151, 27), Partner.TYPE_POWER);
      ((255, 96, 156), Partner.TYPE_GUTS);
      ((3, 191, 126), Partner.TYPE_WISDOM);
      ((255, 179, 22), Partner.TYPE_FRIEND);
      ((249, 255, 240), Partner.TYPE_GROUP) ] in
  let fix loop (l : list (Color * Partner.type_t)) : Partner.type_t :=
    match l with
    | [] => Partner.TYPE_OTHER
    | (color, v) :: rest =>
        if Qltb (9 # 10) (compare_color_near icon_img type_pos (reversed color))
        then v else loop rest
    end in
  loop type_colors.

Definition _recognize_has_hint `{Collaborators Image}
    (rp : ResizeProxy) (icon_img : Image) : bool :=
  let bbox := vector4 rp (50, 0, 58, 8) 540 in
  let hint_mark_color := (127, 67, 255) in
  let hint_mark_img := crop icon_img bbox in
  Qltb 200 (constant_color_key_average hint_mark_img [hint_mark_color] None).

Definition _recognize_has_training `{Collaborators Image}
    (sc : Scenario) (rp : ResizeProxy) (icon_img : Image) : bool :=
  if decide (sc <> SCENARIO_AOHARU) then false
  else
    let bbox := vector4 rp (52, 0, 65, 8) 540 in
    let mark_img := crop icon_img bbox in
    let mask_avg :=
      constant_color_key_average mark_img
        [(67, 131, 255); (82, 171, 255)] (Some (9 # 10)) in
    Qltb 80 mask_avg.

Definition _recognize_has_soul_burst `{Collaborators Image}
    (sc : Scenario) (rp : ResizeProxy) (icon_img : Image) : bool :=
  if decide (sc <> SCENARIO_AOHARU) then false
  else
    let bbox := vector4 rp (52, 0, 65, 8) 540 in
    let mark_img := crop icon_img bbox in
    let mask_avg :=
      constant_color_key_average mark_img [(198, 255, 255)] (Some (9 # 10)) in
    Qltb 80 mask_avg.

(** The decision table of [_recognize_partner_level]: one pattern per
    level 0..5, each a list of (position, expected RGB colour). *)
Definition partner_level_spec (rp : ResizeProxy)
    : list (list (Vector2 * Color)) :=
  let pos0 := vector2 rp (10, 65) 540 in
  let pos1 := vector2 rp (20, 65) 540 in
  let pos2 := vector2 rp (33, 65) 540 in
  let pos3 := vector2 rp (43, 65) 540 in
  let pos4 := vector2 rp (55, 65) 540 in
  let colors0 : Color := (109, 108, 119) in
  let colors1 : Color := (42, 192, 255) in
  let colors2 : Color := (42, 192, 255) in
  let colors3 : Color := (162, 230, 30) in
  let colors4 : Color := (255, 173, 30) in
  let colors5 : Color := (255, 235, 120) in
  [ [ (pos0, colors0); (pos1, colors0); (pos2, colors0); (pos3, colors0);
      (pos4, colors0) ];
    [ (pos0, colors1); (pos1, colors0); (pos2, colors0); (pos3, colors0);
      (pos4, colors0) ];
    [ (pos0, colors2); (pos1, colors2); (pos3, colors0); (pos4, colors0) ];
    [ (pos0, colors3); (pos1, colors3); (pos2, colors3); (pos4, colors0) ];
    [ (pos0, colors4); (pos1, colors4); (pos2, colors4); (pos3, colors4) ];
    [ (pos0, colors5); (pos4, colors5) ] ].

(** One check of a pattern: [compare_color_near(...) > 0.95]. *)
Definition check_passes `{Collaborators Image} (icon_img : Image)
    (check : Vector2 * Color) : bool :=
  let '(pos, color) := check in
  Qltb (95 # 100) (compare_color_near icon_img pos (reversed color)).

(** [all(... for pos, color in s)] *)
Definition pattern_matches `{Collaborators Image} (icon_img : Image)
    (s : list (Vector2 * Color)) : bool :=
  forallb (check_passes icon_img) s.

(** [for level, s in enumerate(spec): if all(...): return level], then
    [return -1]. *)
Fixpoint first_matching_level `{Collaborators Image} (icon_img : Image)
    (level : Z) (spec : list (list (Vector2 * Color))) : Z :=
  match spec with
  | [] => -1
  | s :: rest =>
      if pattern_matches icon_img s then level
      else first_matching_level icon_img (level + 1) rest
  end.

Definition _recognize_partner_level `{Collaborators Image}
    (rp : ResizeProxy) (icon_img : Image) : Z :=
  first_matching_level icon_img 0 (partner_level_spec rp).

(** The squared Euclidean distance of two colours. *)
Definition sqdist (a b : Color) : Z :=
  let '(a0, a1, a2) := a in
  let '(b0, b1, b2) := b in
  (a0 - b0) * (a0 - b0) + (a1 - b1) * (a1 - b1) + (a2 - b2) * (a2 - b2).

(** Modelled from the spec: [imagetools.compare_color_near], declared
    outside this module.  The spec has a check compare the colour at a fixed
    pixel coordinate of the icon with the expected colour by a bounded
    distance metric, 1 minus the normalised Euclidean distance in colour
    space.  [pixel pos] is the colour the icon has at [pos].  Whether the
    distance is normalised by 255 or by the diagonal of the colour cube, a
    similarity above 0.95 leaves the squared distance below 488 (the square
    of a twentieth of the diagonal is 487.7). *)
Definition pixelwise `{Collaborators Image} (icon_img : Image) : Prop :=
  exists pixel : Vector2 -> Color,
    forall (pos : Vector2) (color : Color),
      (95 # 100 < compare_color_near icon_img pos color)%Q ->
      sqdist (pixel pos) color < 488.

(** ** Bond ratio *)

Definition right_bottom_icon_bbox (rp : ResizeProxy) (icon_bbox : Vector4)
    : Vector4 :=
  let '(b0, b1, b2, b3) := icon_bbox in
  (b0 + vector rp 49 540, b1 + vector rp 32 540,
   b0 + vector rp 74 540, b1 + vector rp 58 540).

Definition soul_bbox (rp : ResizeProxy) (icon_bbox : Vector4) : Vector4 :=
  let '(b0, b1, b2, b3) := icon_bbox in
  (b0 - vector rp 35 540, b1 + vector rp 33 540,
   b0 + vector rp 2 540, b3 - vector rp 0 540).

(** [max(0, min(1, 1 - (empty_avg / (fg_avg - outline_avg))))] *)
Definition soul_ratio (fg_avg empty_avg : Q) : Q :=
  let outline_avg := 45%Q in
  py_max2 0 (py_min2 1 (1 - empty_avg / (fg_avg - outline_avg)))%Q.

Definition _recognize_soul `{Collaborators Image}
    (rp : ResizeProxy) (screenshot : Image) (icon_bbox : Vector4) : Q :=
  let right_bottom_icon_img :=
    crop screenshot (right_bottom_icon_bbox rp icon_bbox) in
  let is_full := match_soul_full right_bottom_icon_img in
  if is_full then 1%Q
  else
    let img := crop screenshot (soul_bbox rp icon_bbox) in
    let '(fg_avg, empty_avg) := soul_gauge_averages img in
    if Qltb fg_avg 100 then (-1 # 1)%Q
    else soul_ratio fg_avg empty_avg.

(** ** One partner icon *)

(** The locals [soul], [has_training], [has_soul_burst] of
    [_recognize_partner_icon] as they stand before [if level < 0 and soul < 0]. *)
Definition partner_marks `{Collaborators Image}
    (sc : Scenario) (img : Image) (bbox : Vector4) : Q * bool * bool :=
  let rp := resize_proxy_of (width img) in
  let icon_img := crop img bbox in
  if decide (sc = SCENARIO_AOHARU) then
    let has_soul_burst := _recognize_has_soul_burst sc rp icon_img in
    if has_soul_burst then (1%Q, true, true)
    else (_recognize_soul rp img bbox,
          _recognize_has_training sc rp icon_img, has_soul_burst)
  else ((-1 # 1)%Q, false, false).

Definition _recognize_partner_icon `{Collaborators Image}
    (sc : Scenario) (img : Image) (bbox : Vector4) : option Partner.t :=
  let rp := resize_proxy_of (width img) in
  let icon_img := crop img bbox in
  let level := _recognize_partner_level rp icon_img in
  let '(soul, has_training, has_soul_burst) := partner_marks sc img bbox in
  if (level <? 0) && Qltb soul 0 then None
  else
    let type := _recognize_type_color rp icon_img in
    Some {|
      Partner.icon_bbox := bbox;
      Partner.level := level;
      Partner.soul := if has_soul_burst then 1%Q else soul;
      Partner.has_hint := _recognize_has_hint rp icon_img;
      Partner.has_training := if has_soul_burst then true else has_training;
      Partner.has_soul_burst := has_soul_burst;
      Partner.type :=
        if negb (Qltb soul 0) && bool_decide (type = Partner.TYPE_OTHER)
        then Partner.TYPE_TEAMMATE else type
    |}.

(** ** The icon column *)

(** The box of the next icon: [icon_bbox[1]] and [icon_bbox[3]] move down. *)
Definition next_icon_bbox (icon_bbox : Vector4) (icon_y_offset : Z) : Vector4 :=
  let '(b0, b1, b2, b3) := icon_bbox in
  (b0, b1 + icon_y_offset, b2, b3 + icon_y_offset).

(** The box of the [k]-th icon below [icon_bbox]. *)
Fixpoint nth_icon_bbox (icon_bbox : Vector4) (icon_y_offset : Z) (k : nat)
    : Vector4 :=
  match k with
  | O => icon_bbox
  | S k' => nth_icon_bbox (next_icon_bbox icon_bbox icon_y_offset) icon_y_offset k'
  end.

(** The [while icon_bbox[2] < icons_bottom] loop; [fuel] bounds the number
    of iterations and [None] is the loop still running when it is spent.
    [if not v: break] leaves the loop on [None] only: a [Partner] object is
    always true. *)
Fixpoint partner_icons_loop `{Collaborators Image} (fuel : nat)
    (sc : Scenario) (img : Image) (icon_bbox : Vector4)
    (icon_y_offset icons_bottom : Z) : option (list Partner.t) :=
  match fuel with
  | O => None
  | S fuel' =>
      let '(_, _, b2, _) := icon_bbox in
      if b2 <? icons_bottom then
        match _recognize_partner_icon sc img icon_bbox with
        | None => Some []
        | Some v =>
            rest ← partner_icons_loop fuel' sc img
                     (next_icon_bbox icon_bbox icon_y_offset)
                     icon_y_offset icons_bottom;
            Some (v :: rest)
        end
      else Some []
  end.

Definition _recognize_partners `{Collaborators Image} (fuel : nat)
    (sc : Scenario) (img : Image) : result (option (list Partner.t)) :=
  let rp := resize_proxy_of (width img) in
  '(icon_bbox, icon_y_offset) ← partner_icon_layout rp sc;
  let icons_bottom := vector rp 578 540 in
  Ok (partner_icons_loop fuel sc img icon_bbox icon_y_offset icons_bottom).

(** ** The orchestrator *)

Record TrainingScene : Type := { scene_trainings : list Training.t }.

(** [tuple(i.result() for i in [...])]: the results in submission order,
    or the first exception a worker raised. *)
Fixpoint gather (futs : list (result Training.t)) : result (list Training.t) :=
  match futs with
  | [] => Ok []
  | f :: rest => t ← f; ts ← gather rest; Ok (t :: ts)
  end.

(** [len(set(i.type for i in self.trainings)) == len(self.trainings)] *)
Definition types_all_distinct (ts : list Training.t) : bool :=
  bool_decide
    (size (list_to_set (map Training.type ts) : gset Z) = List.length ts).

(** [{i.type: i.level for i in self.trainings}] *)
Definition levels_by_type (ts : list Training.t) : gmap Z Z :=
  fold_left (fun m i => <[Training.type i := Training.level i]> m) ts ∅.

(** [recognize_v2] from the futures' outcomes on: the outcome and the scene
    and context it leaves behind. The [assert] statement is taken as
    enabled. *)
Definition recognize_v2 (futs : list (result Training.t))
    (self : TrainingScene) (ctx : SingleModeContext)
    : result unit * (TrainingScene * SingleModeContext) :=
  match gather futs with
  | Raise e => (Raise e, (self, ctx))
  | Ok ts =>
      let self := {| scene_trainings := ts |} in
      if negb (types_all_distinct ts) then (Raise AssertionError, (self, ctx))
      else
        let ctx :=
          {| scenario := scenario ctx; max_vitality := max_vitality ctx;
             is_summer_camp := is_summer_camp ctx;
             trainings := ts; training_levels := training_levels ctx |} in
        let ctx :=
          if negb (is_summer_camp ctx) then
            {| scenario := scenario ctx; max_vitality := max_vitality ctx;
               is_summer_camp := is_summer_camp ctx;
               trainings := trainings ctx;
               training_levels := levels_by_type ts |}
          else ctx in
        (Ok tt, (self, ctx))
  end.

(** ** Fixtures

    A collaborator instance for concrete runs: an image is a table from crop
    boxes to what the collaborators observe there, the proxy is the one of a
    540-wide screenshot, and two hashes are similar only when equal. *)

Record Observed : Type := {
  seen_near : Vector2 -> Color -> Q;
  seen_average : list Color -> Q;
  seen_soul_full : bool;
  seen_gauge : Q * Q;
  seen_nonzero : Z;
  seen_hash : string;
  seen_text : string
}.

Definition FixtureImage : Type := Vector4 -> Observed.

Definition identity_proxy : ResizeProxy :=
  {| vector := fun v _ => v; vector2 := fun v _ => v; vector4 := fun v _ => v |}.

Definition whole : Vector4 := (0, 0, 0, 0).

#[export] Instance fixture : Collaborators FixtureImage := {|
  int_max_str_digits := 4300;
  width := fun _ => 540;
  crop := fun img bbox => fun _ => img bbox;
  resize_proxy_of := fun _ => identity_proxy;
  compare_color_near := fun img pos color => seen_near (img whole) pos color;
  constant_color_key_average := fun img colors _ => seen_average (img whole) colors;
  match_soul_full := fun img => seen_soul_full (img whole);
  soul_gauge_averages := fun img => seen_gauge (img whole);
  base_effect_text_img := fun img => img;
  red_effect_text_img := fun img => img;
  failure_rate_text_img := fun img => img;
  countNonZero := fun img => seen_nonzero (img whole);
  image_hash := fun img => seen_hash (img whole);
  compare_hash := fun a b => if String.eqb a b then 1%Q else 0%Q;
  ocr_text := fun img => seen_text (img whole)
|}.

(** A region where nothing is recognised. *)
Definition blank : Observed :=
  {| seen_near := fun _ _ => 0%Q; seen_average := fun _ => 0%Q;
     seen_soul_full := false; seen_gauge := (0%Q, 0%Q);
     seen_nonzero := 0; seen_hash := ""; seen_text := "" |}.

(** A region whose pixels all have the colour [c] (given as BGR). *)
Definition painted (c : Color) : Observed :=
  {| seen_near := fun _ color => if decide (color = c) then 1%Q else 0%Q;
     seen_average := fun _ => 0%Q;
     seen_soul_full := false; seen_gauge := (0%Q, 0%Q);
     seen_nonzero := 0; seen_hash := ""; seen_text := "" |}.

(** A glyph mask with [n] foreground pixels, hash [h], read as [text]. *)
Definition glyphs (n : Z) (h text : string) : Observed :=
  {| seen_near := fun _ _ => 0%Q; seen_average := fun _ => 0%Q;
     seen_soul_full := false; seen_gauge := (0%Q, 0%Q);
     seen_nonzero := n; seen_hash := h; seen_text := text |}.

(** A bond gauge with the given mask averages. *)
Definition gauge (full : bool) (fg_avg empty_avg : Q) : Observed :=
  {| seen_near := fun _ _ => 0%Q; seen_average := fun _ => 0%Q;
     seen_soul_full := full; seen_gauge := (fg_avg, empty_avg);
     seen_nonzero := 0; seen_hash := ""; seen_text := "" |}.

(** The type constants as the game data numbers them. *)
Definition fixture_types : Training.Types :=
  {| Training.TYPE_SPEED := 1; Training.TYPE_STAMINA := 2;
     Training.TYPE_POWER := 3; Training.TYPE_GUTS := 4;
     Training.TYPE_WISDOM := 5 |}.

(** A sparse glyph mask (50 foreground pixels) whose hash is the first
    known hash of "+100". *)
Definition sparse_plus100 : FixtureImage :=
  fun _ =>
    glyphs 50 "000000000000006600ee00ff00ff00ff004e0000000000000000000000000000" "".

(** A dense glyph mask with the same hash. *)
Definition dense_plus100 : FixtureImage :=
  fun _ =>
    glyphs 640 "000000000000006600ee00ff00ff00ff004e0000000000000000000000000000" "".


(** An icon whose bond bar is empty: every position is the grey of an
    unfilled segment. *)
Definition grey_icon : FixtureImage := fun _ => painted (119, 108, 109).

(** A region whose pixels all have the colour [c] (given as BGR), compared
    by a graded similarity: 1 for [c] itself, falling with the squared
    distance and above 0.95 while that distance is at most 487. *)
Definition shaded (c : Color) : Observed :=
  {| seen_near := fun _ color => (1 - inject_Z (sqdist c color) / 9750)%Q;
     seen_average := fun _ => 0%Q;
     seen_soul_full := false; seen_gauge := (0%Q, 0%Q);
     seen_nonzero := 0; seen_hash := ""; seen_text := "" |}.

(** An icon whose bond bar is empty, in a grey that is close to the one of
    the table without being it. *)
Definition worn_icon : FixtureImage := fun _ => shaded (120, 107, 110).

(** A screenshot with one such icon in the first row of the URA column and
    nothing below it. *)
Definition one_partner_column : FixtureImage :=
  fun bbox =>
    let '(_, top, _, _) := bbox in
    if top =? 146 then painted (119, 108, 109) else blank.

(** A region where every constant-colour mask is saturated. *)
Definition marked : Observed :=
  {| seen_near := fun _ _ => 0%Q; seen_average := fun _ => 255%Q;
     seen_soul_full := false; seen_gauge := (0%Q, 0%Q);
     seen_nonzero := 0; seen_hash := ""; seen_text := "" |}.

(** A recognised training of the given type and level, nothing else set. *)
Definition training_of (type level : Z) : Training.t :=
  {| Training.type := type; Training.level := level;
     Training.speed := 0; Training.stamina := 0; Training.power := 0;
     Training.guts := 0; Training.wisdom := 0; Training.skill := 0;
     Training.vitality := 0%Q; Training.failure_rate := 0%Q;
     Training.confirm_position := (0, 0); Training.partners := [] |}.

Definition empty_scene : TrainingScene := {| scene_trainings := [] |}.

Definition fresh_context : SingleModeContext :=
  {| scenario := SCENARIO_URA; max_vitality := 100; is_summer_camp := false;
     trainings := []; training_levels := ∅ |}.

(** * The rest of the module *)

(** ** Gradient tables *)

Definition QColor : Type := Q * Q * Q.

Definition qcolor (c : Color) : QColor :=
  let '(r, g, b) := c in (inject_Z r, inject_Z g, inject_Z b).

(** Row [i] of [np.linspace(start, stop, num)]: [i * step + start] with
    [step = (stop - start) / (num - 1)], and the last row of two or more is
    [stop] itself. *)
Definition linspace_row (start stop : QColor) (num i : Z) : QColor :=
  if (1 <? num) && (i =? num - 1) then stop
  else
    let '(a0, a1, a2) := start in
    let '(b0, b1, b2) := stop in
    let div := inject_Z (num - 1) in
    (inject_Z i * ((b0 - a0) / div) + a0,
     inject_Z i * ((b1 - a1) / div) + a1,
     inject_Z i * ((b2 - a2) / div) + a2)%Q.

(** [np.linspace(start, stop, num)]: [num] rows, [ValueError] on a negative
    [num]. *)
Definition linspace (start stop : QColor) (num : Z) : result (list QColor) :=
  if num <? 0 then Raise ValueError
  else
    Ok (map (fun i => linspace_row start stop num (Z.of_nat i))
            (seq 0 (Z.to_nat num))).

(** The [for] loop of [_gradient]: [prev] is [colors[index - 1]]. *)
Fixpoint gradient_loop (prev : Color * Z) (rest : list (Color * Z))
    (ret : list QColor) : result (list QColor) :=
  match rest with
  | [] => Ok ret
  | (color, stop) :: rest' =>
      let '(prev_color, prev_stop) := prev in
      g ← linspace (qcolor prev_color) (qcolor color) (stop - prev_stop + 1);
      gradient_loop (color, stop) rest' (ret ++ tail g)
  end.

Definition _gradient (colors : list (Color * Z)) : result (list QColor) :=
  match colors with
  | [] => Raise IndexError
  | (color0, stop0) :: rest =>
      ret ← linspace (qcolor (0, 0, 0)) (qcolor color0) stop0;
      gradient_loop (color0, stop0) rest ret
  end.

(** The stops of a table, and tables whose stops start at or above 0 and
    never decrease. *)
Definition stops (colors : list (Color * Z)) : list Z := map snd colors.

Fixpoint ascending_from (s : Z) (l : list Z) : Prop :=
  match l with
  | [] => True
  | x :: l' => s <= x /\ ascending_from x l'
  end.

(** ** Training level *)

(** [compare_color] is [imagetools.compare_color]. *)
Definition _recognize_level (compare_color : Color -> Color -> Q)
    (rgb_color : Color) : result Z :=
  if Qltb (9 # 10) (compare_color (49, 178, 22) rgb_color) then Ok 1
  else if Qltb (9 # 10) (compare_color (46, 139, 244) rgb_color) then Ok 2
  else if Qltb (9 # 10) (compare_color (255, 134, 0) rgb_color) then Ok 3
  else if Qltb (9 # 10) (compare_color (244, 69, 132) rgb_color) then Ok 4
  else if Qltb (9 # 10) (compare_color (165, 78, 255) rgb_color) then Ok 5
  else Raise ValueError.

Definition level_colors : list Color :=
  [ (49, 178, 22); (46, 139, 244); (255, 134, 0); (244, 69, 132);
    (165, 78, 255) ].

(** ** Slot capture *)

(** The device as [_iter_training_images] drives it. What it shows depends
    on the taps made so far (oldest first): [wait_image] is the position at
    which [action.wait_image] finds the confirm marker, [screenshot] is
    [app.device.screenshot()]. *)
Record Device (Image : Type) : Type := {
  wait_image : list Vector4 -> Vector2;
  screenshot : list Vector4 -> Image
}.

Arguments wait_image {Image} _ _.
Arguments screenshot {Image} _ _.

(** The rectangle tapped for a slot: [pos] followed by
    [rp.vector2((20, 20), 540)], unpacked into one 4-tuple. *)
Definition tap_rect (rp : ResizeProxy) (pos : Vector2) : Vector4 :=
  let '(x, y) := pos in
  let '(w, h) := vector2 rp (20, 20) 540 in
  (x, y, w, h).

(** The [for pos in _iter_training_confirm_pos(ctx)] loop: the pairs it
    yields and the taps made when it ends. [distance] is
    [mathtools.distance]. *)
Fixpoint training_images_loop {Image : Type} (dev : Device Image)
    (distance : Vector2 -> Vector2 -> Q) (rp : ResizeProxy)
    (first_confirm_pos : Vector2) (radius : Z) (centers : list Vector2)
    (taps : list Vector4) (seen_confirm_pos : gset Vector2)
    : list (Image * Vector2) * list Vector4 :=
  match centers with
  | [] => ([], taps)
  | pos :: rest =>
      if Qltb (distance first_confirm_pos pos) (inject_Z radius) then
        training_images_loop dev distance rp first_confirm_pos radius rest
          taps seen_confirm_pos
      else
        let taps := taps ++ [tap_rect rp pos] in
        let pos := wait_image dev taps in
        if decide (pos ∈ seen_confirm_pos) then
          training_images_loop dev distance rp first_confirm_pos radius rest
            taps seen_confirm_pos
        else
          let '(yielded, taps') :=
            training_images_loop dev distance rp first_confirm_pos radius
              rest taps ({[pos]} ∪ seen_confirm_pos) in
          ((screenshot dev taps, pos) :: yielded, taps')
  end.

(** The generator run to its end: the pairs yielded, in order, and the taps
    made. [rp] is [action.resize_proxy()]. *)
Definition _iter_training_images {Image : Type} (dev : Device Image)
    (distance : Vector2 -> Vector2 -> Q) (rp : ResizeProxy)
    (sc : Scenario) (static : bool)
    : result (list (Image * Vector2) * list Vector4) :=
  let radius := vector rp 30 540 in
  let first_confirm_pos := wait_image dev [] in
  let first := (screenshot dev [], first_confirm_pos) in
  if static then Ok ([first], [])
  else
    centers ← _iter_training_confirm_pos rp sc;
    let '(yielded, taps) :=
      training_images_loop dev distance rp first_confirm_pos radius centers
        [] {[first_confirm_pos]} in
    Ok (first :: yielded, taps).

(** A table in which some stop is lower than the one before it by two or
    more. *)
Definition big_drop (colors : list (Color * Z)) : Prop :=
  exists (i : nat) pc ps c s,
    colors !! i = Some (pc, ps) /\ colors !! S i = Some (c, s) /\ s < ps - 1.

(** ** More fixtures *)

(** A screenshot in which every icon row shows an empty bond bar. *)
Definition endless_column : FixtureImage := fun _ => painted (119, 108, 109).

(** ** One training slot *)

(** The performance deltas of the Grand Live scenario, which [Training]
    carries beside the six stats. *)
Record Performance : Type := {
  dance : Z;
  passion : Z;
  vocal : Z;
  visual : Z;
  mental : Z
}.

(** What [_recognize_training] uses beside the collaborators above:
    [tuple(cast.list_(img.getpixel(pos), int))], [imagetools.compare_color],
    [action.resize_proxy()], the tuple [Training.ALL_TYPES] and the record
    [Training.new()] returns, with its performance part. *)
Class SlotCollaborators (Image : Type) : Type := {
  getpixel : Image -> Vector2 -> Color;
  compare_color : Color -> Color -> Q;
  action_resize_proxy : ResizeProxy;
  ALL_TYPES : list Z;
  new_training : Training.t;
  new_performance : Performance
}.

(** The [for t, center in zip(...)] loop: [type] and [min_dist] are the
    values of [self.type] and [min_dist] on entry. *)
Fixpoint nearest_type (x : Z) (pairs : list (Z * Vector2)) (type : Z)
    (min_dist : option Z) : Z :=
  match pairs with
  | [] => type
  | (t, center) :: rest =>
      let x_dist := Z.abs (x - fst center) in
      match min_dist with
      | None => nearest_type x rest t (Some x_dist)
      | Some m =>
          if x_dist <? m then nearest_type x rest t (Some x_dist)
          else nearest_type x rest type min_dist
      end
  end.

Definition _bbox_groups_performance (rp : ResizeProxy) (left right : Z)
    : list Vector4 :=
  [ (left, vector rp 265 540, right, vector rp 292 540);
    (left, vector rp 314 540, right, vector rp 341 540);
    (left, vector rp 363 540, right, vector rp 390 540);
    (left, vector rp 412 540, right, vector rp 439 540);
    (left, vector rp 461 540, right, vector rp 488 540) ].

Definition _performance_recognitions (sc : Scenario) (rp : ResizeProxy)
    : result (list (list Vector4 * EffectRecognizer)) :=
  if decide (sc = SCENARIO_GRAND_LIVE) then
    let base_x := vector rp 88 540 in
    let '(x_left, x_right) := (base_x, base_x + vector rp 58 540) in
    Ok [ (_bbox_groups_performance rp x_left x_right, BaseEffect) ]
  else Raise NotImplementedError.

(** [recognize(img.crop(bbox_group[i]))] *)
Definition recognize_column `{Collaborators Image} (img : Image)
    (bbox_group : list Vector4) (recognize : EffectRecognizer) (i : Z)
    : result Z :=
  bbox ← py_index bbox_group i;
  fst (match recognize with
       | BaseEffect => _recognize_base_effect (crop img bbox)
       | RedEffect => _recognize_red_effect (crop img bbox)
       end).

(** The loop over [_effect_recognitions(ctx, rp)]: the six stats as they
    stand, each group adding its six columns in order. *)
Fixpoint effects_loop `{Collaborators Image} (img : Image)
    (groups : list (list Vector4 * EffectRecognizer))
    (stats : Z * Z * Z * Z * Z * Z) : result (Z * Z * Z * Z * Z * Z) :=
  match groups with
  | [] => Ok stats
  | (bbox_group, recognize) :: rest =>
      let '(speed, stamina, power, guts, wisdom, skill) := stats in
      v0 ← recognize_column img bbox_group recognize 0;
      v1 ← recognize_column img bbox_group recognize 1;
      v2 ← recognize_column img bbox_group recognize 2;
      v3 ← recognize_column img bbox_group recognize 3;
      v4 ← recognize_column img bbox_group recognize 4;
      v5 ← recognize_column img bbox_group recognize 5;
      effects_loop img rest
        (speed + v0, stamina + v1, power + v2, guts + v3, wisdom + v4,
         skill + v5)
  end.

(** The loop over [_performance_recognitions(ctx, rp)]. *)
Fixpoint performance_loop `{Collaborators Image} (img : Image)
    (groups : list (list Vector4 * EffectRecognizer)) (perf : Performance)
    : result Performance :=
  match groups with
  | [] => Ok perf
  | (bbox_group, recognize) :: rest =>
      v0 ← recognize_column img bbox_group recognize 0;
      v1 ← recognize_column img bbox_group recognize 1;
      v2 ← recognize_column img bbox_group recognize 2;
      v3 ← recognize_column img bbox_group recognize 3;
      v4 ← recognize_column img bbox_group recognize 4;
      performance_loop img rest
        {| dance := dance perf + v0; passion := passion perf + v1;
           vocal := vocal perf + v2; visual := visual perf + v3;
           mental := mental perf + v4 |}
  end.

(** [_recognize_training]: the record a slot gives, or the exception that
    ends its recognition (logged and raised again by the [except] clause).
    [None] is the icon loop still running when [fuel] is spent. *)
Definition _recognize_training `{Collaborators Image}
    `{SlotCollaborators Image} `{Training.Types} (fuel : nat)
    (ctx : SingleModeContext) (img_pair : Image * Vector2)
    : result (option (Training.t * Performance)) :=
  let img := fst img_pair in
  let rp := resize_proxy_of (width img) in
  let confirm_position := snd img_pair in
  centers ← _iter_training_confirm_pos action_resize_proxy (scenario ctx);
  let type :=
    nearest_type (fst confirm_position) (combine ALL_TYPES centers)
      (Training.type new_training) None in
  level ←
    (if decide (scenario ctx <> SCENARIO_UAF_READY_GO) then
       _recognize_level compare_color (getpixel img (vector2 rp (10, 200) 540))
     else Ok (Training.level new_training));
  groups ← _effect_recognitions (scenario ctx) rp;
  '(speed, stamina, power, guts, wisdom, skill) ←
    effects_loop img groups
      (Training.speed new_training, Training.stamina new_training,
       Training.power new_training, Training.guts new_training,
       Training.wisdom new_training, Training.skill new_training);
  perf ←
    (if decide (scenario ctx = SCENARIO_GRAND_LIVE) then
       groups ← _performance_recognitions (scenario ctx) rp;
       performance_loop img groups new_performance
     else Ok new_performance);
  vitality ← _estimate_vitality (max_vitality ctx) type level;
  failure_rate ← _recognize_failure_rate rp confirm_position img;
  partners ← _recognize_partners fuel (scenario ctx) img;
  Ok (ps ← partners;
      Some ({| Training.type := type; Training.level := level;
               Training.speed := speed; Training.stamina := stamina;
               Training.power := power; Training.guts := guts;
               Training.wisdom := wisdom; Training.skill := skill;
               Training.vitality := vitality;
               Training.failure_rate := failure_rate;
               Training.confirm_position := confirm_position;
               Training.partners := ps |}, perf)).

(** The exceptions a slot's recognition can end with. *)
Definition slot_error (e : exn) : Prop :=
  e = ValueError \/ e = IndexError \/ e = ZeroDivisionError \/
  e = OverflowError \/ e = NotImplementedError.

(** A slot image for the fixture: the pixel read for the level, the colour
    comparison (equal colours only), the proxy of a 540-wide screen, five
    types numbered as the game data does, and a record of zeros. *)
#[export] Instance fixture_slot : SlotCollaborators FixtureImage := {|
  getpixel := fun _ _ => (255, 134, 0);
  compare_color := fun a b => if decide (a = b) then 1%Q else 0%Q;
  action_resize_proxy := identity_proxy;
  ALL_TYPES := [1; 2; 3; 4; 5];
  new_training := training_of 0 0;
  new_performance :=
    {| dance := 0; passion := 0; vocal := 0; visual := 0; mental := 0 |}
|}.

(** An OCR text of 311 nines, the shortest run of nines whose hundredth
    is out of the range of a float. *)
Definition nines_311 : string :=
  string_of_list_ascii (repeat "9"%char 311).

(** A URA screenshot: effect columns without glyphs, a failure rate read
    as "12%", one partner with an empty bond bar. *)
Definition ura_screenshot : FixtureImage :=
  fun bbox =>
    let '(_, top, _, _) := bbox in
    if top =? 146 then painted (119, 108, 109)
    else if top =? 850 - 155 then glyphs 0 "" "12%"
    else blank.

(** The same screenshot with a failure rate read as 311 nines. *)
Definition overflow_screenshot : FixtureImage :=
  fun bbox =>
    let '(_, top, _, _) := bbox in
    if top =? 146 then painted (119, 108, 109)
    else if top =? 850 - 155 then glyphs 0 "" nines_311
    else blank.

(** * plugins/race_campaign.py

    An aware [datetime] is modelled by its instant, in microseconds since
    the epoch, so that comparisons of datetimes are comparisons of integers.
    [datetime.datetime.now(JST)] is a clock: [now k] is what the [k]-th call
    returns, and every function that reads the clock takes the number of
    calls made so far and returns it updated. *)

Definition microseconds_per_day : Z := 86400 * 1000000.

(** [t.astimezone(JST).date()], as the number of the day: JST is nine hours
    ahead of UTC. *)
Definition jst_date (t : Z) : Z :=
  (t + 9 * 3600 * 1000000) / microseconds_per_day.

(** What the plugin reads of an entry of [race_result.iterate()]:
    [r.race.name], [r.order] and [r.time]. *)
Record RaceResult : Type := {
  result_race_name : string;
  result_order : Z;
  result_time : Z
}.

Inductive CampaignClass : Set := OncePerDayCampaign | OneTimeCampaign.

Record Campaign : Type := {
  campaign_class : CampaignClass;
  start : Z;
  end_ : Z;
  race_name : string;
  order_lte : Z
}.

(** [Campaign.match]; [race] is [race.name]. *)
Definition Campaign_match (now : nat -> Z) (self : Campaign) (race : string)
    (calls : nat) : bool * nat :=
  if negb (String.eqb race (race_name self)) then (false, calls)
  else
    let t := now calls in
    if negb ((start self <=? t) && (t <=? end_ self)) then (false, S calls)
    else (true, S calls).

(** The loop of [OncePerDayCampaign.match]: the clock is read for a result
    only when its name and order already fit. *)
Fixpoint once_per_day_loop (now : nat -> Z) (self : Campaign) (race : string)
    (results : list RaceResult) (calls : nat) : bool * nat :=
  match results with
  | [] => (true, calls)
  | r :: rest =>
      if String.eqb (result_race_name r) race
         && (result_order r <=? order_lte self) then
        if jst_date (result_time r) =? jst_date (now calls) then
          (false, S calls)
        else once_per_day_loop now self race rest (S calls)
      else once_per_day_loop now self race rest calls
  end.

Definition OncePerDayCampaign_match (now : nat -> Z) (self : Campaign)
    (race : string) (results : list RaceResult) (calls : nat) : bool * nat :=
  let '(matched, calls) := Campaign_match now self race calls in
  if negb matched then (false, calls)
  else once_per_day_loop now self race results calls.

(** The condition under which the loop of [OneTimeCampaign.match] returns
    [False]. *)
Definition one_time_done (self : Campaign) (race : string) (r : RaceResult)
    : bool :=
  String.eqb (result_race_name r) race
  && (result_order r <=? order_lte self)
  && ((start self <? result_time r) && (result_time r <=? end_ self)).

Definition OneTimeCampaign_match (now : nat -> Z) (self : Campaign)
    (race : string) (results : list RaceResult) (calls : nat) : bool * nat :=
  let '(matched, calls) := Campaign_match now self race calls in
  if negb matched then (false, calls)
  else (negb (existsb (one_time_done self race) results), calls).

(** [i.match(ctx, self)], by the class of [i]. *)
Definition campaign_match (now : nat -> Z) (self : Campaign) (race : string)
    (results : list RaceResult) (calls : nat) : bool * nat :=
  match campaign_class self with
  | OncePerDayCampaign => OncePerDayCampaign_match now self race results calls
  | OneTimeCampaign => OneTimeCampaign_match now self race results calls
  end.

(** [any(i.match(ctx, self) for i in _CAMPAIGNS)]: it stops at the first
    campaign that matches. *)
Fixpoint any_campaign_matches (now : nat -> Z) (campaigns : list Campaign)
    (race : string) (results : list RaceResult) (calls : nat) : bool * nat :=
  match campaigns with
  | [] => (false, calls)
  | i :: rest =>
      let '(matched, calls) := campaign_match now i race results calls in
      if matched then (true, calls)
      else any_campaign_matches now rest race results calls
  end.

(** [Race.score] of the class the plugin installs; [ret] is what
    [super().score(ctx)] returned. *)
Definition score (now : nat -> Z) (campaigns : list Campaign) (race : string)
    (results : list RaceResult) (ret : Q) (calls : nat) : Q * nat :=
  if Qltb ret 0 then (ret, calls)
  else
    let '(matched, calls) :=
      any_campaign_matches now campaigns race results calls in
    (if matched then (ret + 100)%Q else ret, calls).

(** [_add_campaign]: [campaigns] is the list [_CAMPAIGNS]. *)
Definition _add_campaign (now : nat -> Z) (c : Campaign)
    (campaigns : list Campaign) (calls : nat) : list Campaign * nat :=
  let t := now calls in
  if negb ((start c - microseconds_per_day <=? t) && (t <=? end_ c)) then
    (campaigns, S calls)
  else (campaigns ++ [c], S calls).

(** A clock that never goes back. *)
Definition monotone (now : nat -> Z) : Prop :=
  forall i j : nat, (i <= j)%nat -> now i <= now j.

(** A campaign and a result for the fixture: one day of campaign on a race,
    and a win of that race in the middle of the day. *)
Definition fixture_campaign (class : CampaignClass) : Campaign :=
  {| campaign_class := class; start := 0; end_ := microseconds_per_day;
     race_name := "Oaks"; order_lte := 1 |}.

Definition fixture_win : RaceResult :=
  {| result_race_name := "Oaks"; result_order := 1;
     result_time := 43200 * 1000000 |}.

(** A result of that race with the given order, run the given number of
    seconds after the epoch. *)
Definition fixture_result (order seconds : Z) : RaceResult :=
  {| result_race_name := "Oaks"; result_order := order;
     result_time := seconds * 1000000 |}.

(** * plugins/bluestacks_port.py *)

(** [s.partition(":")] when [s] has a colon: the text before the first
    colon and the text after it. *)
Fixpoint partition_colon (s : string) : option (string * string) :=
  match s with
  | EmptyString => None
  | String c rest =>
      if Ascii.eqb c ":" then Some (EmptyString, rest)
      else
        match partition_colon rest with
        | Some (field, rest') => Some (String c field, rest')
        | None => None
        end
  end.

(** [s.split(":", maxsplit)] *)
Fixpoint split_colon (maxsplit : nat) (s : string) : list string :=
  match maxsplit with
  | O => [s]
  | S maxsplit' =>
      match partition_colon s with
      | Some (field, rest) => field :: split_colon maxsplit' rest
      | None => [s]
      end
  end.

(** What [BlueStacksClient.__init__] can end with: the [ValueError] of
    unpacking [address.split(":", 2)] into three names, the error of [open]
    or of reading the file, the [re.error] of a pattern that does not
    compile, the [UnboundLocalError] and the [AttributeError] of
    [re_match.group] on a name never bound or bound to [None], an
    [AssertionError], and the [ValueError] of [int(port)]. *)
Inductive InitError : Set :=
| UnpackError
| OpenError
| RegexError
| UnboundLocalError
| AttributeError
| AssertError
| PortError.

(** [hostname, instance, conf_path = address.split(":", 2)] *)
Definition unpack_address (address : string)
    : InitError + (string * string * string) :=
  match split_colon 2 address with
  | [hostname; instance; conf_path] => inr (hostname, instance, conf_path)
  | _ => inl UnpackError
  end.

Definition no_colon (s : string) : Prop :=
  Forall (fun c => c <> ":"%char) (list_ascii_of_string s).

(** The double quote, which a string literal cannot hold. *)
Definition quote : ascii := ascii_of_nat 34.

(** [s] without the prefix [p], when it starts with it. *)
Fixpoint strip_prefix (p s : string) : option string :=
  match p, s with
  | EmptyString, _ => Some s
  | String a p', String b s' =>
      if Ascii.eqb a b then strip_prefix p' s' else None
  | String _ _, EmptyString => None
  end.

(** The leading decimal digits of [s], [n] at most, and what follows. *)
Fixpoint take_digits (n : nat) (s : string) : string * string :=
  match n, s with
  | S n', String c rest =>
      if is_digit c then
        let '(digits, rest') := take_digits n' rest in (String c digits, rest')
      else (EmptyString, s)
  | _, _ => (EmptyString, s)
  end.

(** The characters that stand for themselves in a regular expression, among
    which the instance names BlueStacks generates are written. *)
Definition is_word (c : ascii) : bool :=
  let n := N_of_ascii c in
  (((48 <=? n) && (n <=? 57)) || ((65 <=? n) && (n <=? 90))
   || ((97 <=? n) && (n <=? 122)) || (n =? 95))%N.

Definition plain (instance : string) : bool :=
  forallb is_word (list_ascii_of_string instance).

(** The group [port] of [re.match] with the pattern of [__init__] on
    [line], for an instance name written in word characters: the line starts
    with the key of the instance's ADB port, then a double quote, two to five
    decimal digits (as many as there are, five at most) and a double quote.
    Digits are the ASCII ones. *)
Definition port_of_line (instance line : string) : option string :=
  rest ← strip_prefix
           ("bst.instance." ++ instance ++ ".status.adb_port="
            ++ String quote EmptyString)%string line;
  let '(digits, rest) := take_digits 5 rest in
  if (2 <=? String.length digits)%nat then
    match rest with
    | String c _ => if Ascii.eqb c quote then Some digits else None
    | EmptyString => None
    end
  else None.

(** What one call of [re.match] gives: [re.error] when the pattern does not
    compile, [None], or a match object, given by its group [port] (the empty
    string when the group took no part in the match). *)
Inductive Matching : Set :=
| PatternError
| NoMatch
| Match (port : string).

(** [re.match(pattern % instance, line)]: [re_match] is the regular
    expression engine, consulted for an instance name that holds a character
    with a meaning of its own in a pattern; such a name can make the pattern
    one that does not compile. *)
Definition match_line (re_match : string -> string -> Matching)
    (instance line : string) : Matching :=
  if plain instance then
    match port_of_line instance line with
    | Some port => Match port
    | None => NoMatch
    end
  else re_match instance line.

(** The [for line in conf] loop: the value of the name [re_match] when it
    ends, [None] when the name was never bound, or the [re.error] that ends
    the loop. *)
Fixpoint scan_conf (re_match : string -> string -> Matching)
    (instance : string) (conf : list string)
    (bound : option (option string))
    : InitError + option (option string) :=
  match conf with
  | [] => inr bound
  | line :: rest =>
      match match_line re_match instance line with
      | PatternError => inl RegexError
      | Match port => inr (Some (Some port))
      | NoMatch => scan_conf re_match instance rest (Some None)
      end
  end.

(** [if len(instance) == 0: instance = "Nougat64"] and the same for the
    path of the configuration file. *)
Definition instance_or_default (instance : string) : string :=
  if (String.length instance =? 0)%nat then "Nougat64"%string else instance.

Definition conf_path_or_default (conf_path : string) : string :=
  if (String.length conf_path =? 0)%nat then
    "C:\ProgramData\BlueStacks_nxt\bluestacks.conf"%string
  else conf_path.

(** [BlueStacksClient.__init__] up to the two attributes it computes,
    [self.hostname] and [self.port]. [open_conf] gives the lines the loop
    reads from the file at a path, or nothing when [open], or the reading of
    a line the loop asks for, raises; [max_str_digits] is the interpreter's
    limit on the digits of a literal. *)
Definition BlueStacksClient_init (max_str_digits : Z)
    (re_match : string -> string -> Matching)
    (open_conf : string -> option (list string)) (address : string)
    : InitError + (string * Z) :=
  match unpack_address address with
  | inl e => inl e
  | inr (hostname, instance, conf_path) =>
      let instance := instance_or_default instance in
      let conf_path := conf_path_or_default conf_path in
      match open_conf conf_path with
      | None => inl OpenError
      | Some conf =>
          match scan_conf re_match instance conf None with
          | inl e => inl e
          | inr bound =>
              if (String.length hostname =? 0)%nat then inl AssertError
              else
                match bound with
                | None => inl UnboundLocalError
                | Some None => inl AttributeError
                | Some (Some port) =>
                    if (String.length port =? 0)%nat then inl AssertError
                    else
                      match py_int max_str_digits port with
                      | Ok n => inr (hostname, n)
                      | Raise _ => inl PortError
                      end
                end
          end
      end
  end.

(** ** Retrying on a timeout *)

(** One call of the wrapped method: it returns, raises
    [TcpTimeoutException], or raises something else. *)
Inductive Attempt (A E : Type) : Type :=
| Returned (a : A)
| TimedOut
| Failed (e : E).

Arguments Returned {A E} a.
Arguments TimedOut {A E}.
Arguments Failed {A E} e.

(** The [while True] loop of [screenshot], [tap] and [swipe]: [attempt k]
    is the [k]-th call of the wrapped method and [connect k] the [k]-th call
    of [self.connect()], which returns ([None]) or raises. The result comes
    with the number of reconnections made; [None] is the loop still running
    when [fuel] is spent. *)
Fixpoint retry_on_timeout {A E : Type} (attempt : nat -> Attempt A E)
    (connect : nat -> option E) (fuel k : nat) : option ((E + A) * nat) :=
  match fuel with
  | O => None
  | S fuel' =>
      match attempt k with
      | Returned a => Some (inr a, k)
      | Failed e => Some (inl e, k)
      | TimedOut =>
          match connect k with
          | Some e => Some (inl e, S k)
          | None => retry_on_timeout attempt connect fuel' (S k)
          end
      end
  end.

(** * Properties *)

(** ** Rational arithmetic used by the estimators *)

Lemma inject_div_pos (c mv : Z) :
  0 < mv -> 0 < c -> (0 < inject_Z c / inject_Z mv)%Q.
Proof.
  intros Hmv Hc. destruct mv as [|p|p]; try lia.
  unfold Qdiv, Qinv, Qmult, Qlt, inject_Z. simpl. lia.
Qed.

Lemma inject_div_neg (c mv : Z) :
  0 < mv -> c < 0 -> (inject_Z c / inject_Z mv < 0)%Q.
Proof.
  intros Hmv Hc. destruct mv as [|p|p]; try lia.
  unfold Qdiv, Qinv, Qmult, Qlt, inject_Z. simpl. lia.
Qed.

Lemma inject_div_abs_lt (c c' mv : Z) :
  0 < mv -> Z.abs c < Z.abs c' ->
  (Qabs (inject_Z c / inject_Z mv) < Qabs (inject_Z c' / inject_Z mv))%Q.
Proof.
  intros Hmv Hc. destruct mv as [|p|p]; try lia.
  unfold Qdiv, Qinv, Qmult, Qlt, Qabs, inject_Z. simpl.
  rewrite !Z.mul_1_r. nia.
Qed.

Lemma float_overflow_large : 1000 < float_overflow.
Proof. vm_compute. reflexivity. Qed.

Lemma py_truediv_nonzero (c mv : Z) :
  mv <> 0 -> Z.abs c < float_overflow ->
  py_truediv c mv = Ok (inject_Z c / inject_Z mv)%Q.
Proof.
  intros Hmv Hc. unfold py_truediv. pose proof float_overflow_large.
  destruct (Z.eqb_spec mv 0); [contradiction|].
  destruct (Z.leb_spec (float_overflow * Z.abs mv) (Z.abs c)); [nia | reflexivity].
Qed.

Lemma py_truediv_nonzero_aux (c mv : Z) :
  mv <> 0 /\ Z.abs c < float_overflow ->
  (float_overflow * Z.abs mv <=? Z.abs c) = false.
Proof.
  intros [Hmv Hc]. pose proof float_overflow_large.
  apply Z.leb_gt. nia.
Qed.

Lemma py_truediv_ok (a b : Z) (q : Q) :
  py_truediv a b = Ok q -> q = (inject_Z a / inject_Z b)%Q.
Proof.
  unfold py_truediv. destruct (b =? 0); [discriminate|].
  destruct (_ <=? _); [discriminate|]. by intros [= <-].
Qed.

(** ** The vitality table *)

Section VitalityFacts.
Context `{Training.Types}.

Lemma table_types_distinct :
  NoDup table_types ->
  Training.TYPE_SPEED <> Training.TYPE_STAMINA /\ Training.TYPE_SPEED <> Training.TYPE_POWER /\
  Training.TYPE_SPEED <> Training.TYPE_GUTS /\ Training.TYPE_SPEED <> Training.TYPE_WISDOM /\
  Training.TYPE_STAMINA <> Training.TYPE_POWER /\ Training.TYPE_STAMINA <> Training.TYPE_GUTS /\
  Training.TYPE_STAMINA <> Training.TYPE_WISDOM /\ Training.TYPE_POWER <> Training.TYPE_GUTS /\
  Training.TYPE_POWER <> Training.TYPE_WISDOM /\ Training.TYPE_GUTS <> Training.TYPE_WISDOM.
Proof.
  unfold table_types, cost_types. simpl. intros Hnd.
  repeat match goal with
         | Hn : NoDup (_ :: _) |- _ => apply NoDup_cons in Hn; destruct Hn
         end.
  set_solver.
Qed.

Lemma vit_data_wisdom : vit_data !! Training.TYPE_WISDOM = Some [5; 5; 5; 5; 5].
Proof. unfold vit_data. apply lookup_insert_eq. Qed.

Lemma vit_data_cost (ty : Z) :
  NoDup table_types -> In ty cost_types ->
  exists c1 c2 c3 c4 c5,
    vit_data !! ty = Some [c1; c2; c3; c4; c5] /\
    -28 <= c5 < c4 /\ c4 < c3 /\ c3 < c2 < c1 /\ c1 < 0.
Proof.
  intros Hnd Hin. apply table_types_distinct in Hnd.
  destruct Hnd as (?&?&?&?&?&?&?&?&?&?).
  unfold cost_types in Hin. simpl in Hin. unfold vit_data.
  destruct Hin as [<-|[<-|[<-|[<-|[]]]]];
    do 5 eexists; (split; [ by simplify_map_eq | lia ]).
Qed.

Lemma vit_data_unknown (ty : Z) :
  ~ In ty table_types -> vit_data !! ty = None.
Proof.
  unfold table_types, cost_types. simpl. intros Hnot.
  unfold vit_data. rewrite !lookup_insert_ne by tauto. apply lookup_empty.
Qed.

Lemma py_index_five (c1 c2 c3 c4 c5 lv : Z) :
  1 <= lv <= 5 ->
  exists c, py_index [c1; c2; c3; c4; c5] (lv - 1) = Ok c /\
    ((lv = 1 /\ c = c1) \/ (lv = 2 /\ c = c2) \/ (lv = 3 /\ c = c3) \/
     (lv = 4 /\ c = c4) \/ (lv = 5 /\ c = c5)).
Proof.
  intros Hlv.
  assert (lv = 1 \/ lv = 2 \/ lv = 3 \/ lv = 4 \/ lv = 5) as Hc by lia.
  destruct Hc as [->|[->|[->|[->| ->]]]]; eexists; (split; [reflexivity|]); tauto.
Qed.

End VitalityFacts.

(** C7. With distinct type constants and a positive maximum vitality, at
    every level 1..5: wisdom training gives a positive value; speed, stamina,
    power and guts give a negative value whose magnitude grows strictly with
    the level; a type outside the table gives 0 (whatever the level); and a
    non-zero output is the table coefficient of that type and level divided
    by the maximum vitality. *)
Theorem estimate_vitality_table `{Training.Types} (mv ty lv : Z) :
  NoDup table_types -> 0 < mv -> 1 <= lv <= 5 ->
  (ty = Training.TYPE_WISDOM ->
     exists q, _estimate_vitality mv ty lv = Ok q /\ (0 < q)%Q) /\
  (In ty cost_types ->
     exists q, _estimate_vitality mv ty lv = Ok q /\ (q < 0)%Q /\
       forall lv', lv < lv' <= 5 ->
         exists q', _estimate_vitality mv ty lv' = Ok q' /\
                    (Qabs q < Qabs q')%Q) /\
  (~ In ty table_types -> forall lv0, _estimate_vitality mv ty lv0 = Ok 0%Q) /\
  (forall q, _estimate_vitality mv ty lv = Ok q -> ~ (q == 0)%Q ->
     exists row c, vit_data !! ty = Some row /\
       py_index row (lv - 1) = Ok c /\
       q = (inject_Z c / inject_Z mv)%Q).
Proof.
  intros Hnd Hmv Hlv. pose proof float_overflow_large. repeat split.
  - intros ->. unfold _estimate_vitality. rewrite vit_data_wisdom.
    destruct (py_index_five 5 5 5 5 5 lv Hlv) as (c & -> & Hc).
    simpl. rewrite py_truediv_nonzero by lia.
    eexists; split; [reflexivity|]. apply inject_div_pos; lia.
  - intros Hin.
    destruct (vit_data_cost ty Hnd Hin) as (c1&c2&c3&c4&c5&Hrow&?&?&?&?).
    unfold _estimate_vitality. rewrite Hrow.
    destruct (py_index_five c1 c2 c3 c4 c5 lv Hlv) as (c & -> & Hc).
    simpl. rewrite py_truediv_nonzero by lia.
    eexists; split; [reflexivity|]. split; [apply inject_div_neg; lia|].
    intros lv' Hlv'.
    destruct (py_index_five c1 c2 c3 c4 c5 lv') as (c' & -> & Hc'); [lia|].
    simpl. rewrite py_truediv_nonzero by lia.
    eexists; split; [reflexivity|]. apply inject_div_abs_lt; lia.
  - intros Hnot lv0. unfold _estimate_vitality.
    by rewrite vit_data_unknown.
  - intros q Hq Hnz. unfold _estimate_vitality in Hq.
    destruct (vit_data !! ty) as [row|] eqn:Hrow.
    + destruct (py_index row (lv - 1)) as [c|e] eqn:Hidx; simpl in Hq; [|done].
      apply py_truediv_ok in Hq. by exists row, c.
    + inversion Hq; subst. by destruct Hnz.
Qed.

Lemma estimate_vitality_table_witness :
  (exists q, @_estimate_vitality fixture_types 100 1 3 = Ok q /\ (q < 0)%Q /\
     forall lv', 3 < lv' <= 5 ->
       exists q', @_estimate_vitality fixture_types 100 1 lv' = Ok q' /\
                  (Qabs q < Qabs q')%Q).
Proof.
  apply (@estimate_vitality_table fixture_types 100 1 3).
  - apply (bool_decide_unpack _). vm_compute. exact I.
  - lia.
  - lia.
  - simpl; tauto.
Defined.

(** ** Comparisons of rationals *)

Lemma Qltb_lt (a b : Q) : Qltb a b = true <-> (a < b)%Q.
Proof. unfold Qltb, Qlt. apply Z.ltb_lt. Qed.

Lemma Qltb_ge (a b : Q) : Qltb a b = false <-> (b <= a)%Q.
Proof. unfold Qltb, Qle. rewrite Z.ltb_ge. reflexivity. Qed.

Lemma py_min2_le_1 (x : Q) : (py_min2 1 x <= 1)%Q.
Proof.
  unfold py_min2. destruct (Qltb x 1) eqn:Hx.
  - apply Qlt_le_weak, Qltb_lt, Hx.
  - apply Qle_refl.
Qed.

Lemma py_max2_0_range (y : Q) :
  (y <= 1)%Q -> (0 <= py_max2 0 y)%Q /\ (py_max2 0 y <= 1)%Q.
Proof.
  intros Hy. unfold py_max2. destruct (Qltb 0 y) eqn:H0.
  - split; [apply Qlt_le_weak, Qltb_lt, H0 | exact Hy].
  - split; [apply Qle_refl | discriminate].
Qed.

Lemma soul_ratio_range (fg_avg empty_avg : Q) :
  (0 <= soul_ratio fg_avg empty_avg)%Q /\ (soul_ratio fg_avg empty_avg <= 1)%Q.
Proof. unfold soul_ratio. apply py_max2_0_range, py_min2_le_1. Qed.

(** On the path that divides, the divisor [fg_avg - outline_avg] is at
    least 55. *)
Lemma soul_ratio_divisor (fg_avg : Q) :
  Qltb fg_avg 100 = false -> (55 <= fg_avg - 45)%Q.
Proof.
  intros Hfg. apply Qltb_ge in Hfg.
  apply Qle_trans with (100 - 45)%Q; [discriminate|].
  apply Qplus_le_compat; [exact Hfg | apply Qle_refl].
Qed.

(** ** Bond ratio *)

(** C2. The bond ratio is in [0, 1] or is exactly -1; it is exactly 1 when
    the full-gauge template matches and, when it does not, exactly -1 as soon
    as the average of the foreground mask is below 100. *)
Theorem recognize_soul_range `{Collaborators Image}
    (rp : ResizeProxy) (screenshot : Image) (icon_bbox : Vector4) :
  let soul := _recognize_soul rp screenshot icon_bbox in
  let is_full :=
    match_soul_full (crop screenshot (right_bottom_icon_bbox rp icon_bbox)) in
  let fg_avg :=
    fst (soul_gauge_averages (crop screenshot (soul_bbox rp icon_bbox))) in
  (((0 <= soul)%Q /\ (soul <= 1)%Q) \/ soul = (-1 # 1)%Q) /\
  (is_full = true -> soul = 1%Q) /\
  (is_full = false -> (fg_avg < 100)%Q -> soul = (-1 # 1)%Q).
Proof.
  cbv zeta. unfold _recognize_soul.
  destruct (match_soul_full _) eqn:Hfull.
  - split; [left; split; discriminate|]. split; [reflexivity | discriminate].
  - destruct (soul_gauge_averages _) as [fg_avg empty_avg]. simpl fst.
    destruct (Qltb fg_avg 100) eqn:Hfg.
    + split; [right; reflexivity|]. split; [discriminate | reflexivity].
    + split; [left; apply soul_ratio_range|]. split; [discriminate|].
      intros _ Hlt. apply Qltb_lt in Hlt. congruence.
Qed.

Lemma recognize_soul_range_witness :
  @_recognize_soul _ fixture identity_proxy
    (fun _ => gauge false 60 30) (448, 147, 516, 220) = (-1 # 1)%Q.
Proof.
  apply (@recognize_soul_range _ fixture identity_proxy
           (fun _ => gauge false 60 30) (448, 147, 516, 220)).
  - reflexivity.
  - reflexivity.
Defined.

(** ** Decimal text *)

Lemma digit_is_plain (c : ascii) :
  is_digit c = true ->
  is_space c = false /\ Ascii.eqb c "_" = false /\
  c <> "+"%char /\ c <> "-"%char /\ 0 <= digit_value c <= 9.
Proof.
  destruct c as [[] [] [] [] [] [] [] []]; intros Hd;
    try discriminate Hd; vm_compute; repeat split; congruence.
Qed.

Lemma lstrip_space_head (c : ascii) (l : list ascii) :
  is_space c = false -> lstrip_space (c :: l) = c :: l.
Proof. intros Hc. simpl. by rewrite Hc. Qed.

Lemma strip_space_digits (l : list ascii) : all_digits l -> strip_space l = l.
Proof.
  intros Hl. unfold strip_space.
  assert (forall k, all_digits k -> lstrip_space k = k) as Hid.
  { intros [|c k] Hk; [reflexivity|].
    apply lstrip_space_head. inversion Hk; subst.
    by apply digit_is_plain. }
  rewrite (Hid l Hl). rewrite Hid; [apply rev_involutive|].
  by apply Forall_rev.
Qed.

Lemma int_digits_all (l : list ascii) (acc : Z) :
  all_digits l -> 0 <= acc ->
  int_digits acc false l
    = Some (fold_left (fun a c => 10 * a + digit_value c) l acc) /\
  0 <= fold_left (fun a c => 10 * a + digit_value c) l acc.
Proof.
  revert acc. induction l as [|c l IH]; intros acc Hl Hacc.
  - split; [reflexivity | exact Hacc].
  - inversion Hl as [|? ? Hc Hl']; subst. simpl. rewrite Hc.
    apply IH; [exact Hl'|]. apply digit_is_plain in Hc. lia.
Qed.

Lemma count_digits_all (l : list ascii) :
  all_digits l -> count_digits l = Z.of_nat (List.length l).
Proof.
  unfold count_digits. induction 1 as [|c l Hc _ IH]; [reflexivity|].
  cbn [List.filter]. rewrite Hc. cbn [List.length]. lia.
Qed.

(** [int()] by the first character of the stripped text: a sign is dropped,
    a minus sign negates. *)
Lemma py_int_unfold (m : Z) (s : string) :
  py_int m s
    = let l := strip_space (list_ascii_of_string s) in
      let negative :=
        match l with c :: _ => Ascii.eqb c "-" | [] => false end in
      let body :=
        match l with
        | c :: rest => if Ascii.eqb c "+" || Ascii.eqb c "-" then rest else l
        | [] => l
        end in
      match int_body body with
      | Some n =>
          if int_limit_exceeded m (count_digits body) then Raise ValueError
          else Ok (if negative then - n else n)
      | None => Raise ValueError
      end.
Proof.
  unfold py_int. cbv zeta.
  destruct (strip_space (list_ascii_of_string s)) as [|c l]; [reflexivity|].
  destruct c as [[] [] [] [] [] [] [] []]; reflexivity.
Qed.

Lemma py_int_of_digits (m : Z) (s : string) :
  all_digits (list_ascii_of_string s) -> list_ascii_of_string s <> [] ->
  py_int m s
    = (if int_limit_exceeded m
            (Z.of_nat (List.length (list_ascii_of_string s)))
       then Raise ValueError
       else Ok (decimal_value (list_ascii_of_string s))) /\
  0 <= decimal_value (list_ascii_of_string s).
Proof.
  intros Hl Hne. rewrite py_int_unfold. cbv zeta.
  rewrite (strip_space_digits _ Hl).
  destruct (list_ascii_of_string s) as [|c l]; [done|].
  inversion Hl as [|? ? Hc Hl']; subst.
  destruct (digit_is_plain c Hc) as (_ & _ & Hplus & Hminus & Hv).
  assert (int_body (c :: l) = Some (decimal_value (c :: l)) /\
          0 <= decimal_value (c :: l)) as [Hbody Hpos].
  { unfold int_body, decimal_value. rewrite Hc. simpl fold_left.
    replace (10 * 0 + digit_value c) with (digit_value c) by lia.
    apply int_digits_all; [exact Hl' | lia]. }
  split; [|exact Hpos].
  destruct (Ascii.eqb_spec c "+"); [done|].
  destruct (Ascii.eqb_spec c "-"); [done|]. simpl orb. cbv iota.
  by rewrite Hbody, (count_digits_all _ Hl).
Qed.

(** A literal short enough never to be checked against the limit. *)
Lemma int_limit_short (m digits : Z) :
  digits <= 640 -> int_limit_exceeded m digits = false.
Proof.
  intros Hd. unfold int_limit_exceeded.
  destruct (Z.ltb_spec 640 digits); [lia | reflexivity].
Qed.

Lemma int_limit_exceeded_long (m digits : Z) :
  int_limit_exceeded m digits = true -> 640 < digits /\ 0 < m < digits.
Proof.
  unfold int_limit_exceeded.
  destruct (Z.ltb_spec 640 digits); [|discriminate].
  destruct (Z.ltb_spec 0 m); [|discriminate].
  destruct (Z.ltb_spec m digits); [lia | discriminate].
Qed.

Lemma re_sub_non_digits_all (text : string) :
  all_digits (list_ascii_of_string (re_sub_non_digits text)).
Proof.
  induction text as [|c text IH]; simpl; [constructor|].
  destruct (is_digit c) eqn:Hc; [|exact IH]. simpl. by constructor.
Qed.

(** ** Failure rate *)

Lemma py_truediv_percent (n : Z) :
  0 <= n ->
  (n < 100 * float_overflow ->
     py_truediv n 100 = Ok (inject_Z n / 100)%Q) /\
  (100 * float_overflow <= n -> py_truediv n 100 = Raise OverflowError).
Proof.
  intros Hn. unfold py_truediv. simpl (100 =? 0).
  change (Z.abs 100) with 100. rewrite (Z.abs_eq n) by exact Hn.
  destruct (Z.leb_spec (float_overflow * 100) n); split; intros; lia || done.
Qed.

Lemma failure_rate_of_text_spec (m : Z) (text : string) :
  let digits := list_ascii_of_string (re_sub_non_digits text) in
  let n := decimal_value digits in
  (digits = [] -> failure_rate_of_text m text = Raise ValueError) /\
  (int_limit_exceeded m (Z.of_nat (List.length digits)) = true ->
     failure_rate_of_text m text = Raise ValueError) /\
  (digits <> [] ->
   int_limit_exceeded m (Z.of_nat (List.length digits)) = false ->
     0 <= n /\
     (n < 100 * float_overflow ->
        failure_rate_of_text m text = Ok (inject_Z n / 100)%Q) /\
     (100 * float_overflow <= n ->
        failure_rate_of_text m text = Raise OverflowError)).
Proof.
  cbv zeta. unfold failure_rate_of_text. split; [|split].
  - intros Hnil. rewrite py_int_unfold.
    destruct (re_sub_non_digits text); [reflexivity | discriminate].
  - intros Hlim.
    destruct (py_int_of_digits m _ (re_sub_non_digits_all text)) as [-> _].
    + intros Hnil. rewrite Hnil in Hlim. simpl in Hlim.
      by rewrite int_limit_short in Hlim by lia.
    + by rewrite Hlim.
  - intros Hne Hlim.
    destruct (py_int_of_digits m _ (re_sub_non_digits_all text) Hne)
      as [-> Hpos].
    rewrite Hlim. split; [exact Hpos|]. simpl.
    apply py_truediv_percent, Hpos.
Qed.

Lemma percent_range (n : Z) :
  0 <= n ->
  (0 <= inject_Z n / 100)%Q /\ ((inject_Z n / 100 <= 1)%Q <-> n <= 100).
Proof.
  intros Hn. unfold Qdiv, Qmult, Qinv, Qle, inject_Z. simpl. lia.
Qed.

(** C3, as the code has it. The failure rate is [int(digits) / 100] on the
    decimal digits of the OCR text, with no clamp.  A text without any digit
    raises [ValueError], and so does one with more digits than the
    interpreter's limit on a literal.  Otherwise the digits spell a number
    [n]: below [100 * float_overflow] the result is [n / 100], which is never
    negative and is at most 1 exactly when [n] is at most 100; from
    [100 * float_overflow] on the quotient is out of the range of a float and
    the division raises [OverflowError]. *)
Theorem recognize_failure_rate_of_digits `{Collaborators Image}
    (rp : ResizeProxy) (confirm_position : Vector2) (img : Image) :
  let text :=
    ocr_text (failure_rate_text_img
                (crop img (failure_rate_bbox rp confirm_position))) in
  let digits := list_ascii_of_string (re_sub_non_digits text) in
  let n := decimal_value digits in
  (digits = [] ->
     _recognize_failure_rate rp confirm_position img = Raise ValueError) /\
  (int_limit_exceeded int_max_str_digits (Z.of_nat (List.length digits))
     = true ->
     _recognize_failure_rate rp confirm_position img = Raise ValueError) /\
  (digits <> [] ->
   int_limit_exceeded int_max_str_digits (Z.of_nat (List.length digits))
     = false ->
     0 <= n /\
     (n < 100 * float_overflow ->
        exists rate,
          _recognize_failure_rate rp confirm_position img = Ok rate /\
          rate = (inject_Z n / 100)%Q /\
          (0 <= rate)%Q /\
          ((rate <= 1)%Q <-> n <= 100)) /\
     (100 * float_overflow <= n ->
        _recognize_failure_rate rp confirm_position img
          = Raise OverflowError)).
Proof.
  cbv zeta. unfold _recognize_failure_rate.
  set (text := ocr_text _).
  destruct (failure_rate_of_text_spec int_max_str_digits text)
    as (Hnil & Hlong & Hsome).
  split; [exact Hnil|]. split; [exact Hlong|].
  intros Hne Hlim. destruct (Hsome Hne Hlim) as (Hpos & Hok & Hover).
  split; [exact Hpos|]. split; [|exact Hover].
  intros Hn. rewrite (Hok Hn).
  eexists; split; [reflexivity|]. split; [reflexivity|].
  apply percent_range, Hpos.
Qed.

Lemma recognize_failure_rate_of_digits_witness :
  (exists rate,
     @_recognize_failure_rate _ fixture identity_proxy (268, 850)
       (fun _ => glyphs 0 "" "35%") = Ok rate /\
     rate = (inject_Z 35 / 100)%Q /\ (0 <= rate)%Q /\
     ((rate <= 1)%Q <-> 35 <= 100)) /\
  @_recognize_failure_rate _ fixture identity_proxy (268, 850)
    (fun _ => glyphs 0 "" nines_311) = Raise OverflowError.
Proof.
  split.
  - apply (@recognize_failure_rate_of_digits _ fixture identity_proxy
             (268, 850) (fun _ => glyphs 0 "" "35%"));
      [discriminate | reflexivity | vm_compute; reflexivity].
  - apply (@recognize_failure_rate_of_digits _ fixture identity_proxy
             (268, 850) (fun _ => glyphs 0 "" nines_311));
      [discriminate | reflexivity | vm_compute; discriminate].
Defined.

(** C3 as stated fails: the text "150%" is read as 1.5. *)
Lemma recognize_failure_rate_above_one :
  exists rate,
    @_recognize_failure_rate _ fixture identity_proxy (268, 850)
      (fun _ => glyphs 0 "" "150%") = Ok rate /\
    ~ ((0 <= rate)%Q /\ (rate <= 1)%Q).
Proof.
  exists (inject_Z 150 / 100)%Q. split; [vm_compute; reflexivity|].
  intros [_ Hle]. revert Hle. vm_compute. congruence.
Qed.

(** ** Scenario geometry *)

Lemma geometry_lookup_supported (rp : ResizeProxy) (sc : Scenario) :
  supported sc ->
  (exists groups, _effect_recognitions sc rp = Ok groups) /\
  (exists layout, partner_icon_layout rp sc = Ok layout) /\
  (exists centers, _iter_training_confirm_pos rp sc = Ok centers).
Proof.
  destruct sc; simpl; intros Hs; try contradiction;
    (split; [|split]); eexists; reflexivity.
Qed.

(** C4, as the code has it. For a scenario that is none of the seven named
    ones, the effect-column lookup raises [NotImplementedError] and the
    partner-icon layout lookup raises [KeyError], while the lookup of the
    training-confirm positions returns the layout shared by every scenario
    other than Project L'Arc. *)
Theorem geometry_lookup_unsupported (rp : ResizeProxy) (name : string) :
  _effect_recognitions (SCENARIO_OTHER name) rp = Raise NotImplementedError /\
  partner_icon_layout rp (SCENARIO_OTHER name) = Raise KeyError /\
  _iter_training_confirm_pos rp (SCENARIO_OTHER name)
    = Ok [ vector2 rp (78, 850) 540; vector2 rp (171, 850) 540;
           vector2 rp (268, 850) 540; vector2 rp (367, 850) 540;
           vector2 rp (461, 850) 540 ] /\
  _iter_training_confirm_pos rp (SCENARIO_OTHER name)
    = _iter_training_confirm_pos rp SCENARIO_URA.
Proof. repeat split; reflexivity. Qed.

(** C4 as stated fails: the confirm-position lookup raises nothing for an
    unknown scenario. *)
Lemma confirm_pos_of_unknown_scenario :
  _iter_training_confirm_pos identity_proxy (SCENARIO_OTHER "unknown")
    = Ok [ (78, 850); (171, 850); (268, 850); (367, 850); (461, 850) ] /\
  ~ (exists e, _iter_training_confirm_pos identity_proxy
                 (SCENARIO_OTHER "unknown") = Raise e).
Proof. split; [reflexivity|]. intros [e He]. discriminate He. Qed.

(** ** Effect digits *)









Lemma py_int_error (m : Z) (s : string) (e : exn) :
  py_int m s = Raise e -> e = ValueError.
Proof.
  rewrite py_int_unfold. cbv zeta.
  destruct (int_body _); [|by intros [= <-]].
  destruct (int_limit_exceeded _ _); [by intros [= <-] | discriminate].
Qed.

Lemma effect_text_value_error (m : Z) (text : string) (e : exn) :
  effect_text_value m text = Raise e -> e = ValueError.
Proof. destruct text; [discriminate | apply py_int_error]. Qed.




Lemma hash_sim_total `{Collaborators Image} (text_img : Image) :
  exists sim, hash_sim text_img = Ok sim.
Proof. unfold hash_sim, hash100. simpl. by eexists. Qed.

(** C6, as the code has it. A glyph mask with fewer than 100 foreground
    pixels gives 0 without any OCR call, before its hash is looked at; a mask
    with at least 100 foreground pixels whose similarity to the known "+100"
    hashes exceeds 0.9 gives 100 without any OCR call. *)
Theorem base_effect_shortcuts `{Collaborators Image} (img : Image) :
  let text_img := base_effect_text_img img in
  (countNonZero text_img < 100 -> _recognize_base_effect img = (Ok 0, [])) /\
  (exists sim, hash_sim text_img = Ok sim /\
     (100 <= countNonZero text_img -> (9 # 10 < sim)%Q ->
      _recognize_base_effect img = (Ok 100, []))).
Proof.
  cbv zeta. unfold _recognize_base_effect. split.
  - intros Hlt. apply Z.ltb_lt in Hlt. by rewrite Hlt.
  - destruct (hash_sim_total (base_effect_text_img img)) as [sim Hsim].
    exists sim. split; [exact Hsim|]. intros Hge Hgt.
    apply Z.ltb_ge in Hge. apply Qltb_lt in Hgt.
    by rewrite Hge, Hsim, Hgt.
Qed.

Lemma base_effect_shortcuts_witness :
  @_recognize_base_effect _ fixture sparse_plus100 = (Ok 0, []) /\
  @_recognize_base_effect _ fixture dense_plus100 = (Ok 100, []).
Proof.
  split.
  - apply (@base_effect_shortcuts _ fixture sparse_plus100). by vm_compute.
  - destruct (@base_effect_shortcuts _ fixture dense_plus100)
      as [_ (sim & Hsim & Hhit)].
    apply Hhit; [by vm_compute|].
    injection Hsim as <-. by vm_compute.
Defined.

(** C6 as stated fails: a mask whose hash is a known "+100" hash, but with
    only 50 foreground pixels, gives 0. *)
Lemma base_effect_sparse_hash_match :
  @hash_sim _ fixture sparse_plus100 = Ok 1%Q /\
  (9 # 10 < 1)%Q /\
  @_recognize_base_effect _ fixture sparse_plus100 = (Ok 0, []) /\
  @_recognize_base_effect _ fixture sparse_plus100 <> (Ok 100, []).
Proof. repeat split; try reflexivity. discriminate. Qed.

(** ** Bond level *)

Section BondLevel.
Context `{Collaborators Image}.
Implicit Types (icon_img : Image) (s : list (Vector2 * Color)).

Lemma check_passes_gt icon_img (check : Vector2 * Color) :
  check_passes icon_img check = true <->
  (95 # 100 <
     compare_color_near icon_img (fst check) (reversed (snd check)))%Q.
Proof. destruct check as [pos color]. simpl. apply Qltb_lt. Qed.

Lemma pattern_matches_all icon_img s :
  pattern_matches icon_img s = true <->
  Forall (fun check =>
            (95 # 100 <
               compare_color_near icon_img (fst check)
                 (reversed (snd check)))%Q) s.
Proof.
  unfold pattern_matches. rewrite forallb_forall, List.Forall_forall.
  split; intros Hall check Hin; apply check_passes_gt, Hall, Hin.
Qed.

(** The loop returns the index of the first pattern that matches, counted
    from [level], or -1 when none does. *)
Lemma first_matching_level_cases icon_img (level : Z)
    (spec : list (list (Vector2 * Color))) :
  (exists (n : nat) s,
      spec !! n = Some s /\
      first_matching_level icon_img level spec = level + Z.of_nat n /\
      pattern_matches icon_img s = true /\
      forall (k : nat) s', (k < n)%nat -> spec !! k = Some s' ->
        pattern_matches icon_img s' = false) \/
  (first_matching_level icon_img level spec = -1 /\
   forall s, In s spec -> pattern_matches icon_img s = false).
Proof.
  revert level. induction spec as [|s0 spec IH]; intros level; simpl.
  - right. split; [reflexivity | intros s []].
  - destruct (pattern_matches icon_img s0) eqn:Hs0.
    + left. exists 0%nat, s0. repeat split; [lia | exact Hs0 | lia].
    + destruct (IH (level + 1)) as [(n & s & Hn & Hr & Hm & Hbefore) | [Hr Hnone]].
      * left. exists (S n), s. repeat split; [exact Hn | lia | exact Hm |].
        intros [|k] s' Hk Hs'; simpl in Hs'; [congruence|].
        apply (Hbefore k); [lia | exact Hs'].
      * right. split; [exact Hr|]. intros s [<-|Hin]; [exact Hs0 | by apply Hnone].
Qed.

End BondLevel.

Lemma sqdist_reversed (a b : Color) :
  sqdist (reversed a) (reversed b) = sqdist a b.
Proof. destruct a as [[a0 a1] a2], b as [[b0 b1] b2]. simpl. ring. Qed.

(** Two colours within a squared distance of 488 of a third one are within
    four times that of each other. *)
Lemma sqdist_near (p a b : Color) :
  sqdist p a < 488 -> sqdist p b < 488 -> sqdist a b < 1952.
Proof.
  destruct p as [[p0 p1] p2], a as [[a0 a1] a2], b as [[b0 b1] b2].
  unfold sqdist. intros Ha Hb.
  assert (forall x y z : Z,
            (y - z) * (y - z) <= 2 * ((x - y) * (x - y)) + 2 * ((x - z) * (x - z)))
    as Hpar
    by (intros x y z; pose proof (Z.square_nonneg (2 * x - y - z)); lia).
  pose proof (Hpar p0 a0 b0). pose proof (Hpar p1 a1 b1).
  pose proof (Hpar p2 a2 b2). lia.
Qed.

(** Two different patterns of the table disagree on the colour they expect
    at one of the positions both of them check, and the two colours are far
    apart. *)
Lemma partner_level_spec_conflicts (rp : ResizeProxy) (i j : nat)
    (si sj : list (Vector2 * Color)) :
  i <> j ->
  partner_level_spec rp !! i = Some si ->
  partner_level_spec rp !! j = Some sj ->
  exists pos ci cj,
    In (pos, ci) si /\ In (pos, cj) sj /\ ci <> cj /\ 1952 <= sqdist ci cj.
Proof.
  intros Hij Hi Hj. unfold partner_level_spec in Hi, Hj.
  repeat (destruct i as [|i]; simpl in Hi; try discriminate Hi);
    repeat (destruct j as [|j]; simpl in Hj; try discriminate Hj);
    try (by destruct Hij);
    injection Hi as <-; injection Hj as <-;
    first
      [ exists (vector2 rp (10, 65) 540); do 2 eexists;
        split; [left; reflexivity|]; split; [left; reflexivity|];
        split; [congruence | vm_compute; congruence]
      | exists (vector2 rp (20, 65) 540); do 2 eexists;
        split; [right; left; reflexivity|];
        split; [right; left; reflexivity|];
        split; [congruence | vm_compute; congruence] ].
Qed.

Lemma pattern_matches_in `{Collaborators Image} (icon_img : Image)
    (s : list (Vector2 * Color)) (check : Vector2 * Color) :
  pattern_matches icon_img s = true -> In check s ->
  check_passes icon_img check = true.
Proof. unfold pattern_matches. rewrite forallb_forall. auto. Qed.

(** C8. The table has six patterns, for the levels 0 to 5; a pattern
    matches exactly when each of its checks has a similarity above 0.95; the
    level returned is the index of the first pattern that matches, and -1
    exactly when none does. Any two patterns expect, at a position they
    share, two colours that are far apart, so that on an icon compared
    through the colour of its pixels at most one pattern matches. *)
Theorem partner_level_decision `{Collaborators Image}
    (rp : ResizeProxy) (icon_img : Image) :
  let spec := partner_level_spec rp in
  let level := _recognize_partner_level rp icon_img in
  List.length spec = 6%nat /\
  (forall s, pattern_matches icon_img s = true <->
     Forall (fun check =>
               (95 # 100 <
                  compare_color_near icon_img (fst check)
                    (reversed (snd check)))%Q) s) /\
  (forall (n : nat) s, spec !! n = Some s ->
     (level = Z.of_nat n <->
      pattern_matches icon_img s = true /\
      forall (k : nat) s', (k < n)%nat -> spec !! k = Some s' ->
        pattern_matches icon_img s' = false)) /\
  (level = -1 <->
     forall s, In s spec -> pattern_matches icon_img s = false) /\
  (forall (i j : nat) si sj, i <> j ->
     spec !! i = Some si -> spec !! j = Some sj ->
     exists pos ci cj,
       In (pos, ci) si /\ In (pos, cj) sj /\ ci <> cj /\
       1952 <= sqdist ci cj) /\
  (pixelwise icon_img ->
     (forall (i j : nat) si sj,
        spec !! i = Some si -> spec !! j = Some sj ->
        pattern_matches icon_img si = true ->
        pattern_matches icon_img sj = true -> i = j) /\
     (forall (n : nat) s, spec !! n = Some s ->
        (level = Z.of_nat n <-> pattern_matches icon_img s = true))).
Proof.
  cbv zeta. unfold _recognize_partner_level.
  pose proof (first_matching_level_cases icon_img 0 (partner_level_spec rp))
    as Hcases.
  assert (pixelwise icon_img ->
          forall (i j : nat) si sj,
            partner_level_spec rp !! i = Some si ->
            partner_level_spec rp !! j = Some sj ->
            pattern_matches icon_img si = true ->
            pattern_matches icon_img sj = true -> i = j) as Hexclusive.
  { intros [pixel Hpixel] i j si sj Hi Hj Hmi Hmj.
    destruct (decide (i = j)) as [|Hij]; [assumption|]. exfalso.
    destruct (partner_level_spec_conflicts rp i j si sj Hij Hi Hj)
      as (pos & ci & cj & Hci & Hcj & _ & Hfar).
    pose proof (pattern_matches_in icon_img si (pos, ci) Hmi Hci) as Hpi.
    pose proof (pattern_matches_in icon_img sj (pos, cj) Hmj Hcj) as Hpj.
    apply check_passes_gt in Hpi, Hpj. simpl in Hpi, Hpj.
    apply Hpixel in Hpi, Hpj.
    pose proof (sqdist_near _ _ _ Hpi Hpj) as Hnear.
    rewrite sqdist_reversed in Hnear. lia. }
  assert (forall (n : nat) s, partner_level_spec rp !! n = Some s ->
            (first_matching_level icon_img 0 (partner_level_spec rp)
               = Z.of_nat n <->
             pattern_matches icon_img s = true /\
             forall (k : nat) s', (k < n)%nat ->
               partner_level_spec rp !! k = Some s' ->
               pattern_matches icon_img s' = false)) as Hfirst.
  { intros n s Hn. split.
    + intros Hlevel.
      destruct Hcases as [(n' & s' & Hn' & Hr & Hm & Hbefore) | [Hr _]]; [|lia].
      assert (n' = n) as -> by lia.
      assert (s' = s) as -> by congruence. by split.
    + intros [Hm Hbefore].
      destruct Hcases as [(n' & s' & Hn' & Hr & Hm' & Hbefore') | [_ Hnone]].
      * destruct (Nat.lt_trichotomy n' n) as [Hlt | [-> | Hgt]].
        -- rewrite (Hbefore n' s' Hlt Hn') in Hm'. discriminate.
        -- lia.
        -- rewrite (Hbefore' n s Hgt Hn) in Hm. discriminate.
      * rewrite Hnone in Hm; [discriminate|].
        apply list_elem_of_In. by apply list_elem_of_lookup_2 with n. }
  split; [reflexivity|]. split; [apply pattern_matches_all|].
  split; [exact Hfirst|]. split; [|split].
  - split.
    + intros Hlevel.
      destruct Hcases as [(n' & _ & _ & Hr & _) | [_ Hnone]]; [lia | exact Hnone].
    + intros Hnone.
      destruct Hcases as [(n' & s' & Hn' & _ & Hm & _) | [Hr _]]; [|exact Hr].
      rewrite Hnone in Hm; [discriminate|].
      apply list_elem_of_In. by apply list_elem_of_lookup_2 with n'.
  - apply partner_level_spec_conflicts.
  - intros Hpixel. split; [by apply Hexclusive|].
    intros n s Hn. rewrite (Hfirst n s Hn). split; [tauto|].
    intros Hm. split; [exact Hm|]. intros k s' Hk Hk'.
    destruct (pattern_matches icon_img s') eqn:Hm'; [|reflexivity].
    pose proof (Hexclusive Hpixel k n s' s Hk' Hn Hm' Hm). lia.
Qed.

Lemma worn_icon_pixelwise : @pixelwise _ fixture worn_icon.
Proof.
  exists (fun _ => (120, 107, 110)). intros pos [[c0 c1] c2].
  unfold compare_color_near, fixture, worn_icon, shaded, seen_near.
  set (d := sqdist (120, 107, 110) (c0, c1, c2)).
  unfold Qlt, Qminus, Qplus, Qopp, Qdiv, Qmult, Qinv, inject_Z. simpl.
  lia.
Qed.

Lemma partner_level_decision_witness :
  @_recognize_partner_level _ fixture identity_proxy worn_icon = 0 /\
  @check_passes _ fixture worn_icon ((10, 65), (109, 108, 119)) = true /\
  @check_passes _ fixture worn_icon ((10, 65), (110, 107, 120)) = true /\
  forall (i j : nat) si sj,
    partner_level_spec identity_proxy !! i = Some si ->
    partner_level_spec identity_proxy !! j = Some sj ->
    @pattern_matches _ fixture worn_icon si = true ->
    @pattern_matches _ fixture worn_icon sj = true -> i = j.
Proof.
  destruct (@partner_level_decision _ fixture identity_proxy worn_icon)
    as (_ & _ & Hfirst & _ & _ & Hexclusive).
  split; [|split; [|split]].
  - eapply (Hfirst 0%nat); [reflexivity|].
    split; [vm_compute; reflexivity | intros k s' Hk; lia].
  - vm_compute. reflexivity.
  - vm_compute. reflexivity.
  - apply (Hexclusive worn_icon_pixelwise).
Defined.

(** ** Partner icons *)

Section PartnerIcon.
Context `{Collaborators Image}.

Lemma partner_marks_outside_aoharu (sc : Scenario) (img : Image)
    (bbox : Vector4) :
  sc <> SCENARIO_AOHARU -> partner_marks sc img bbox = ((-1 # 1)%Q, false, false).
Proof. intros Hsc. unfold partner_marks. by case_decide. Qed.

Lemma partner_marks_burst (sc : Scenario) (img : Image) (bbox : Vector4)
    (soul : Q) (has_training : bool) :
  partner_marks sc img bbox = (soul, has_training, true) ->
  soul = 1%Q /\ has_training = true.
Proof.
  unfold partner_marks. destruct (decide (sc = SCENARIO_AOHARU)) as [_|_].
  - destruct (_recognize_has_soul_burst _ _ _).
    + by intros [= <- <-].
    + intros Hmarks. by injection Hmarks.
  - intros Hmarks. by injection Hmarks.
Qed.

Lemma partner_icon_none (sc : Scenario) (img : Image) (bbox : Vector4) :
  _recognize_partner_icon sc img bbox = None <->
  _recognize_partner_level (resize_proxy_of (width img)) (crop img bbox) < 0 /\
  (fst (fst (partner_marks sc img bbox)) < 0)%Q.
Proof.
  unfold _recognize_partner_icon.
  destruct (partner_marks sc img bbox) as [[soul has_training] has_soul_burst].
  simpl fst.
  destruct (_ <? 0) eqn:Hlevel; destruct (Qltb soul 0) eqn:Hsoul; simpl;
    rewrite <- Z.ltb_lt, <- Qltb_lt, Hlevel, Hsoul; split;
    (done || (intros [? ?]; done)).
Qed.

(** Once the icon [k] rows down yields nothing, the loop returns: it has
    yielded partners of the icons above only, and all [k] of them when the
    loop condition holds. *)
Lemma partner_icons_loop_stops (sc : Scenario) (img : Image)
    (icon_y_offset icons_bottom : Z) (k : nat) :
  forall (fuel : nat) (icon_bbox : Vector4),
    (forall i, (i < k)%nat ->
       _recognize_partner_icon sc img
         (nth_icon_bbox icon_bbox icon_y_offset i) <> None) ->
    _recognize_partner_icon sc img
      (nth_icon_bbox icon_bbox icon_y_offset k) = None ->
    (k < fuel)%nat ->
    exists ps,
      partner_icons_loop fuel sc img icon_bbox icon_y_offset icons_bottom
        = Some ps /\
      (forall (i : nat) p, ps !! i = Some p ->
         _recognize_partner_icon sc img
           (nth_icon_bbox icon_bbox icon_y_offset i) = Some p) /\
      (snd (fst icon_bbox) < icons_bottom -> List.length ps = k).
Proof.
  induction k as [|k IH]; intros [|fuel] [[[b0 b1] b2] b3] Hsome Hnone Hfuel;
    try lia; simpl partner_icons_loop; simpl snd;
    destruct (Z.ltb_spec b2 icons_bottom) as [Hguard|Hguard];
    try (exists []; split; [reflexivity|];
         split; [intros i p Hi; discriminate Hi | intros; simpl; lia]).
  - simpl in Hnone. rewrite Hnone.
    exists []. split; [reflexivity|].
    split; [intros i p Hi; discriminate Hi | reflexivity].
  - assert (0 < S k)%nat as Hfirst by lia.
    apply Hsome in Hfirst. simpl in Hfirst.
    destruct (_recognize_partner_icon sc img (b0, b1, b2, b3)) as [v|] eqn:Hv;
      [|done].
    destruct (IH fuel (next_icon_bbox (b0, b1, b2, b3) icon_y_offset))
      as (ps & Hloop & Hlookup & Hlen).
    + intros i Hi. apply (Hsome (S i)). lia.
    + exact Hnone.
    + lia.
    + simpl in Hloop. simpl. rewrite Hloop. simpl.
      exists (v :: ps). repeat split.
      * intros [|i] p Hi; simpl in Hi |- *; [congruence|]. by apply Hlookup.
      * intros _. simpl. f_equal. by apply Hlen.
Qed.

End PartnerIcon.

(** C9. Partner-icon recognition returns nothing exactly when the bond
    level and the bond ratio it recognised are both negative, and a partner
    carrying that level otherwise. In the icon column, the first icon that
    returns nothing ends the enumeration with an ordinary result: the
    partners of the icons above it, and no exception. *)
Theorem partner_icon_none_iff `{Collaborators Image}
    (sc : Scenario) (img : Image) (bbox : Vector4) :
  let rp := resize_proxy_of (width img) in
  let level := _recognize_partner_level rp (crop img bbox) in
  let soul := fst (fst (partner_marks sc img bbox)) in
  (_recognize_partner_icon sc img bbox = None <->
     level < 0 /\ (soul < 0)%Q) /\
  (~ (level < 0 /\ (soul < 0)%Q) ->
     exists p, _recognize_partner_icon sc img bbox = Some p /\
               Partner.level p = level) /\
  (forall (k fuel : nat) (icon_bbox : Vector4) (icon_y_offset : Z),
     partner_icon_layout rp sc = Ok (icon_bbox, icon_y_offset) ->
     (forall i, (i < k)%nat ->
        _recognize_partner_icon sc img
          (nth_icon_bbox icon_bbox icon_y_offset i) <> None) ->
     _recognize_partner_icon sc img
       (nth_icon_bbox icon_bbox icon_y_offset k) = None ->
     (k < fuel)%nat ->
     exists ps,
       _recognize_partners fuel sc img = Ok (Some ps) /\
       (forall (i : nat) p, ps !! i = Some p ->
          _recognize_partner_icon sc img
            (nth_icon_bbox icon_bbox icon_y_offset i) = Some p) /\
       (snd (fst icon_bbox) < vector rp 578 540 -> List.length ps = k)).
Proof.
  cbv zeta. split; [apply partner_icon_none|]. split.
  - intros Hnot. rewrite <- partner_icon_none in Hnot.
    destruct (_recognize_partner_icon sc img bbox) as [p|] eqn:Hp; [|done].
    exists p. split; [reflexivity|].
    unfold _recognize_partner_icon in Hp.
    destruct (partner_marks sc img bbox) as [[soul ht] hsb].
    destruct (_ && _); [discriminate|]. by injection Hp as <-.
  - intros k fuel icon_bbox icon_y_offset Hlayout Hsome Hnone Hfuel.
    unfold _recognize_partners. rewrite Hlayout. simpl.
    destruct (partner_icons_loop_stops sc img icon_y_offset
                (vector (resize_proxy_of (width img)) 578 540)
                k fuel icon_bbox Hsome Hnone Hfuel) as (ps & -> & Hps).
    by exists ps.
Qed.

Lemma partner_icon_none_iff_witness :
  exists ps,
    @_recognize_partners _ fixture 8 SCENARIO_URA one_partner_column
      = Ok (Some ps) /\
    (forall (i : nat) p, ps !! i = Some p ->
       @_recognize_partner_icon _ fixture SCENARIO_URA one_partner_column
         (nth_icon_bbox (448, 146, 516, 220) 90 i) = Some p) /\
    (516 < 578 -> List.length ps = 1%nat).
Proof.
  apply (@partner_icon_none_iff _ fixture SCENARIO_URA one_partner_column
           (448, 146, 516, 220)).
  - reflexivity.
  - intros i Hi. assert (i = 0%nat) as -> by lia. by vm_compute.
  - by vm_compute.
  - lia.
Defined.

(** C10. A partner with the soul-burst flag also has the training flag and
    a bond ratio of exactly 1; outside the Aoharu scenario every partner has
    both flags off and a bond ratio of -1. *)
Theorem partner_icon_flags `{Collaborators Image}
    (sc : Scenario) (img : Image) (bbox : Vector4) (p : Partner.t) :
  _recognize_partner_icon sc img bbox = Some p ->
  (Partner.has_soul_burst p = true ->
     Partner.has_training p = true /\ Partner.soul p = 1%Q) /\
  (sc <> SCENARIO_AOHARU ->
     Partner.has_soul_burst p = false /\ Partner.has_training p = false /\
     Partner.soul p = (-1 # 1)%Q).
Proof.
  unfold _recognize_partner_icon.
  destruct (partner_marks sc img bbox) as [[soul ht] hsb] eqn:Hmarks.
  destruct (_ && _); [discriminate|]. intros [= <-]. simpl. split.
  - intros ->. by split.
  - intros Hsc. rewrite partner_marks_outside_aoharu in Hmarks by exact Hsc.
    by injection Hmarks as <- <- <-.
Qed.

Lemma partner_icon_flags_witness :
  exists p,
    @_recognize_partner_icon _ fixture SCENARIO_AOHARU (fun _ => marked)
      (448, 147, 516, 220) = Some p /\
    Partner.has_training p = true /\ Partner.soul p = 1%Q.
Proof.
  eexists. split; [reflexivity|].
  apply (@partner_icon_flags _ fixture SCENARIO_AOHARU (fun _ => marked)
           (448, 147, 516, 220)); reflexivity.
Defined.

(** ** The orchestrator *)

Lemma size_list_to_set_le (l : list Z) :
  (size (list_to_set l : gset Z) <= List.length l)%nat.
Proof.
  induction l as [|x l IH].
  - rewrite list_to_set_nil, size_empty. reflexivity.
  - rewrite list_to_set_cons, size_union_alt, size_singleton. simpl.
    pose proof (subseteq_size (list_to_set l ∖ {[x]}) (list_to_set l : gset Z)
                  ltac:(set_solver)).
    lia.
Qed.

(** The size of [set(types)] is the length of [types] exactly when no type
    occurs twice. *)
Lemma size_list_to_set_NoDup (l : list Z) :
  size (list_to_set l : gset Z) = List.length l <-> NoDup l.
Proof.
  split; [|apply size_list_to_set].
  induction l as [|x l IH]; intros Hsize; [constructor|].
  pose proof (size_list_to_set_le l) as Hle.
  rewrite list_to_set_cons, size_union_alt, size_singleton in Hsize.
  simpl in Hsize.
  destruct (decide (x ∈ l)) as [Hin|Hnotin].
  - exfalso.
    assert (size (list_to_set l ∖ {[x]} : gset Z)
            < size (list_to_set l : gset Z))%nat; [|lia].
    apply subset_size. set_solver.
  - constructor; [exact Hnotin|]. apply IH.
    assert (list_to_set l ∖ {[x]} = (list_to_set l : gset Z)) as Heq
      by set_solver.
    rewrite Heq in Hsize. lia.
Qed.

Lemma types_all_distinct_NoDup (ts : list Training.t) :
  types_all_distinct ts = true <-> NoDup (map Training.type ts).
Proof.
  unfold types_all_distinct. rewrite bool_decide_eq_true.
  rewrite <- size_list_to_set_NoDup. by rewrite length_map.
Qed.

(** C1, as the code has it. When [recognize_v2] completes, the trainings it
    leaves in the context and in the scene are the gathered results and
    their types are pairwise distinct (as many members in the set of types as
    trainings). When two gathered slots report the same type it raises the
    assertion error and the context is left as it was; the scene is not: its
    attribute [trainings], assigned before the assertion, holds the gathered
    results with their repeated type. *)
Theorem recognize_v2_distinct_types (futs : list (result Training.t))
    (self : TrainingScene) (ctx : SingleModeContext) :
  let outcome := fst (recognize_v2 futs self ctx) in
  let self' := fst (snd (recognize_v2 futs self ctx)) in
  let ctx' := snd (snd (recognize_v2 futs self ctx)) in
  (outcome = Ok tt ->
     gather futs = Ok (trainings ctx') /\
     scene_trainings self' = trainings ctx' /\
     NoDup (map Training.type (trainings ctx')) /\
     size (list_to_set (map Training.type (trainings ctx')) : gset Z)
       = List.length (trainings ctx')) /\
  (forall ts, gather futs = Ok ts -> ~ NoDup (map Training.type ts) ->
     outcome = Raise AssertionError /\ ctx' = ctx /\
     scene_trainings self' = ts).
Proof.
  cbv zeta. unfold recognize_v2.
  destruct (gather futs) as [ts|e]; simpl.
  - destruct (types_all_distinct ts) eqn:Hd; simpl.
    + apply types_all_distinct_NoDup in Hd. split.
      * intros _.
        assert (trainings
                  (if negb (is_summer_camp ctx) then
                     {| scenario := scenario ctx;
                        max_vitality := max_vitality ctx;
                        is_summer_camp := is_summer_camp ctx;
                        trainings := ts;
                        training_levels := levels_by_type ts |}
                   else
                     {| scenario := scenario ctx;
                        max_vitality := max_vitality ctx;
                        is_summer_camp := is_summer_camp ctx;
                        trainings := ts;
                        training_levels := training_levels ctx |}) = ts)
          as -> by (by destruct (is_summer_camp ctx)).
        split; [reflexivity|]. split; [reflexivity|]. split; [exact Hd|].
        rewrite <- (length_map Training.type ts).
        by apply size_list_to_set_NoDup.
      * intros ts' [= <-] Hdup. by destruct Hdup.
    + split; [discriminate|]. by intros ts' [= <-] _.
  - split; [discriminate|]. intros ts' Hts'. discriminate Hts'.
Qed.

Lemma recognize_v2_distinct_types_witness :
  fst (recognize_v2 [Ok (training_of 1 3); Ok (training_of 1 2)]
         empty_scene fresh_context) = Raise AssertionError /\
  snd (snd (recognize_v2 [Ok (training_of 1 3); Ok (training_of 1 2)]
              empty_scene fresh_context)) = fresh_context /\
  scene_trainings
    (fst (snd (recognize_v2 [Ok (training_of 1 3); Ok (training_of 1 2)]
                 empty_scene fresh_context)))
    = [training_of 1 3; training_of 1 2].
Proof.
  destruct (recognize_v2_distinct_types
              [Ok (training_of 1 3); Ok (training_of 1 2)]
              empty_scene fresh_context) as [_ Hdup].
  apply (Hdup [training_of 1 3; training_of 1 2]).
  - reflexivity.
  - simpl. rewrite NoDup_cons. intros [Hnotin _]. apply Hnotin. by left.
Defined.

(** C1 as stated fails: two slots that report the same type raise the
    assertion error, and the scene, which held no training before the call,
    exposes both of them after it. *)
Lemma recognize_v2_scene_holds_duplicates :
  fst (recognize_v2 [Ok (training_of 1 3); Ok (training_of 1 2)]
         empty_scene fresh_context) = Raise AssertionError /\
  scene_trainings empty_scene = [] /\
  scene_trainings
    (fst (snd (recognize_v2 [Ok (training_of 1 3); Ok (training_of 1 2)]
                 empty_scene fresh_context)))
    = [training_of 1 3; training_of 1 2] /\
  ~ NoDup
      (map Training.type
         (scene_trainings
            (fst (snd (recognize_v2
                         [Ok (training_of 1 3); Ok (training_of 1 2)]
                         empty_scene fresh_context))))).
Proof.
  split; [reflexivity|]. split; [reflexivity|]. split; [reflexivity|].
  change (~ NoDup (map Training.type [training_of 1 3; training_of 1 2])).
  simpl. rewrite NoDup_cons. intros [Hnotin _]. apply Hnotin. by left.
Qed.

(** The scene's own attribute is assigned before the assertion: after a
    failed assertion it holds the gathered list, the context does not. *)
Remark recognize_v2_scene_assigned_first (futs : list (result Training.t))
    (self : TrainingScene) (ctx : SingleModeContext) (ts : list Training.t) :
  gather futs = Ok ts ->
  scene_trainings (fst (snd (recognize_v2 futs self ctx))) = ts.
Proof.
  intros Hts. unfold recognize_v2. rewrite Hts.
  by destruct (types_all_distinct ts).
Qed.

(** * Properties of the rest of the module *)

(** ** Gradient tables *)

Lemma linspace_rows (start stop : QColor) (num : Z) :
  0 <= num ->
  exists rows, linspace start stop num = Ok rows /\
    List.length rows = Z.to_nat num /\
    (2 <= num -> rows !! Z.to_nat (num - 1) = Some stop).
Proof.
  intros Hnum. unfold linspace.
  destruct (Z.ltb_spec num 0) as [|_]; [lia|].
  eexists. split; [reflexivity|]. split.
  - by rewrite length_map, length_seq.
  - intros H2. rewrite list_lookup_fmap.
    rewrite lookup_seq_lt by lia. simpl.
    unfold linspace_row. rewrite Z2Nat.id by lia.
    destruct (Z.ltb_spec 1 num); [|lia]. by rewrite Z.eqb_refl.
Qed.

Lemma linspace_negative (start stop : QColor) (num : Z) :
  num < 0 -> linspace start stop num = Raise ValueError.
Proof.
  intros Hnum. unfold linspace. by destruct (Z.ltb_spec num 0); [|lia].
Qed.

Lemma length_tail_rows (rows : list QColor) (num : Z) :
  0 <= num -> List.length rows = Z.to_nat num ->
  Z.of_nat (List.length (tail rows)) = Z.max 0 (num - 1).
Proof. intros Hnum Hlen. destruct rows; simpl in *; lia. Qed.

Lemma tail_last_row (rows : list QColor) (num : Z) (stop : QColor) :
  2 <= num -> rows !! Z.to_nat (num - 1) = Some stop ->
  tail rows !! Z.to_nat (num - 2) = Some stop.
Proof.
  intros Hnum. destruct rows as [|r rows]; [done|].
  replace (Z.to_nat (num - 1)) with (S (Z.to_nat (num - 2))) by lia. done.
Qed.

Lemma last_cons_default (x : Z) (l : list Z) (d d' : Z) :
  List.last (x :: l) d = List.last (x :: l) d'.
Proof.
  revert x. induction l as [|y l IH]; intros x; [reflexivity|].
  change (List.last (y :: l) d = List.last (y :: l) d'). apply IH.
Qed.

(** What the loop does to [ret] when the stops ahead never decrease: it
    only appends, one row per unit of stop, and each segment that advances
    ends on its colour. *)
Lemma gradient_loop_rows (rest : list (Color * Z)) :
  forall (prev : Color * Z) (ret : list QColor),
    ascending_from (snd prev) (stops rest) ->
    Z.of_nat (List.length ret) = snd prev ->
    exists ext,
      gradient_loop prev rest ret = Ok (ret ++ ext) /\
      Z.of_nat (List.length (ret ++ ext)) = List.last (stops rest) (snd prev) /\
      forall (i : nat) pc ps c s,
        (prev :: rest) !! i = Some (pc, ps) -> rest !! i = Some (c, s) ->
        ps < s -> (ret ++ ext) !! Z.to_nat (s - 1) = Some (qcolor c).
Proof.
  induction rest as [|[color stop] rest IH]; intros [prev_color prev_stop] ret;
    simpl; intros Hasc Hlen.
  - exists []. rewrite app_nil_r. split; [reflexivity|]. split; [exact Hlen|].
    intros i pc ps c s _ Hi. by rewrite lookup_nil in Hi.
  - destruct Hasc as [Hle Hasc].
    destruct (linspace_rows (qcolor prev_color) (qcolor color)
                (stop - prev_stop + 1)) as (g & -> & Hg & Hlast); [lia|].
    simpl.
    pose proof (length_tail_rows g (stop - prev_stop + 1) ltac:(lia) Hg)
      as Htail.
    destruct (IH (color, stop) (ret ++ tail g)) as (ext & -> & Hlen' & Hrows).
    + exact Hasc.
    + rewrite length_app. simpl. lia.
    + exists (tail g ++ ext). rewrite !app_assoc in *. split; [reflexivity|].
      split.
      * rewrite Hlen'. simpl snd. unfold stops. simpl map.
        destruct (map snd rest) as [|z l]; [reflexivity|].
        change (List.last (z :: l) stop = List.last (z :: l) prev_stop).
        apply last_cons_default.
      * intros [|i] pc ps c s Hprev Hcur Hlt; simpl in Hprev, Hcur.
        -- injection Hprev as <- <-. injection Hcur as <- <-.
           rewrite lookup_app_l
             by (rewrite length_app; lia).
           rewrite lookup_app_r by lia.
           replace (Z.to_nat (stop - 1) - List.length ret)%nat
             with (Z.to_nat (stop - prev_stop + 1 - 2)) by lia.
           apply (tail_last_row g (stop - prev_stop + 1)); [lia|].
           apply Hlast. lia.
        -- by apply (Hrows i pc ps).
Qed.

(** X1. A table whose first stop is not negative and whose stops never
    decrease gives as many rows as its last stop, and the last row of every
    segment that advances is exactly the colour of its stop. *)
Theorem gradient_rows (color0 : Color) (stop0 : Z) (rest : list (Color * Z)) :
  0 <= stop0 -> ascending_from stop0 (stops rest) ->
  exists rows,
    _gradient ((color0, stop0) :: rest) = Ok rows /\
    Z.of_nat (List.length rows) = List.last (stops rest) stop0 /\
    forall (i : nat) pc ps c s,
      ((color0, stop0) :: rest) !! i = Some (pc, ps) ->
      rest !! i = Some (c, s) ->
      ps < s -> rows !! Z.to_nat (s - 1) = Some (qcolor c).
Proof.
  intros H0 Hasc. unfold _gradient.
  destruct (linspace_rows (qcolor (0, 0, 0)) (qcolor color0) stop0 H0)
    as (ret & -> & Hret & _). simpl.
  destruct (gradient_loop_rows rest (color0, stop0) ret Hasc) as (ext & Hext).
  - simpl. lia.
  - exists (ret ++ ext). exact Hext.
Qed.

Lemma gradient_rows_witness :
  exists rows,
    _gradient [ ((129, 211, 255), 0); ((126, 188, 255), 24);
                ((82, 134, 255), 36); ((36, 62, 211), 48) ] = Ok rows /\
    Z.of_nat (List.length rows) = 48 /\
    forall (i : nat) pc ps c s,
      [ ((129, 211, 255), 0); ((126, 188, 255), 24);
        ((82, 134, 255), 36); ((36, 62, 211), 48) ] !! i = Some (pc, ps) ->
      [ ((126, 188, 255), 24); ((82, 134, 255), 36); ((36, 62, 211), 48) ]
        !! i = Some (c, s) ->
      ps < s -> rows !! Z.to_nat (s - 1) = Some (qcolor c).
Proof.
  apply (gradient_rows (129, 211, 255) 0
           [ ((126, 188, 255), 24); ((82, 134, 255), 36);
             ((36, 62, 211), 48) ]).
  - lia.
  - simpl. lia.
Defined.

Lemma big_drop_cons (prev cur : Color * Z) (rest : list (Color * Z)) :
  big_drop (prev :: cur :: rest) <->
  snd cur < snd prev - 1 \/ big_drop (cur :: rest).
Proof.
  split.
  - intros ([|i] & pc & ps & c & s & Hi & Hsi & Hlt); simpl in Hi, Hsi.
    + left. injection Hi as ->. injection Hsi as ->. exact Hlt.
    + right. by exists i, pc, ps, c, s.
  - intros [Hlt | (i & pc & ps & c & s & Hi & Hsi & Hlt)].
    + destruct prev as [pc ps], cur as [c s]. by exists 0%nat, pc, ps, c, s.
    + by exists (S i), pc, ps, c, s.
Qed.

Lemma big_drop_single (prev : Color * Z) : ~ big_drop [prev].
Proof. intros (i & pc & ps & c & s & _ & Hsi & _). by destruct i. Qed.

Lemma gradient_loop_failure (rest : list (Color * Z)) :
  forall (prev : Color * Z) (ret : list QColor),
    (forall e, gradient_loop prev rest ret = Raise e -> e = ValueError) /\
    (gradient_loop prev rest ret = Raise ValueError <-> big_drop (prev :: rest)).
Proof.
  induction rest as [|[color stop] rest IH]; intros [prev_color prev_stop] ret.
  - simpl. split; [discriminate|]. split; [discriminate|].
    intros Hd. by apply big_drop_single in Hd.
  - rewrite big_drop_cons. simpl.
    destruct (Z.lt_ge_cases (stop - prev_stop + 1) 0) as [Hneg|Hpos].
    + rewrite linspace_negative by exact Hneg. simpl.
      split; [by intros e [= <-]|]. split; [intros _; left; lia | done].
    + destruct (linspace_rows (qcolor prev_color) (qcolor color)
                  (stop - prev_stop + 1) Hpos) as (g & -> & _). simpl.
      destruct (IH (color, stop) (ret ++ tail g)) as [Honly Hiff].
      split; [exact Honly|]. rewrite Hiff. split; [by right|].
      intros [Hlt|Hd]; [lia | exact Hd].
Qed.

(** X2. An empty table raises [IndexError]. Any other table fails exactly
    when its first stop is negative or some stop is lower than the one before
    it by two or more, and always with the [ValueError] of [np.linspace];
    otherwise it returns rows. *)
Theorem gradient_failure (color0 : Color) (stop0 : Z)
    (rest : list (Color * Z)) :
  _gradient [] = Raise IndexError /\
  (forall e, _gradient ((color0, stop0) :: rest) = Raise e -> e = ValueError) /\
  (_gradient ((color0, stop0) :: rest) = Raise ValueError <->
     stop0 < 0 \/ big_drop ((color0, stop0) :: rest)).
Proof.
  split; [reflexivity|]. unfold _gradient.
  destruct (Z.lt_ge_cases stop0 0) as [Hneg|Hpos].
  - rewrite linspace_negative by exact Hneg. simpl.
    split; [by intros e [= <-]|]. split; [by left | done].
  - destruct (linspace_rows (qcolor (0, 0, 0)) (qcolor color0) stop0 Hpos)
      as (ret & -> & _). simpl.
    destruct (gradient_loop_failure rest (color0, stop0) ret) as [Honly Hiff].
    split; [exact Honly|]. rewrite Hiff. split; [by right|].
    intros [Hlt|Hd]; [lia | exact Hd].
Qed.

(** ** Training level *)

Lemma recognize_level_range (compare_color : Color -> Color -> Q)
    (rgb_color : Color) (l : Z) :
  _recognize_level compare_color rgb_color = Ok l -> 1 <= l <= 5.
Proof.
  unfold _recognize_level. repeat destruct (Qltb _ _); intros [= <-]; lia.
Qed.

Lemma recognize_level_error (compare_color : Color -> Color -> Q)
    (rgb_color : Color) (e : exn) :
  _recognize_level compare_color rgb_color = Raise e -> e = ValueError.
Proof.
  unfold _recognize_level. repeat destruct (Qltb _ _); by intros [= <-].
Qed.

(** X3. The level is the position, counted from 1, of the first of the five
    level colours whose similarity to the pixel exceeds 0.9; when none does
    the call raises [ValueError]; a level returned is always between 1 and
    5. *)
Theorem recognize_level_cases (compare_color : Color -> Color -> Q)
    (rgb_color : Color) :
  (forall (n : nat) c,
     level_colors !! n = Some c ->
     (9 # 10 < compare_color c rgb_color)%Q ->
     (forall (k : nat) c', (k < n)%nat -> level_colors !! k = Some c' ->
        ~ (9 # 10 < compare_color c' rgb_color)%Q) ->
     _recognize_level compare_color rgb_color = Ok (Z.of_nat n + 1)) /\
  ((forall c, In c level_colors -> ~ (9 # 10 < compare_color c rgb_color)%Q) ->
     _recognize_level compare_color rgb_color = Raise ValueError) /\
  (forall l, _recognize_level compare_color rgb_color = Ok l -> 1 <= l <= 5) /\
  (forall e, _recognize_level compare_color rgb_color = Raise e ->
     e = ValueError).
Proof.
  assert (forall c, ~ (9 # 10 < compare_color c rgb_color)%Q ->
            Qltb (9 # 10) (compare_color c rgb_color) = false) as Hfail.
  { intros c Hc. destruct (Qltb _ _) eqn:Hb; [|reflexivity].
    by apply Qltb_lt in Hb. }
  split; [|split; [|split]].
  - intros n c Hn Hpass Hbefore. unfold _recognize_level.
    apply Qltb_lt in Hpass.
    assert (n < 5)%nat as Hlt by (by apply lookup_lt_Some in Hn).
    assert (n = 0 \/ n = 1 \/ n = 2 \/ n = 3 \/ n = 4)%nat
      as [-> | [-> | [-> | [-> | ->]]]] by lia;
      injection Hn as <-;
      repeat (rewrite Hfail
                by (first [ apply (Hbefore 0%nat); [lia | reflexivity]
                          | apply (Hbefore 1%nat); [lia | reflexivity]
                          | apply (Hbefore 2%nat); [lia | reflexivity]
                          | apply (Hbefore 3%nat); [lia | reflexivity] ]));
      rewrite Hpass; reflexivity.
  - intros Hnone. unfold _recognize_level.
    rewrite !Hfail; [reflexivity| | | | |]; apply Hnone; simpl; tauto.
  - apply recognize_level_range.
  - apply recognize_level_error.
Qed.

Lemma recognize_level_cases_witness :
  _recognize_level
    (fun a b => if decide (a = b) then 1%Q else 0%Q) (255, 134, 0) = Ok 3.
Proof.
  destruct (recognize_level_cases
              (fun a b => if decide (a = b) then 1%Q else 0%Q) (255, 134, 0))
    as [Hfirst _].
  apply (Hfirst 2%nat (255, 134, 0)).
  - reflexivity.
  - reflexivity.
  - intros k c' Hk Hc'.
    assert (k = 0%nat \/ k = 1%nat) as [-> | ->] by lia;
      injection Hc' as <-; discriminate.
Defined.

(** ** Slot capture *)

Section SlotCapture.
Context {Image : Type} (dev : Device Image).
Context (distance : Vector2 -> Vector2 -> Q) (rp : ResizeProxy).
Context (first_confirm_pos : Vector2) (radius : Z).

(** What the loop keeps: the positions it yields are new and pairwise
    distinct, it only adds taps, one at most per centre and only on centres
    that are not within the radius, and it yields at most once per tap. *)
Lemma training_images_loop_inv (centers : list Vector2) :
  forall (taps : list Vector4) (seen : gset Vector2),
    exists yielded new_taps,
      training_images_loop dev distance rp first_confirm_pos radius centers
        taps seen = (yielded, taps ++ new_taps) /\
      NoDup (map snd yielded) /\
      (forall p, In p (map snd yielded) -> p ∉ seen) /\
      (List.length yielded <= List.length new_taps)%nat /\
      (List.length new_taps <= List.length centers)%nat /\
      (forall r, In r new_taps ->
         exists pos, In pos centers /\ r = tap_rect rp pos /\
           (inject_Z radius <= distance first_confirm_pos pos)%Q).
Proof.
  induction centers as [|pos centers IH]; intros taps seen; simpl.
  - exists [], []. rewrite app_nil_r. repeat split; try constructor; try done.
  - destruct (Qltb _ _) eqn:Hnear.
    + destruct (IH taps seen) as (ys & new & -> & Hnd & Hnew & Hlen & Hle & Htap).
      exists ys, new. repeat split; try done; [lia|].
      intros r Hr. destruct (Htap r Hr) as (p & Hp & Hrest). exists p. tauto.
    + apply Qltb_ge in Hnear.
      set (taps1 := taps ++ [tap_rect rp pos]).
      destruct (decide (wait_image dev taps1 ∈ seen)) as [Hseen|Hfresh].
      * destruct (IH taps1 seen)
          as (ys & new & -> & Hnd & Hnew & Hlen & Hle & Htap).
        exists ys, (tap_rect rp pos :: new). unfold taps1.
        rewrite <- app_assoc. simpl. repeat split; try done; [lia | lia |].
        intros r [<- | Hr]; [exists pos; tauto|].
        destruct (Htap r Hr) as (p & Hp & Hrest). exists p. tauto.
      * destruct (IH taps1 ({[wait_image dev taps1]} ∪ seen))
          as (ys & new & -> & Hnd & Hnew & Hlen & Hle & Htap).
        exists ((screenshot dev taps1, wait_image dev taps1) :: ys),
               (tap_rect rp pos :: new). unfold taps1.
        rewrite <- app_assoc. simpl. repeat split; [| | lia | lia |].
        -- apply NoDup_cons. split; [|exact Hnd].
           intros Hin. apply list_elem_of_In in Hin.
           apply Hnew in Hin. set_solver.
        -- intros p [<- | Hp]; [exact Hfresh|].
           apply Hnew in Hp. set_solver.
        -- intros r [<- | Hr]; [exists pos; tauto|].
           destruct (Htap r Hr) as (p & Hp & Hrest). exists p. tauto.
Qed.

End SlotCapture.

(** X4. A full capture pass always returns: its first pair is the slot
    selected on entry, the confirm positions of the pairs are pairwise
    distinct, and there are at most six pairs, never more than one per tap
    after the first. *)
Theorem iter_training_images_distinct {Image : Type} (dev : Device Image)
    (distance : Vector2 -> Vector2 -> Q) (rp : ResizeProxy) (sc : Scenario) :
  exists yielded taps,
    _iter_training_images dev distance rp sc false
      = Ok ((screenshot dev [], wait_image dev []) :: yielded, taps) /\
    NoDup (wait_image dev [] :: map snd yielded) /\
    (List.length yielded <= List.length taps)%nat /\
    (List.length taps <= 5)%nat.
Proof.
  unfold _iter_training_images.
  assert (exists centers, _iter_training_confirm_pos rp sc = Ok centers /\
                          List.length centers = 5%nat) as (centers & -> & Hfive).
  { unfold _iter_training_confirm_pos. case_decide; by eexists. }
  simpl.
  destruct (training_images_loop_inv dev distance rp (wait_image dev [])
              (vector rp 30 540) centers [] {[wait_image dev []]})
    as (ys & new & -> & Hnd & Hnew & Hlen & Hle & _).
  exists ys, new. simpl. repeat split; [| exact Hlen | lia].
  apply NoDup_cons. split; [|exact Hnd].
  intros Hin. apply list_elem_of_In, Hnew in Hin. set_solver.
Qed.

(** X5. With [static] set the pass yields the slot selected on entry and
    taps nothing. Otherwise every tap is the tap rectangle of one of the
    scenario's five slot centres, and never of a centre closer to the first
    confirm marker than the radius [rp.vector(30, 540)]. *)
Theorem iter_training_images_taps {Image : Type} (dev : Device Image)
    (distance : Vector2 -> Vector2 -> Q) (rp : ResizeProxy) (sc : Scenario) :
  _iter_training_images dev distance rp sc true
    = Ok ([(screenshot dev [], wait_image dev [])], []) /\
  exists pairs taps centers,
    _iter_training_images dev distance rp sc false = Ok (pairs, taps) /\
    _iter_training_confirm_pos rp sc = Ok centers /\
    forall r, In r taps ->
      exists pos, In pos centers /\ r = tap_rect rp pos /\
        (inject_Z (vector rp 30 540) <= distance (wait_image dev []) pos)%Q.
Proof.
  split; [reflexivity|]. unfold _iter_training_images.
  assert (exists centers, _iter_training_confirm_pos rp sc = Ok centers)
    as (centers & Hc).
  { unfold _iter_training_confirm_pos. case_decide; by eexists. }
  rewrite Hc. simpl.
  destruct (training_images_loop_inv dev distance rp (wait_image dev [])
              (vector rp 30 540) centers [] {[wait_image dev []]})
    as (ys & new & -> & _ & _ & _ & _ & Htap).
  by exists ((screenshot dev [], wait_image dev []) :: ys), new, centers.
Qed.

(** ** The orchestrator, continued *)

Lemma gather_first_failure (oks : list Training.t) (e : exn)
    (rest : list (result Training.t)) :
  gather (map Ok oks ++ Raise e :: rest) = Raise e.
Proof. induction oks as [|t oks IH]; simpl; [reflexivity|]. by rewrite IH. Qed.

(** X6. When a slot's recognition raised, [recognize_v2] raises the
    exception of the first such slot in submission order, whatever the other
    slots returned, and leaves the scene and the context as they were. *)
Theorem recognize_v2_worker_failure (oks : list Training.t) (e : exn)
    (rest : list (result Training.t)) (self : TrainingScene)
    (ctx : SingleModeContext) :
  recognize_v2 (map Ok oks ++ Raise e :: rest) self ctx
    = (Raise e, (self, ctx)).
Proof. unfold recognize_v2. by rewrite gather_first_failure. Qed.

Lemma levels_by_type_other (ts : list Training.t) (m : gmap Z Z) (k : Z) :
  ~ In k (map Training.type ts) ->
  fold_left (fun m i => <[Training.type i := Training.level i]> m) ts m !! k
    = m !! k.
Proof.
  revert m. induction ts as [|t ts IH]; intros m Hk; simpl; [reflexivity|].
  simpl in Hk. rewrite IH by tauto. apply lookup_insert_ne. tauto.
Qed.

Lemma levels_by_type_member (ts : list Training.t) (m : gmap Z Z)
    (t : Training.t) :
  NoDup (map Training.type ts) -> In t ts ->
  fold_left (fun m i => <[Training.type i := Training.level i]> m) ts m
    !! Training.type t = Some (Training.level t).
Proof.
  revert m. induction ts as [|a ts IH]; intros m Hnd Hin; simpl; [done|].
  simpl in Hnd. apply NoDup_cons in Hnd as [Ha Hnd].
  destruct Hin as [-> | Hin].
  - rewrite levels_by_type_other; [apply lookup_insert_eq|].
    intros Hin. by apply Ha, list_elem_of_In.
  - by apply IH.
Qed.

(** X7. When [recognize_v2] completes, the scene and the context hold the
    gathered trainings and the context's scenario, maximum vitality and
    summer-camp flag are unchanged. Outside the summer camp the level table
    is replaced: it maps the type of each training to its level and has no
    other key. In the summer camp the level table is left as it was. *)
Theorem recognize_v2_levels (futs : list (result Training.t))
    (self : TrainingScene) (ctx : SingleModeContext) :
  let self' := fst (snd (recognize_v2 futs self ctx)) in
  let ctx' := snd (snd (recognize_v2 futs self ctx)) in
  fst (recognize_v2 futs self ctx) = Ok tt ->
  gather futs = Ok (trainings ctx') /\
  scene_trainings self' = trainings ctx' /\
  scenario ctx' = scenario ctx /\
  max_vitality ctx' = max_vitality ctx /\
  is_summer_camp ctx' = is_summer_camp ctx /\
  (is_summer_camp ctx = true -> training_levels ctx' = training_levels ctx) /\
  (is_summer_camp ctx = false ->
     (forall t, In t (trainings ctx') ->
        training_levels ctx' !! Training.type t = Some (Training.level t)) /\
     (forall k, ~ In k (map Training.type (trainings ctx')) ->
        training_levels ctx' !! k = None)).
Proof.
  cbv zeta. unfold recognize_v2.
  destruct (gather futs) as [ts|e]; simpl; [|discriminate].
  destruct (types_all_distinct ts) eqn:Hd; simpl; [|discriminate].
  apply types_all_distinct_NoDup in Hd. intros _.
  destruct (is_summer_camp ctx) eqn:Hcamp; simpl; rewrite ?Hcamp;
    repeat split; try done.
  - intros t Ht. by apply levels_by_type_member.
  - intros k Hk. unfold levels_by_type.
    rewrite levels_by_type_other by exact Hk. apply lookup_empty.
Qed.

Lemma recognize_v2_levels_witness :
  training_levels
    (snd (snd (recognize_v2 [Ok (training_of 1 3); Ok (training_of 5 2)]
                 empty_scene fresh_context))) !! 5 = Some 2 /\
  training_levels
    (snd (snd (recognize_v2 [Ok (training_of 1 3); Ok (training_of 5 2)]
                 empty_scene fresh_context))) !! 4 = None.
Proof.
  destruct (recognize_v2_levels [Ok (training_of 1 3); Ok (training_of 5 2)]
              empty_scene fresh_context eq_refl)
    as (_ & _ & _ & _ & _ & _ & Hlevels).
  destruct (Hlevels eq_refl) as [Hmember Hother]. split.
  - apply (Hmember (training_of 5 2)). right. by left.
  - apply Hother. intros [Hin | [Hin | []]]; discriminate Hin.
Defined.

(** ** The icon column, continued *)

(** X8. The bound [icons_bottom] never ends an enumeration that has
    started: the loop compares it with [icon_bbox[2]], which no iteration
    changes, so while every icon yields a partner the loop is still running
    after any number of iterations. When the comparison fails at the start,
    nothing is recognised and the enumeration is empty. *)
Theorem partner_icons_loop_unbounded `{Collaborators Image}
    (sc : Scenario) (img : Image) (icon_y_offset icons_bottom : Z)
    (fuel : nat) (icon_bbox : Vector4) :
  (snd (fst icon_bbox) < icons_bottom ->
   (forall i, (i < fuel)%nat ->
      _recognize_partner_icon sc img
        (nth_icon_bbox icon_bbox icon_y_offset i) <> None) ->
   partner_icons_loop fuel sc img icon_bbox icon_y_offset icons_bottom = None) /\
  (icons_bottom <= snd (fst icon_bbox) ->
   partner_icons_loop (S fuel) sc img icon_bbox icon_y_offset icons_bottom
     = Some []).
Proof.
  split.
  - revert icon_bbox. induction fuel as [|fuel IH];
      intros [[[b0 b1] b2] b3] Hguard Hsome; [reflexivity|].
    simpl in Hguard. simpl partner_icons_loop.
    destruct (Z.ltb_spec b2 icons_bottom); [|lia].
    assert (0 < S fuel)%nat as Hfirst by lia.
    apply Hsome in Hfirst. simpl in Hfirst.
    destruct (_recognize_partner_icon sc img (b0, b1, b2, b3)); [|done].
    assert (partner_icons_loop fuel sc img
              (next_icon_bbox (b0, b1, b2, b3) icon_y_offset)
              icon_y_offset icons_bottom = None) as Hrec.
    { apply IH; [done|]. intros i Hi. apply (Hsome (S i)). lia. }
    simpl in Hrec. by rewrite Hrec.
  - destruct icon_bbox as [[[b0 b1] b2] b3]. simpl. intros Hguard.
    by destruct (Z.ltb_spec b2 icons_bottom); [lia|].
Qed.

Lemma partner_icons_loop_unbounded_witness :
  @partner_icons_loop _ fixture 40 SCENARIO_URA endless_column
    (448, 146, 516, 220) 90 578 = None.
Proof.
  apply (@partner_icons_loop_unbounded _ fixture SCENARIO_URA endless_column
           90 578 40 (448, 146, 516, 220)).
  - simpl. lia.
  - intros i _. unfold _recognize_partner_icon.
    destruct (partner_marks _ _ _) as [[soul ht] hsb].
    replace (_recognize_partner_level _ _) with 0; [by destruct (Qltb soul 0)|].
    symmetry.
    destruct (nth_icon_bbox (448, 146, 516, 220) 90 i) as [[[? ?] ?] ?].
    reflexivity.
Defined.

(** ** Partner records *)

Section PartnerRecord.
Context `{Collaborators Image}.

Lemma recognize_partner_level_range (rp : ResizeProxy) (icon_img : Image) :
  -1 <= _recognize_partner_level rp icon_img <= 5.
Proof.
  unfold _recognize_partner_level.
  destruct (first_matching_level_cases icon_img 0 (partner_level_spec rp))
    as [(n & s & Hn & -> & _) | [-> _]]; [|lia].
  apply lookup_lt_Some in Hn. change (n < 6)%nat in Hn. lia.
Qed.

Lemma recognize_soul_values (rp : ResizeProxy) (screenshot : Image)
    (icon_bbox : Vector4) :
  let soul := _recognize_soul rp screenshot icon_bbox in
  ((0 <= soul)%Q /\ (soul <= 1)%Q) \/ soul = (-1 # 1)%Q.
Proof.
  cbv zeta. unfold _recognize_soul.
  destruct (match_soul_full _); [left; split; discriminate|].
  destruct (soul_gauge_averages _) as [fg_avg empty_avg].
  destruct (Qltb fg_avg 100); [by right|]. left. apply soul_ratio_range.
Qed.

Lemma partner_marks_soul_range (sc : Scenario) (img : Image) (bbox : Vector4) :
  let soul := fst (fst (partner_marks sc img bbox)) in
  ((0 <= soul)%Q /\ (soul <= 1)%Q) \/ soul = (-1 # 1)%Q.
Proof.
  cbv zeta. unfold partner_marks. case_decide; [|by right].
  destruct (_recognize_has_soul_burst _ _ _); simpl.
  - left. split; discriminate.
  - apply recognize_soul_values.
Qed.

Lemma recognize_type_color_values (rp : ResizeProxy) (icon_img : Image) :
  _recognize_type_color rp icon_img <> Partner.TYPE_TEAMMATE.
Proof.
  unfold _recognize_type_color. repeat destruct (Qltb _ _); discriminate.
Qed.

(** The fields of a partner that was returned, in terms of the locals. *)
Lemma partner_icon_fields (sc : Scenario) (img : Image) (bbox : Vector4)
    (p : Partner.t) :
  _recognize_partner_icon sc img bbox = Some p ->
  Partner.icon_bbox p = bbox /\
  Partner.level p
    = _recognize_partner_level (resize_proxy_of (width img)) (crop img bbox) /\
  Partner.soul p = fst (fst (partner_marks sc img bbox)) /\
  Partner.type p
    = (if negb (Qltb (Partner.soul p) 0) &&
          bool_decide (_recognize_type_color (resize_proxy_of (width img))
                         (crop img bbox) = Partner.TYPE_OTHER)
       then Partner.TYPE_TEAMMATE
       else _recognize_type_color (resize_proxy_of (width img))
              (crop img bbox)).
Proof.
  unfold _recognize_partner_icon.
  destruct (partner_marks sc img bbox) as [[soul ht] hsb] eqn:Hmarks.
  destruct (_ && _); [discriminate|]. intros [= <-]. simpl.
  destruct hsb; [|done].
  apply partner_marks_burst in Hmarks as [-> _]. done.
Qed.

End PartnerRecord.

(** X9. Every partner returned for an icon carries the box it was
    recognised in, a bond level between -1 and 5, and a bond ratio that is in
    [0, 1] or is -1; the level and the ratio are never both negative. *)
Theorem partner_record_invariant `{Collaborators Image}
    (sc : Scenario) (img : Image) (bbox : Vector4) (p : Partner.t) :
  _recognize_partner_icon sc img bbox = Some p ->
  Partner.icon_bbox p = bbox /\
  -1 <= Partner.level p <= 5 /\
  (((0 <= Partner.soul p)%Q /\ (Partner.soul p <= 1)%Q) \/
   Partner.soul p = (-1 # 1)%Q) /\
  ~ (Partner.level p < 0 /\ (Partner.soul p < 0)%Q).
Proof.
  intros Hp.
  destruct (partner_icon_fields sc img bbox p Hp) as (Hbox & Hlevel & Hsoul & _).
  split; [exact Hbox|]. rewrite Hlevel, Hsoul.
  split; [apply recognize_partner_level_range|].
  split; [apply partner_marks_soul_range|].
  intros Hboth. apply partner_icon_none in Hboth. congruence.
Qed.

Lemma partner_record_invariant_witness :
  exists p,
    @_recognize_partner_icon _ fixture SCENARIO_URA grey_icon
      (448, 146, 516, 220) = Some p /\
    Partner.icon_bbox p = (448, 146, 516, 220) /\
    -1 <= Partner.level p <= 5.
Proof.
  eexists. split; [reflexivity|].
  split;
    apply (@partner_record_invariant _ fixture SCENARIO_URA grey_icon
             (448, 146, 516, 220)); reflexivity.
Defined.

(** X10. A returned partner is classified teammate only in the Aoharu
    scenario and only with a bond ratio that is not negative; it is left as
    other only with a negative bond ratio, so a partner whose bond ratio was
    read is never other. *)
Theorem partner_icon_type `{Collaborators Image}
    (sc : Scenario) (img : Image) (bbox : Vector4) (p : Partner.t) :
  _recognize_partner_icon sc img bbox = Some p ->
  (Partner.type p = Partner.TYPE_TEAMMATE ->
     sc = SCENARIO_AOHARU /\ (0 <= Partner.soul p)%Q) /\
  (Partner.type p = Partner.TYPE_OTHER -> (Partner.soul p < 0)%Q) /\
  ((0 <= Partner.soul p)%Q -> Partner.type p <> Partner.TYPE_OTHER).
Proof.
  intros Hp.
  destruct (partner_icon_fields sc img bbox p Hp) as (_ & _ & Hsoul & Htype).
  pose proof (recognize_type_color_values (resize_proxy_of (width img))
                (crop img bbox)) as Hcolor.
  destruct (Qltb (Partner.soul p) 0) eqn:Hneg; simpl in Htype.
  - apply Qltb_lt in Hneg. split; [congruence|]. split; [done|].
    intros Hpos Hother. by apply (Qlt_not_le _ _ Hneg).
  - apply Qltb_ge in Hneg. split; [|split].
    + intros _. split; [|exact Hneg].
      destruct (decide (sc = SCENARIO_AOHARU)) as [|Hsc]; [done|].
      rewrite partner_marks_outside_aoharu in Hsoul by exact Hsc.
      simpl in Hsoul. rewrite Hsoul in Hneg. by vm_compute in Hneg.
    + intros Hother. rewrite Hother in Htype. by case_bool_decide.
    + intros _ Hother. rewrite Hother in Htype. by case_bool_decide.
Qed.

Lemma partner_icon_type_witness :
  exists p,
    @_recognize_partner_icon _ fixture SCENARIO_AOHARU (fun _ => marked)
      (448, 147, 516, 220) = Some p /\
    Partner.type p <> Partner.TYPE_OTHER.
Proof.
  eexists. split; [reflexivity|].
  apply (@partner_icon_type _ fixture SCENARIO_AOHARU (fun _ => marked)
           (448, 147, 516, 220)); [reflexivity | discriminate].
Defined.

(** ** Vitality estimator, continued *)

Lemma vit_data_row `{Training.Types} (ty : Z) :
  In ty table_types ->
  exists c1 c2 c3 c4 c5, vit_data !! ty = Some [c1; c2; c3; c4; c5].
Proof.
  intros Hin. unfold vit_data. rewrite !lookup_insert.
  repeat case_decide; try (by do 5 eexists).
  exfalso. unfold table_types, cost_types in Hin. simpl in Hin.
  intuition congruence.
Qed.

Lemma py_index_wraps {A : Type} (t : list A) (i : Z) :
  - Z.of_nat (List.length t) <= i < 0 ->
  py_index t i = py_index t (i + Z.of_nat (List.length t)).
Proof.
  intros Hi. unfold py_index.
  destruct (Z.ltb_spec i 0); [|lia].
  by destruct (Z.ltb_spec (i + Z.of_nat (List.length t)) 0); [lia|].
Qed.

Lemma py_index_out_of_range {A : Type} (t : list A) (i : Z) :
  i < - Z.of_nat (List.length t) \/ Z.of_nat (List.length t) <= i ->
  py_index t i = Raise IndexError.
Proof.
  intros Hi. unfold py_index.
  destruct (Z.ltb_spec i 0);
    destruct (Z.leb_spec 0 (i + Z.of_nat (List.length t)));
    destruct (Z.leb_spec 0 i);
    destruct (Z.ltb_spec (i + Z.of_nat (List.length t))
                (Z.of_nat (List.length t)));
    destruct (Z.ltb_spec i (Z.of_nat (List.length t)));
    simpl; try reflexivity; lia.
Qed.

Lemma py_index_in_range {A : Type} (t : list A) (i : Z) :
  - Z.of_nat (List.length t) <= i < Z.of_nat (List.length t) ->
  exists a, py_index t i = Ok a.
Proof.
  intros Hi.
  assert (forall j, 0 <= j < Z.of_nat (List.length t) ->
            exists a, py_index t j = Ok a) as Hpos.
  { intros j Hj. unfold py_index.
    destruct (Z.ltb_spec j 0); [lia|].
    destruct (Z.leb_spec 0 j); [|lia].
    destruct (Z.ltb_spec j (Z.of_nat (List.length t))); [|lia]. simpl.
    destruct (nth_error t (Z.to_nat j)) as [a|] eqn:Hnth; [by eexists|].
    apply nth_error_None in Hnth. lia. }
  destruct (Z.lt_ge_cases i 0) as [Hneg|Hnn].
  - rewrite py_index_wraps by lia. apply Hpos. lia.
  - apply Hpos. lia.
Qed.

(** X11. For a type of the table: a level from -4 to 0 is read from the end
    of the row, so level 0 (a level that was not recognised) costs what level
    5 costs; a level below -4 or above 5 raises [IndexError], also when the
    maximum vitality is 0; a maximum vitality of 0 raises
    [ZeroDivisionError] at every other level. A type outside the table gives
    0 whatever the level and the maximum vitality. *)
Theorem estimate_vitality_edges `{Training.Types} (mv ty lv : Z) :
  (In ty table_types ->
     (-4 <= lv <= 0 ->
        _estimate_vitality mv ty lv = _estimate_vitality mv ty (lv + 5)) /\
     (lv < -4 \/ 5 < lv -> _estimate_vitality mv ty lv = Raise IndexError) /\
     (-4 <= lv <= 5 -> _estimate_vitality 0 ty lv = Raise ZeroDivisionError)) /\
  (~ In ty table_types -> _estimate_vitality mv ty lv = Ok 0%Q).
Proof.
  split.
  - intros Hin. destruct (vit_data_row ty Hin) as (c1&c2&c3&c4&c5&Hrow).
    unfold _estimate_vitality. rewrite Hrow. split; [|split].
    + intros Hlv. rewrite py_index_wraps by (simpl; lia).
      change (Z.of_nat (List.length [c1; c2; c3; c4; c5])) with 5.
      by replace (lv + 5 - 1) with (lv - 1 + 5) by lia.
    + intros Hlv. rewrite py_index_out_of_range by (simpl; lia). reflexivity.
    + intros Hlv.
      destruct (py_index_in_range [c1; c2; c3; c4; c5] (lv - 1)) as [c ->];
        [simpl; lia | reflexivity].
  - intros Hnot. unfold _estimate_vitality. by rewrite vit_data_unknown.
Qed.

Lemma estimate_vitality_edges_witness :
  @_estimate_vitality fixture_types 100 1 0
    = @_estimate_vitality fixture_types 100 1 5 /\
  @_estimate_vitality fixture_types 100 1 6 = Raise IndexError /\
  @_estimate_vitality fixture_types 0 1 3 = Raise ZeroDivisionError /\
  @_estimate_vitality fixture_types 0 9 77 = Ok 0%Q.
Proof.
  split; [|split; [|split]].
  - apply (@estimate_vitality_edges fixture_types 100 1 0);
      [simpl; tauto | lia].
  - apply (@estimate_vitality_edges fixture_types 100 1 6);
      [simpl; tauto | lia].
  - apply (@estimate_vitality_edges fixture_types 0 1 3);
      [simpl; tauto | lia].
  - apply (@estimate_vitality_edges fixture_types 0 9 77).
    simpl. intuition lia.
Defined.

(** ** Effect digits, continued *)

Lemma lstrip_plus_digits (l : list ascii) :
  all_digits l ->
  lstrip_plus (string_of_list_ascii l) = string_of_list_ascii l.
Proof.
  destruct l as [|c l]; [reflexivity|]. intros Hl.
  inversion Hl as [|? ? Hc _]; subst.
  destruct c as [[] [] [] [] [] [] [] []]; try discriminate Hc; reflexivity.
Qed.

Lemma lstrip_plus_repeat (k : nat) (l : list ascii) :
  lstrip_plus (string_of_list_ascii (repeat "+"%char k ++ l))
    = lstrip_plus (string_of_list_ascii l).
Proof. induction k as [|k IH]; [reflexivity | exact IH]. Qed.

(** X12. Any number of leading plus signs is dropped: a text made of plus
    signs followed by decimal digits gives the number the digits spell,
    unless the digits are more than the interpreter's limit on a literal,
    which [int()] refuses with [ValueError]. A text made of plus signs only
    is not read as 0: it raises [ValueError]. *)
Theorem effect_text_plus_signs (m : Z) (k : nat) (digits : list ascii) :
  let text := string_of_list_ascii (repeat "+"%char k ++ digits) in
  all_digits digits ->
  (digits <> [] ->
     effect_text_value m text
       = if int_limit_exceeded m (Z.of_nat (List.length digits))
         then Raise ValueError else Ok (decimal_value digits)) /\
  (digits <> [] -> (List.length digits <= 640)%nat ->
     effect_text_value m text = Ok (decimal_value digits)) /\
  (digits = [] -> k <> 0%nat -> effect_text_value m text = Raise ValueError).
Proof.
  cbv zeta. intros Hd.
  assert (repeat "+"%char k ++ digits <> [] ->
          effect_text_value m
            (string_of_list_ascii (repeat "+"%char k ++ digits))
            = py_int m (string_of_list_ascii digits)) as Hread.
  { intros Hne. rewrite <- (lstrip_plus_digits digits Hd).
    rewrite <- (lstrip_plus_repeat k digits).
    destruct (repeat "+"%char k ++ digits); [done | reflexivity]. }
  assert (digits <> [] ->
          effect_text_value m
            (string_of_list_ascii (repeat "+"%char k ++ digits))
            = if int_limit_exceeded m (Z.of_nat (List.length digits))
              then Raise ValueError else Ok (decimal_value digits)) as Hvalue.
  { intros Hne. rewrite Hread by (by destruct k, digits).
    destruct (py_int_of_digits m (string_of_list_ascii digits)) as [Hint _];
      rewrite ?list_ascii_of_string_of_list_ascii in *; done. }
  split; [exact Hvalue|]. split.
  - intros Hne Hshort. rewrite (Hvalue Hne).
    by rewrite int_limit_short by lia.
  - intros -> Hk. rewrite Hread by (by destruct k). reflexivity.
Qed.

Lemma effect_text_plus_signs_witness :
  effect_text_value 4300 "++15" = Ok 15 /\
  effect_text_value 4300 "+" = Raise ValueError.
Proof.
  destruct (effect_text_plus_signs 4300 2 ["1"; "5"]%char)
    as (_ & Hshort & _); [repeat constructor|].
  destruct (effect_text_plus_signs 4300 1 [])
    as (_ & _ & Hplus); [constructor|].
  split.
  - apply Hshort; [discriminate | simpl; lia].
  - apply Hplus; [reflexivity | lia].
Defined.

(** ** Bond ratio, continued *)

Lemma Qminus_pos_45 (fg : Q) : (100 <= fg)%Q -> (0 < fg - 45)%Q.
Proof.
  intros Hfg. apply Qlt_le_trans with (100 - 45)%Q; [reflexivity|].
  apply Qplus_le_compat; [exact Hfg | apply Qle_refl].
Qed.

Lemma Qone_minus_le_0 (q : Q) : (1 <= q)%Q -> (1 - q <= 0)%Q.
Proof.
  intros Hq. apply Qle_minus_iff. ring_simplify.
  apply Qle_minus_iff in Hq. by ring_simplify in Hq.
Qed.

Lemma Qone_minus_ge_1 (q : Q) : (q <= 0)%Q -> (1 <= 1 - q)%Q.
Proof.
  intros Hq. apply Qle_minus_iff. ring_simplify.
  apply Qle_minus_iff in Hq. by ring_simplify in Hq.
Qed.

Lemma Qone_minus_between (q : Q) :
  (0 < q)%Q -> (q < 1)%Q -> (0 < 1 - q)%Q /\ (1 - q < 1)%Q.
Proof.
  intros H0 H1. split.
  - apply Qlt_minus_iff in H1. exact H1.
  - apply Qlt_minus_iff. ring_simplify. exact H0.
Qed.

(** X13. When the full-gauge template does not match and the foreground
    average is at least 100, the bond ratio is exactly 1 for an empty-mask
    average of 0 (or below), exactly 0 as soon as the empty-mask average
    reaches the foreground average less 45, and strictly between 0 and 1,
    equal to [1 - empty_avg / (fg_avg - 45)], in between. *)
Theorem recognize_soul_saturation `{Collaborators Image}
    (rp : ResizeProxy) (screenshot : Image) (icon_bbox : Vector4)
    (fg_avg empty_avg : Q) :
  match_soul_full (crop screenshot (right_bottom_icon_bbox rp icon_bbox))
    = false ->
  soul_gauge_averages (crop screenshot (soul_bbox rp icon_bbox))
    = (fg_avg, empty_avg) ->
  (100 <= fg_avg)%Q ->
  let soul := _recognize_soul rp screenshot icon_bbox in
  ((empty_avg <= 0)%Q -> soul = 1%Q) /\
  ((fg_avg - 45 <= empty_avg)%Q -> soul = 0%Q) /\
  ((0 < empty_avg)%Q -> (empty_avg < fg_avg - 45)%Q ->
     soul = (1 - empty_avg / (fg_avg - 45))%Q /\
     (0 < soul)%Q /\ (soul < 1)%Q).
Proof.
  intros Hfull Hgauge Hfg. cbv zeta. unfold _recognize_soul.
  rewrite Hfull, Hgauge.
  assert (Qltb fg_avg 100 = false) as -> by (by apply Qltb_ge).
  pose proof (Qminus_pos_45 fg_avg Hfg) as Hd.
  unfold soul_ratio, py_max2, py_min2.
  set (x := (1 - empty_avg / (fg_avg - 45))%Q).
  split; [|split].
  - intros He.
    assert (1 <= x)%Q as Hx.
    { apply Qone_minus_ge_1, Qle_shift_div_r; [exact Hd|].
      by rewrite Qmult_0_l. }
    apply Qltb_ge in Hx. rewrite Hx. reflexivity.
  - intros He.
    assert (x <= 0)%Q as Hx.
    { apply Qone_minus_le_0, Qle_shift_div_l; [exact Hd|].
      by rewrite Qmult_1_l. }
    assert (Qltb x 1 = true) as ->.
    { apply Qltb_lt. by apply Qle_lt_trans with 0%Q. }
    apply Qltb_ge in Hx. by rewrite Hx.
  - intros H0 H1.
    destruct (Qone_minus_between (empty_avg / (fg_avg - 45))) as [Hx0 Hx1].
    + apply Qlt_shift_div_l; [exact Hd|]. by rewrite Qmult_0_l.
    + apply Qlt_shift_div_r; [exact Hd|]. by rewrite Qmult_1_l.
    + fold x in Hx0, Hx1.
      assert (Qltb x 1 = true) as -> by (by apply Qltb_lt).
      assert (Qltb 0 x = true) as -> by (by apply Qltb_lt).
      done.
Qed.

Lemma recognize_soul_saturation_witness :
  @_recognize_soul _ fixture identity_proxy (fun _ => gauge false 145 100)
    (448, 147, 516, 220) = 0%Q /\
  @_recognize_soul _ fixture identity_proxy (fun _ => gauge false 145 0)
    (448, 147, 516, 220) = 1%Q.
Proof.
  split.
  - apply (@recognize_soul_saturation _ fixture identity_proxy
             (fun _ => gauge false 145 100) (448, 147, 516, 220) 145 100);
      try reflexivity; discriminate.
  - apply (@recognize_soul_saturation _ fixture identity_proxy
             (fun _ => gauge false 145 0) (448, 147, 516, 220) 145 0);
      try reflexivity; discriminate.
Defined.

(** ** One training slot *)

Section NearestType.
Implicit Types (pairs : list (Z * Vector2)) (x type : Z).

(** From a running minimum [m]: the type is kept when no centre ahead is
    strictly nearer, and otherwise it becomes the type of the first centre
    ahead whose distance is the least. *)
Lemma nearest_type_from x pairs :
  forall type (m : Z),
    (nearest_type x pairs type (Some m) = type /\
     forall (j : nat) t' c', pairs !! j = Some (t', c') ->
       m <= Z.abs (x - fst c')) \/
    (exists (i : nat) t c,
       pairs !! i = Some (t, c) /\
       nearest_type x pairs type (Some m) = t /\
       Z.abs (x - fst c) < m /\
       (forall (j : nat) t' c', pairs !! j = Some (t', c') ->
          Z.abs (x - fst c) <= Z.abs (x - fst c')) /\
       (forall (j : nat) t' c', (j < i)%nat -> pairs !! j = Some (t', c') ->
          Z.abs (x - fst c) < Z.abs (x - fst c'))).
Proof.
  induction pairs as [|[t0 c0] pairs IH]; intros type m; simpl.
  - left. split; [reflexivity|]. intros j t' c' Hj. by rewrite lookup_nil in Hj.
  - destruct (Z.ltb_spec (Z.abs (x - fst c0)) m) as [Hlt|Hge].
    + right.
      destruct (IH t0 (Z.abs (x - fst c0)))
        as [[-> Hall] | (i & t & c & Hi & -> & Hlt' & Hmin & Hstrict)].
      * exists 0%nat, t0, c0. repeat split; try done.
        -- intros [|j] t' c' Hj; simpl in Hj; [injection Hj as <- <-; lia|].
           by apply (Hall j t').
        -- intros j t' c' Hj. lia.
      * exists (S i), t, c. repeat split; try done; [lia | |].
        -- intros [|j] t' c' Hj; simpl in Hj; [injection Hj as <- <-; lia|].
           by apply (Hmin j t').
        -- intros [|j] t' c' Hlt'' Hj; simpl in Hj;
             [injection Hj as <- <-; lia|].
           apply (Hstrict j t'); [lia | done].
    + destruct (IH type m)
        as [[-> Hall] | (i & t & c & Hi & -> & Hlt' & Hmin & Hstrict)].
      * left. split; [reflexivity|].
        intros [|j] t' c' Hj; simpl in Hj; [injection Hj as <- <-; lia|].
        by apply (Hall j t').
      * right. exists (S i), t, c. repeat split; try done.
        -- intros [|j] t' c' Hj; simpl in Hj; [injection Hj as <- <-; lia|].
           by apply (Hmin j t').
        -- intros [|j] t' c' Hlt'' Hj; simpl in Hj;
             [injection Hj as <- <-; lia|].
           apply (Hstrict j t'); [lia | done].
Qed.

End NearestType.

(** X14. The type given to a slot is the type paired with the slot centre
    whose x coordinate is nearest to the confirm marker's, the first such
    centre when several are equally near; with no centre to compare the type
    is left as it was. *)
Theorem nearest_type_first_minimum (x type : Z) (pairs : list (Z * Vector2)) :
  (pairs = [] -> nearest_type x pairs type None = type) /\
  (pairs <> [] ->
   exists (i : nat) t c,
     pairs !! i = Some (t, c) /\
     nearest_type x pairs type None = t /\
     (forall (j : nat) t' c', pairs !! j = Some (t', c') ->
        Z.abs (x - fst c) <= Z.abs (x - fst c')) /\
     (forall (j : nat) t' c', (j < i)%nat -> pairs !! j = Some (t', c') ->
        Z.abs (x - fst c) < Z.abs (x - fst c'))).
Proof.
  split; [by intros ->|].
  destruct pairs as [|[t0 c0] pairs]; [done|]. intros _. simpl.
  destruct (nearest_type_from x pairs t0 (Z.abs (x - fst c0)))
    as [[-> Hall] | (i & t & c & Hi & -> & Hlt' & Hmin & Hstrict)].
  - exists 0%nat, t0, c0. repeat split; try done.
    + intros [|j] t' c' Hj; simpl in Hj; [injection Hj as <- <-; lia|].
      by apply (Hall j t').
    + intros j t' c' Hj. lia.
  - exists (S i), t, c. repeat split; try done.
    + intros [|j] t' c' Hj; simpl in Hj; [injection Hj as <- <-; lia|].
      by apply (Hmin j t').
    + intros [|j] t' c' Hlt'' Hj; simpl in Hj; [injection Hj as <- <-; lia|].
      apply (Hstrict j t'); [lia | done].
Qed.

Lemma nearest_type_first_minimum_witness :
  nearest_type 268 (combine [1; 2; 3; 4; 5]
                      [(78, 850); (171, 850); (268, 850); (367, 850);
                       (461, 850)]) 0 None = 3.
Proof.
  destruct (nearest_type_first_minimum 268 0
              (combine [1; 2; 3; 4; 5]
                 [(78, 850); (171, 850); (268, 850); (367, 850); (461, 850)]))
    as [_ Hsome].
  destruct Hsome as (i & t & c & Hi & -> & Hmin & _); [discriminate|].
  pose proof (Hmin 2%nat 3 (268, 850) eq_refl) as Hnear. simpl in Hnear.
  do 5 (destruct i as [|i]; [injection Hi as <- <-; simpl in Hnear;
                             first [reflexivity | lia]|]).
  discriminate Hi.
Defined.

Lemma failure_rate_of_text_error (m : Z) (text : string) (e : exn) :
  failure_rate_of_text m text = Raise e ->
  e = ValueError \/ e = OverflowError.
Proof.
  unfold failure_rate_of_text.
  destruct (py_int _ _) as [n|e'] eqn:Hint; simpl.
  - unfold py_truediv. simpl (100 =? 0).
    destruct (_ <=? _); [|discriminate]. intros [= <-]. by right.
  - intros [= <-]. left. by apply py_int_error in Hint.
Qed.

(** Every coefficient of the vitality table lies between -28 and 5, whatever
    the type constants are. *)
Lemma vit_data_bounded `{Training.Types} (ty : Z) (row : list Z) :
  vit_data !! ty = Some row -> Forall (fun c => -28 <= c <= 5) row.
Proof.
  unfold vit_data. intros Hrow.
  repeat (rewrite lookup_insert in Hrow;
          destruct (decide _) in Hrow;
          [injection Hrow as <-; repeat constructor; lia|]).
  by rewrite lookup_empty in Hrow.
Qed.

Lemma py_index_In {A : Type} (t : list A) (i : Z) (a : A) :
  py_index t i = Ok a -> In a t.
Proof.
  unfold py_index. destruct (_ && _); [|discriminate].
  destruct (nth_error _ _) as [b|] eqn:Hnth; [|discriminate].
  intros [= <-]. by apply nth_error_In in Hnth.
Qed.

(** The quotient of a coefficient by the maximum vitality is never out of
    the range of a float. *)
Lemma estimate_vitality_error `{Training.Types} (mv ty lv : Z) (e : exn) :
  _estimate_vitality mv ty lv = Raise e ->
  e = IndexError \/ e = ZeroDivisionError.
Proof.
  unfold _estimate_vitality.
  destruct (vit_data !! ty) as [row|] eqn:Hrow; [|discriminate].
  destruct (py_index row (lv - 1)) as [c|e'] eqn:Hidx; simpl.
  - apply vit_data_bounded in Hrow. apply py_index_In in Hidx.
    rewrite List.Forall_forall in Hrow. specialize (Hrow c Hidx).
    unfold py_truediv. destruct (Z.eqb_spec mv 0); [intros [= <-]; by right|].
    rewrite py_truediv_nonzero_aux by (pose proof float_overflow_large; lia).
    discriminate.
  - intros [= <-]. left. unfold py_index in Hidx.
    destruct (_ && _); [|by injection Hidx].
    destruct (nth_error _ _); [discriminate | by injection Hidx].
Qed.

Section SlotErrors.
Context `{Collaborators Image}.

Lemma recognize_base_effect_error (img : Image) (e : exn) :
  fst (_recognize_base_effect img) = Raise e -> e = ValueError.
Proof.
  unfold _recognize_base_effect.
  destruct (_ <? 100); [discriminate|].
  destruct (hash_sim_total (base_effect_text_img img)) as [sim ->].
  destruct (Qltb _ sim); [discriminate|]. apply effect_text_value_error.
Qed.

Lemma recognize_column_error (img : Image) (bbox_group : list Vector4)
    (recognize : EffectRecognizer) (i : Z) (e : exn) :
  recognize_column img bbox_group recognize i = Raise e -> slot_error e.
Proof.
  unfold recognize_column, slot_error.
  destruct (py_index bbox_group i) as [bbox|e'] eqn:Hidx; simpl.
  - destruct recognize; intros He; left.
    + by apply recognize_base_effect_error in He.
    + by apply effect_text_value_error in He.
  - intros [= <-]. right; left. unfold py_index in Hidx.
    destruct (_ && _); [|by injection Hidx].
    destruct (nth_error _ _); [discriminate | by injection Hidx].
Qed.

Lemma effects_loop_error (img : Image)
    (groups : list (list Vector4 * EffectRecognizer)) :
  forall stats e, effects_loop img groups stats = Raise e -> slot_error e.
Proof.
  induction groups as [|[g r] groups IH];
    intros [[[[[sp st] po] gu] wi] sk] e; simpl; [discriminate|].
  repeat (match goal with
          | |- context [recognize_column img g r ?i] =>
              let Hc := fresh "Hc" in
              destruct (recognize_column img g r i) eqn:Hc; simpl;
              [| intros [= <-]; by apply recognize_column_error in Hc]
          end).
  apply IH.
Qed.

Lemma performance_loop_error (img : Image)
    (groups : list (list Vector4 * EffectRecognizer)) :
  forall perf e, performance_loop img groups perf = Raise e -> slot_error e.
Proof.
  induction groups as [|[g r] groups IH]; intros perf e; simpl; [discriminate|].
  repeat (match goal with
          | |- context [recognize_column img g r ?i] =>
              let Hc := fresh "Hc" in
              destruct (recognize_column img g r i) eqn:Hc; simpl;
              [| intros [= <-]; by apply recognize_column_error in Hc]
          end).
  apply IH.
Qed.

Lemma effect_recognitions_supported (sc : Scenario) (rp : ResizeProxy) :
  (forall groups, _effect_recognitions sc rp = Ok groups -> supported sc) /\
  (forall e, _effect_recognitions sc rp = Raise e ->
     e = NotImplementedError /\ ~ supported sc).
Proof. destruct sc; simpl; split; intros ? [=]; subst; tauto. Qed.

Lemma recognize_partners_supported (fuel : nat) (sc : Scenario) (img : Image) :
  supported sc -> exists ps, _recognize_partners fuel sc img = Ok ps.
Proof.
  intros Hs. unfold _recognize_partners.
  destruct (geometry_lookup_supported (resize_proxy_of (width img)) sc Hs)
    as (_ & ([bbox off] & ->) & _).
  simpl. by eexists.
Qed.

End SlotErrors.

(** X15. The recognition of a slot ends with a record or with one of
    [ValueError], [IndexError], [ZeroDivisionError], [OverflowError] (a
    failure rate out of the range of a float) and [NotImplementedError]: the
    [KeyError] of the partner-icon layout cannot be reached, since the
    effect-column lookup has failed before. For a
    scenario that is none of the seven named ones it always fails: with
    [ValueError] when the level colour is not recognised, with
    [NotImplementedError] otherwise. *)
Theorem recognize_training_errors `{Collaborators Image}
    `{SlotCollaborators Image} `{Training.Types} (fuel : nat)
    (ctx : SingleModeContext) (img_pair : Image * Vector2) :
  (forall e, _recognize_training fuel ctx img_pair = Raise e -> slot_error e) /\
  (forall name, scenario ctx = SCENARIO_OTHER name ->
     match _recognize_level compare_color
             (getpixel (fst img_pair)
                (vector2 (resize_proxy_of (width (fst img_pair))) (10, 200) 540))
     with
     | Ok _ => _recognize_training fuel ctx img_pair = Raise NotImplementedError
     | Raise _ => _recognize_training fuel ctx img_pair = Raise ValueError
     end).
Proof.
  split.
  - intros e. unfold _recognize_training.
    assert (exists centers,
              _iter_training_confirm_pos action_resize_proxy (scenario ctx)
                = Ok centers) as (centers & ->).
    { unfold _iter_training_confirm_pos. case_decide; by eexists. }
    simpl.
    destruct (if decide (scenario ctx <> SCENARIO_UAF_READY_GO) then _ else _)
      as [level|e1] eqn:Hlevel; simpl.
    2: { intros [= <-]. case_decide; [|discriminate].
         apply recognize_level_error in Hlevel. by left. }
    destruct (_effect_recognitions _ _) as [groups|e2] eqn:Hgroups; simpl.
    2: { intros [= <-]. apply effect_recognitions_supported in Hgroups as [-> _].
         unfold slot_error. tauto. }
    apply effect_recognitions_supported in Hgroups.
    destruct (effects_loop _ _ _) as [[[[[[sp st] po] gu] wi] sk]|e3]
      eqn:Heffects; simpl.
    2: { intros [= <-]. by apply effects_loop_error in Heffects. }
    destruct (if decide (scenario ctx = SCENARIO_GRAND_LIVE) then _ else _)
      as [perf|e4] eqn:Hperf; simpl.
    2: { intros [= <-]. case_decide; [|discriminate].
         destruct (_performance_recognitions _ _) as [pg|e5] eqn:Hpg;
           simpl in Hperf.
         - by apply performance_loop_error in Hperf.
         - unfold _performance_recognitions in Hpg.
           case_decide; [discriminate | done]. }
    destruct (_estimate_vitality _ _ _) as [vit|e6] eqn:Hvit; simpl.
    2: { intros [= <-]. apply estimate_vitality_error in Hvit.
         unfold slot_error. tauto. }
    destruct (_recognize_failure_rate _ _ _) as [rate|e7] eqn:Hrate; simpl.
    2: { intros [= <-]. apply failure_rate_of_text_error in Hrate.
         unfold slot_error. tauto. }
    destruct (recognize_partners_supported fuel (scenario ctx) (fst img_pair)
                Hgroups) as [ps ->].
    discriminate.
  - intros name Hsc. unfold _recognize_training. rewrite Hsc. simpl.
    destruct (_recognize_level _ _) as [l|e] eqn:Hl; [reflexivity|].
    apply recognize_level_error in Hl as ->. reflexivity.
Qed.

(** X16. A record returned for a slot comes from one of the seven named
    scenarios, carries the confirm position it was given and the type of the
    nearest slot centre, has a level between 1 and 5 (in the UAF scenario:
    the level of a fresh record, no level being read), a vitality that is the
    estimator's value for that type and level, and the partners of the icon
    column; outside Grand Live its performance part is the fresh one. *)
Theorem recognize_training_record `{Collaborators Image}
    `{SlotCollaborators Image} `{Training.Types} (fuel : nat)
    (ctx : SingleModeContext) (img : Image) (confirm_position : Vector2)
    (trn : Training.t) (perf : Performance) :
  _recognize_training fuel ctx (img, confirm_position) = Ok (Some (trn, perf)) ->
  supported (scenario ctx) /\
  Training.confirm_position trn = confirm_position /\
  (exists centers,
     _iter_training_confirm_pos action_resize_proxy (scenario ctx) = Ok centers /\
     Training.type trn
       = nearest_type (fst confirm_position) (combine ALL_TYPES centers)
           (Training.type new_training) None) /\
  (scenario ctx <> SCENARIO_UAF_READY_GO -> 1 <= Training.level trn <= 5) /\
  (scenario ctx = SCENARIO_UAF_READY_GO ->
     Training.level trn = Training.level new_training) /\
  _estimate_vitality (max_vitality ctx) (Training.type trn) (Training.level trn)
    = Ok (Training.vitality trn) /\
  _recognize_partners fuel (scenario ctx) img = Ok (Some (Training.partners trn)) /\
  (scenario ctx <> SCENARIO_GRAND_LIVE -> perf = new_performance).
Proof.
  unfold _recognize_training. simpl fst. simpl snd.
  assert (exists centers,
            _iter_training_confirm_pos action_resize_proxy (scenario ctx)
              = Ok centers) as (centers & Hcenters).
  { unfold _iter_training_confirm_pos. case_decide; by eexists. }
  rewrite Hcenters. simpl.
  destruct (if decide (scenario ctx <> SCENARIO_UAF_READY_GO) then _ else _)
    as [level|] eqn:Hlevel; simpl; [|discriminate].
  destruct (_effect_recognitions _ _) as [groups|] eqn:Hgroups; simpl;
    [|discriminate].
  apply effect_recognitions_supported in Hgroups.
  destruct (effects_loop _ _ _) as [[[[[[sp st] po] gu] wi] sk]|]; simpl;
    [|discriminate].
  destruct (if decide (scenario ctx = SCENARIO_GRAND_LIVE) then _ else _)
    as [perf'|] eqn:Hperf; simpl; [|discriminate].
  destruct (_estimate_vitality _ _ _) as [vit|] eqn:Hvit; simpl; [|discriminate].
  destruct (_recognize_failure_rate _ _ _) as [rate|]; simpl; [|discriminate].
  destruct (_recognize_partners _ _ _) as [[ps|]|]; simpl; try discriminate.
  intros [= <- <-]. simpl.
  split; [exact Hgroups|]. split; [reflexivity|].
  split; [by exists centers|]. split; [|split; [|split; [|split]]].
  - intros Huaf.
    destruct (decide (scenario ctx <> SCENARIO_UAF_READY_GO)); [|done].
    by apply recognize_level_range in Hlevel.
  - intros Huaf.
    destruct (decide (scenario ctx <> SCENARIO_UAF_READY_GO)); [done|].
    by injection Hlevel.
  - exact Hvit.
  - reflexivity.
  - intros Hlive.
    destruct (decide (scenario ctx = SCENARIO_GRAND_LIVE)); [done|].
    by injection Hperf.
Qed.

Lemma recognize_training_record_witness :
  exists trn perf,
    @_recognize_training _ fixture fixture_slot fixture_types 8 fresh_context
      (ura_screenshot, (268, 850)) = Ok (Some (trn, perf)) /\
    Training.confirm_position trn = (268, 850) /\
    1 <= Training.level trn <= 5.
Proof.
  do 2 eexists. split; [reflexivity|].
  split;
    apply (@recognize_training_record _ fixture fixture_slot fixture_types 8
             fresh_context ura_screenshot (268, 850) _ _ eq_refl);
    discriminate.
Defined.

Lemma recognize_training_errors_witness :
  @_recognize_training _ fixture fixture_slot fixture_types 8
    {| scenario := SCENARIO_OTHER "new"; max_vitality := 100;
       is_summer_camp := false; trainings := []; training_levels := ∅ |}
    (ura_screenshot, (268, 850)) = Raise NotImplementedError /\
  @_recognize_training _ fixture fixture_slot fixture_types 8 fresh_context
    (overflow_screenshot, (268, 850)) = Raise OverflowError /\
  slot_error OverflowError.
Proof.
  destruct (@recognize_training_errors _ fixture fixture_slot fixture_types 8
              {| scenario := SCENARIO_OTHER "new"; max_vitality := 100;
                 is_summer_camp := false; trainings := [];
                 training_levels := ∅ |}
              (ura_screenshot, (268, 850))) as [_ Hother].
  destruct (@recognize_training_errors _ fixture fixture_slot fixture_types 8
              fresh_context (overflow_screenshot, (268, 850)))
    as [Herror _].
  split; [exact (Hother "new"%string eq_refl)|].
  assert (@_recognize_training _ fixture fixture_slot fixture_types 8
            fresh_context (overflow_screenshot, (268, 850))
          = Raise OverflowError) as Hrun by (vm_compute; reflexivity).
  split; [exact Hrun | exact (Herror OverflowError Hrun)].
Defined.

(** * Properties of plugins/race_campaign.py *)

Lemma Campaign_match_true (now : nat -> Z) (self : Campaign) (race : string)
    (calls : nat) :
  (fst (Campaign_match now self race calls) = true <->
   race = race_name self /\ start self <= now calls <= end_ self) /\
  snd (Campaign_match now self race calls)
    = (if String.eqb race (race_name self) then S calls else calls).
Proof.
  unfold Campaign_match.
  destruct (String.eqb_spec race (race_name self)) as [Heq|Hne]; simpl.
  - destruct ((start self <=? now calls) && (now calls <=? end_ self))
      eqn:Hwin; simpl; (split; [|reflexivity]).
    + apply andb_true_iff in Hwin as [Hs He].
      apply Z.leb_le in Hs. apply Z.leb_le in He.
      split; [intros _; split; [exact Heq | lia] | reflexivity].
    + split; [discriminate|]. intros [_ [Hs He]].
      apply Z.leb_le in Hs. apply Z.leb_le in He.
      rewrite Hs, He in Hwin. discriminate Hwin.
  - split; [|reflexivity]. split; [discriminate | intros [? _]; done].
Qed.

Lemma one_time_done_true (self : Campaign) (race : string) (r : RaceResult) :
  one_time_done self race r = true <->
  result_race_name r = race /\ result_order r <= order_lte self /\
  start self < result_time r <= end_ self.
Proof.
  unfold one_time_done.
  rewrite !andb_true_iff, String.eqb_eq, Z.leb_le, Z.ltb_lt, Z.leb_le. tauto.
Qed.

(** X17. A one-time campaign matches a race exactly when the race has the
    campaign's name, the clock reading lies between its start and its end
    (both included) and no recorded result of that race with an order within
    the limit has a time after the start and up to the end. The clock is read
    once, and only when the name fits. *)
Theorem one_time_campaign_match (now : nat -> Z) (self : Campaign)
    (race : string) (results : list RaceResult) (calls : nat) :
  (fst (OneTimeCampaign_match now self race results calls) = true <->
   race = race_name self /\
   start self <= now calls <= end_ self /\
   forall r, In r results ->
     ~ (result_race_name r = race /\ result_order r <= order_lte self /\
        start self < result_time r <= end_ self)) /\
  snd (OneTimeCampaign_match now self race results calls)
    = (if String.eqb race (race_name self) then S calls else calls).
Proof.
  unfold OneTimeCampaign_match.
  destruct (Campaign_match_true now self race calls) as [Hiff Hcalls].
  destruct (Campaign_match now self race calls) as [matched calls'].
  simpl in Hiff, Hcalls. subst calls'.
  destruct matched; simpl.
  - split; [|reflexivity]. rewrite negb_true_iff.
    assert (race = race_name self /\ start self <= now calls <= end_ self)
      as Hbase by (by apply Hiff).
    split.
    + intros Hnone. split; [tauto|]. split; [tauto|].
      intros r Hr Hdone. apply one_time_done_true in Hdone.
      assert (existsb (one_time_done self race) results = true); [|congruence].
      apply existsb_exists. by exists r.
    + intros (_ & _ & Hnone).
      destruct (existsb (one_time_done self race) results) eqn:Hex;
        [|reflexivity].
      apply existsb_exists in Hex as (r & Hr & Hdone).
      apply one_time_done_true in Hdone. by destruct (Hnone r Hr).
  - split; [|reflexivity]. split; [discriminate|].
    intros (Hname & Hwin & _).
    assert (false = true); [by apply Hiff | discriminate].
Qed.

Lemma one_time_campaign_match_witness :
  fst (OneTimeCampaign_match (fun _ => 50000 * 1000000)
         (fixture_campaign OneTimeCampaign) "Oaks" [] 0) = true /\
  fst (OneTimeCampaign_match (fun _ => 50000 * 1000000)
         (fixture_campaign OneTimeCampaign) "Oaks" [fixture_win] 0) = false.
Proof.
  split.
  - apply (one_time_campaign_match (fun _ => 50000 * 1000000)
             (fixture_campaign OneTimeCampaign) "Oaks" [] 0).
    split; [reflexivity|]. split; [by vm_compute | intros r []].
  - apply not_true_is_false. intros Hmatch.
    apply (one_time_campaign_match (fun _ => 50000 * 1000000)
             (fixture_campaign OneTimeCampaign) "Oaks" [fixture_win] 0)
      in Hmatch as (_ & _ & Hnone).
    apply (Hnone fixture_win); [by left|]. by vm_compute.
Defined.

Lemma once_per_day_loop_true (now : nat -> Z) (self : Campaign) (race : string)
    (d : Z) (results : list RaceResult) :
  forall calls : nat,
    (forall k : nat, (calls <= k)%nat -> jst_date (now k) = d) ->
    (fst (once_per_day_loop now self race results calls) = true <->
     forall r, In r results ->
       ~ (result_race_name r = race /\ result_order r <= order_lte self /\
          jst_date (result_time r) = d)).
Proof.
  induction results as [|r results IH]; intros calls Hday; simpl.
  - split; [intros _ r [] | reflexivity].
  - destruct (String.eqb_spec (result_race_name r) race) as [Hname|Hname];
      destruct (Z.leb_spec (result_order r) (order_lte self)) as [Hord|Hord];
      simpl.
    + rewrite (Hday calls) by lia.
      destruct (Z.eqb_spec (jst_date (result_time r)) d) as [Hd|Hd]; simpl.
      * split; [discriminate|]. intros Hnone.
        destruct (Hnone r); [by left | done].
      * rewrite (IH (S calls)) by (intros k Hk; apply Hday; lia).
        split; [intros Hnone r' [<-|Hr']; [tauto | by apply Hnone]|].
        intros Hnone r' Hr'. apply Hnone. by right.
    + rewrite (IH calls Hday).
      split; [intros Hnone r' [<-|Hr']; [lia | by apply Hnone]|].
      intros Hnone r' Hr'. apply Hnone. by right.
    + rewrite (IH calls Hday).
      split; [intros Hnone r' [<-|Hr']; [tauto | by apply Hnone]|].
      intros Hnone r' Hr'. apply Hnone. by right.
    + rewrite (IH calls Hday).
      split; [intros Hnone r' [<-|Hr']; [tauto | by apply Hnone]|].
      intros Hnone r' Hr'. apply Hnone. by right.
Qed.

(** X18. While the clock stays on one JST day, a once-per-day campaign
    matches a race exactly when the race has the campaign's name, the first
    clock reading lies between its start and its end (both included) and no
    recorded result of that race with an order within the limit was run on
    that JST day. *)
Theorem once_per_day_campaign_match (now : nat -> Z) (self : Campaign)
    (race : string) (results : list RaceResult) (calls : nat) (d : Z) :
  (forall k : nat, (calls <= k)%nat -> jst_date (now k) = d) ->
  (fst (OncePerDayCampaign_match now self race results calls) = true <->
   race = race_name self /\
   start self <= now calls <= end_ self /\
   forall r, In r results ->
     ~ (result_race_name r = race /\ result_order r <= order_lte self /\
        jst_date (result_time r) = d)).
Proof.
  intros Hday. unfold OncePerDayCampaign_match.
  destruct (Campaign_match_true now self race calls) as [Hiff Hcalls].
  destruct (Campaign_match now self race calls) as [matched calls'].
  simpl in Hiff, Hcalls. subst calls'.
  destruct matched; simpl.
  - assert (race = race_name self /\ start self <= now calls <= end_ self)
      as [Hname Hwin] by (by apply Hiff).
    rewrite once_per_day_loop_true with (d := d).
    + tauto.
    + intros k Hk. apply Hday. destruct (String.eqb _ _); lia.
  - split; [discriminate|]. intros (Hname & Hwin & _).
    assert (false = true); [by apply Hiff | discriminate].
Qed.

(** At 16:40 UTC, which is 01:40 of the next day in JST: a win at 13:53
    UTC was run on the JST day before and a fifth place at 16:06 UTC is above
    the order limit, so the campaign matches; a win at 16:06 UTC was run on
    this JST day, so it does not. *)
Lemma once_per_day_campaign_match_witness :
  fst (OncePerDayCampaign_match (fun _ => 60000 * 1000000)
         (fixture_campaign OncePerDayCampaign) "Oaks"
         [fixture_result 1 50000; fixture_result 5 58000] 0) = true /\
  fst (OncePerDayCampaign_match (fun _ => 60000 * 1000000)
         (fixture_campaign OncePerDayCampaign) "Oaks"
         [fixture_result 1 50000; fixture_result 1 58000] 0) = false /\
  jst_date (50000 * 1000000) = 0 /\ jst_date (58000 * 1000000) = 1 /\
  jst_date (60000 * 1000000) = 1.
Proof.
  split; [|split; [|by vm_compute]].
  - apply (once_per_day_campaign_match (fun _ => 60000 * 1000000)
             (fixture_campaign OncePerDayCampaign) "Oaks"
             [fixture_result 1 50000; fixture_result 5 58000] 0 1).
    + reflexivity.
    + split; [reflexivity|]. split; [by vm_compute|].
      intros r [<-|[<-|[]]] (_ & Horder & Hday).
      * vm_compute in Hday. discriminate Hday.
      * simpl in Horder. lia.
  - apply not_true_is_false. intros Hmatch.
    apply (once_per_day_campaign_match (fun _ => 60000 * 1000000)
             (fixture_campaign OncePerDayCampaign) "Oaks"
             [fixture_result 1 50000; fixture_result 1 58000] 0 1)
      in Hmatch as (_ & _ & Hnone); [|reflexivity].
    apply (Hnone (fixture_result 1 58000)); [right; by left|].
    split; [reflexivity|]. split; [simpl; lia | by vm_compute].
Defined.

Section FrozenClock.
Context (now : nat -> Z) (t : Z) (Hfrozen : forall k : nat, now k = t).

Lemma frozen_Campaign_match (self : Campaign) (race : string) (n m : nat) :
  fst (Campaign_match now self race n) = fst (Campaign_match now self race m).
Proof.
  unfold Campaign_match. rewrite (Hfrozen n), (Hfrozen m).
  destruct (negb (String.eqb race (race_name self))); [reflexivity|].
  by destruct (negb _).
Qed.

Lemma frozen_once_per_day_loop (self : Campaign) (race : string)
    (results : list RaceResult) :
  forall n m : nat,
    fst (once_per_day_loop now self race results n)
      = fst (once_per_day_loop now self race results m).
Proof.
  induction results as [|r results IH]; intros n m; simpl; [reflexivity|].
  rewrite (Hfrozen n), (Hfrozen m).
  destruct (_ && _); [|apply IH].
  destruct (_ =? _); [reflexivity | apply IH].
Qed.

Lemma frozen_campaign_match (self : Campaign) (race : string)
    (results : list RaceResult) (n m : nat) :
  fst (campaign_match now self race results n)
    = fst (campaign_match now self race results m).
Proof.
  unfold campaign_match, OncePerDayCampaign_match, OneTimeCampaign_match.
  pose proof (frozen_Campaign_match self race n m) as Hbase.
  destruct (Campaign_match now self race n) as [b1 n1].
  destruct (Campaign_match now self race m) as [b2 m1].
  simpl in Hbase. subst b2.
  destruct (campaign_class self); destruct b1; simpl; try reflexivity.
  apply frozen_once_per_day_loop.
Qed.

Lemma frozen_any_campaign_matches (campaigns : list Campaign) (race : string)
    (results : list RaceResult) :
  forall n : nat,
    fst (any_campaign_matches now campaigns race results n) = true <->
    exists c, In c campaigns /\
              fst (campaign_match now c race results n) = true.
Proof.
  induction campaigns as [|i campaigns IH]; intros n; simpl.
  - split; [discriminate | by intros (c & [] & _)].
  - destruct (campaign_match now i race results n) as [matched n1] eqn:Hi.
    destruct matched; simpl.
    + split; [|reflexivity]. intros _. exists i. rewrite Hi. by split; [left|].
    + rewrite (IH n1). split.
      * intros (c & Hc & Hm). exists c. split; [by right|].
        by rewrite (frozen_campaign_match c race results n n1).
      * intros (c & [<-|Hc] & Hm).
        -- rewrite Hi in Hm. discriminate Hm.
        -- exists c. split; [exact Hc|].
           by rewrite (frozen_campaign_match c race results n1 n).
Qed.

End FrozenClock.

(** X19. A negative score is returned as it is, without consulting any
    campaign or reading the clock. With a clock that stands still, a score
    that is not negative is raised by exactly 100 when at least one
    registered campaign matches the race, however many do, and is returned
    as it is when none does. *)
Theorem score_bonus (now : nat -> Z) (campaigns : list Campaign)
    (race : string) (results : list RaceResult) (ret : Q) (calls : nat)
    (t : Z) :
  (forall k : nat, now k = t) ->
  ((ret < 0)%Q -> score now campaigns race results ret calls = (ret, calls)) /\
  ((0 <= ret)%Q ->
     ((exists c, In c campaigns /\
                 fst (campaign_match now c race results calls) = true) ->
      fst (score now campaigns race results ret calls) = (ret + 100)%Q) /\
     (~ (exists c, In c campaigns /\
                   fst (campaign_match now c race results calls) = true) ->
      fst (score now campaigns race results ret calls) = ret)).
Proof.
  intros Hfrozen. unfold score. split.
  - intros Hneg. apply Qltb_lt in Hneg. by rewrite Hneg.
  - intros Hpos. apply Qltb_ge in Hpos. rewrite Hpos.
    pose proof (frozen_any_campaign_matches now t Hfrozen campaigns race
                  results calls) as Hany.
    destruct (any_campaign_matches now campaigns race results calls)
      as [matched calls']. simpl in Hany.
    destruct matched; simpl; split; try done.
    + intros Hnone. destruct Hnone. by apply Hany.
    + intros Hsome. apply Hany in Hsome. discriminate Hsome.
Qed.

Lemma score_bonus_witness :
  fst (score (fun _ => 50000 * 1000000)
         [fixture_campaign OneTimeCampaign; fixture_campaign OncePerDayCampaign]
         "Oaks" [] 30 0) = (30 + 100)%Q.
Proof.
  apply (score_bonus (fun _ => 50000 * 1000000)
           [fixture_campaign OneTimeCampaign;
            fixture_campaign OncePerDayCampaign]
           "Oaks" [] 30 0 (50000 * 1000000)).
  - reflexivity.
  - discriminate.
  - exists (fixture_campaign OneTimeCampaign). split; [by left | reflexivity].
Defined.

(** X20. With a clock that never goes back, a campaign whose end has
    passed when [_add_campaign] is called is not registered, and it could not
    have matched any race at any later reading. *)
Theorem ended_campaign_never_matches (now : nat -> Z) (c : Campaign)
    (campaigns : list Campaign) (calls : nat) :
  monotone now -> end_ c < now calls ->
  _add_campaign now c campaigns calls = (campaigns, S calls) /\
  forall (race : string) (results : list RaceResult) (k : nat),
    (calls <= k)%nat -> fst (campaign_match now c race results k) = false.
Proof.
  intros Hmono Hended. split.
  - unfold _add_campaign.
    destruct (Z.leb_spec (now calls) (end_ c)); [lia|].
    by rewrite andb_false_r.
  - intros race results k Hk.
    assert (fst (Campaign_match now c race k) = false) as Hbase.
    { apply not_true_is_false. intros Hm.
      apply Campaign_match_true in Hm as [_ Hwin].
      pose proof (Hmono calls k Hk). lia. }
    unfold campaign_match, OncePerDayCampaign_match, OneTimeCampaign_match.
    destruct (Campaign_match now c race k) as [matched k']. simpl in Hbase.
    subst matched. by destruct (campaign_class c).
Qed.

Lemma ended_campaign_never_matches_witness :
  _add_campaign (fun k => 2 * microseconds_per_day + Z.of_nat k)
    (fixture_campaign OneTimeCampaign) [] 0 = ([], 1%nat).
Proof.
  apply (ended_campaign_never_matches
           (fun k => 2 * microseconds_per_day + Z.of_nat k)
           (fixture_campaign OneTimeCampaign) [] 0).
  - intros i j Hij. lia.
  - by vm_compute.
Defined.

(** * Properties of plugins/bluestacks_port.py *)

Lemma partition_colon_append (field rest : string) :
  no_colon field ->
  partition_colon (field ++ String ":" rest) = Some (field, rest).
Proof.
  unfold no_colon. induction field as [|c field IH]; simpl; intros Hf.
  - reflexivity.
  - inversion Hf as [|? ? Hc Hf']; subst.
    destruct (Ascii.eqb_spec c ":"%char); [done|]. by rewrite IH.
Qed.

Lemma partition_colon_some (s field rest : string) :
  partition_colon s = Some (field, rest) ->
  s = (field ++ String ":" rest)%string /\ no_colon field.
Proof.
  unfold no_colon. revert field.
  induction s as [|c s IH]; intros field; simpl; [discriminate|].
  destruct (Ascii.eqb_spec c ":"%char) as [->|Hc].
  - intros [= <- <-]. split; [reflexivity | constructor].
  - destruct (partition_colon s) as [[f r]|]; [|discriminate].
    intros [= <- <-]. destruct (IH f eq_refl) as [-> Hf].
    split; [reflexivity|]. simpl. by constructor.
Qed.

Lemma unpack_address_error (address : string) (e : InitError) :
  unpack_address address = inl e -> e = UnpackError.
Proof.
  unfold unpack_address.
  destruct (split_colon 2 address) as [|a [|b [|c [|d l]]]]; by intros [= <-].
Qed.

(** X21. The address is unpacked into a host name, an instance and a path
    exactly when it is those three joined by colons with no colon in the
    first two (the path may hold colons, as a Windows path does); any other
    address ends with the [ValueError] of the unpacking. *)
Theorem unpack_address_fields (address : string) :
  (forall hostname instance conf_path,
     unpack_address address = inr (hostname, instance, conf_path) <->
     address
       = (hostname ++ String ":" (instance ++ String ":" conf_path))%string /\
     no_colon hostname /\ no_colon instance) /\
  (forall e, unpack_address address = inl e -> e = UnpackError).
Proof.
  split.
  - intros hostname instance conf_path. unfold unpack_address. split.
    + simpl.
      destruct (partition_colon address) as [[h r1]|] eqn:H1; [|discriminate].
      destruct (partition_colon r1) as [[i r2]|] eqn:H2; [|discriminate].
      intros [= <- <- <-].
      apply partition_colon_some in H1 as [-> Hh].
      apply partition_colon_some in H2 as [-> Hi]. done.
    + intros (-> & Hh & Hi). simpl.
      rewrite (partition_colon_append hostname _ Hh).
      by rewrite (partition_colon_append instance _ Hi).
  - intros e. apply unpack_address_error.
Qed.

Lemma unpack_address_fields_witness :
  unpack_address "127.0.0.1:Pie64:C:\conf\bluestacks.conf"
    = inr ("127.0.0.1", "Pie64", "C:\conf\bluestacks.conf")%string /\
  unpack_address "127.0.0.1:5555" = inl UnpackError.
Proof.
  split.
  - apply (unpack_address_fields "127.0.0.1:Pie64:C:\conf\bluestacks.conf").
    split; [reflexivity|]. split; repeat constructor; discriminate.
  - destruct (unpack_address "127.0.0.1:5555") as [e|[[h i] p]] eqn:Hu.
    + f_equal.
      by apply (unpack_address_fields "127.0.0.1:5555") in Hu.
    + discriminate Hu.
Defined.

Lemma take_digits_spec (n : nat) (s digits rest : string) :
  take_digits n s = (digits, rest) ->
  all_digits (list_ascii_of_string digits) /\
  (String.length digits <= n)%nat /\ s = (digits ++ rest)%string.
Proof.
  assert (forall m r, all_digits (list_ascii_of_string "") /\
                      (String.length "" <= m)%nat /\ r = ("" ++ r)%string)
    as Hempty.
  { intros m r. split; [apply Forall_nil; exact I|]. split; [simpl; lia | done]. }
  revert s digits rest. induction n as [|n IH]; intros s digits rest.
  - destruct s; simpl; intros [= <- <-]; apply Hempty.
  - destruct s as [|c s]; simpl.
    + intros [= <- <-]. apply Hempty.
    + destruct (is_digit c) eqn:Hc.
      * destruct (take_digits n s) as [d r] eqn:Hd. intros [= <- <-].
        destruct (IH s d r Hd) as (Hall & Hlen & ->).
        split; [simpl; by constructor|]. split; [simpl; lia | reflexivity].
      * intros [= <- <-]. apply Hempty.
Qed.

Lemma decimal_value_bound (l : list ascii) (acc : Z) :
  all_digits l -> 0 <= acc ->
  0 <= fold_left (fun a c => 10 * a + digit_value c) l acc
    < (acc + 1) * 10 ^ Z.of_nat (List.length l).
Proof.
  revert acc. induction l as [|c l IH]; intros acc Hl Hacc.
  - simpl. lia.
  - inversion Hl as [|? ? Hc Hl']; subst.
    apply digit_is_plain in Hc as (_ & _ & _ & _ & Hc).
    specialize (IH (10 * acc + digit_value c) Hl' ltac:(lia)).
    simpl fold_left. rewrite length_cons, Nat2Z.inj_succ, Z.pow_succ_r by lia.
    split; [lia|]. eapply Z.lt_le_trans; [apply IH|]. nia.
Qed.

Lemma length_list_ascii_of_string (s : string) :
  List.length (list_ascii_of_string s) = String.length s.
Proof. induction s as [|c s IH]; simpl; [reflexivity | by rewrite IH]. Qed.

Lemma port_of_line_value (m : Z) (instance line port : string) :
  port_of_line instance line = Some port ->
  exists n, py_int m port = Ok n /\ 0 <= n <= 99999 /\
            (2 <= String.length port <= 5)%nat.
Proof.
  unfold port_of_line.
  destruct (strip_prefix _ line) as [rest|]; unfold mbind, option_bind;
    [|discriminate].
  destruct (take_digits 5 rest) as [digits rest'] eqn:Hd.
  destruct (Nat.leb_spec 2 (String.length digits)) as [Hlen|]; [|discriminate].
  destruct rest' as [|c rest']; [discriminate|].
  destruct (Ascii.eqb c quote); [|discriminate]. intros [= <-].
  destruct (take_digits_spec 5 rest digits _ Hd) as (Hall & Hle & _).
  pose proof (length_list_ascii_of_string digits) as Hll.
  destruct (py_int_of_digits m digits Hall) as [Hint _].
  { intros Hnil. rewrite Hnil in Hll. simpl in Hll. lia. }
  rewrite int_limit_short in Hint by lia.
  exists (decimal_value (list_ascii_of_string digits)).
  split; [exact Hint|]. split; [|lia].
  pose proof (decimal_value_bound (list_ascii_of_string digits) 0 Hall
                ltac:(lia)) as Hb.
  fold (decimal_value (list_ascii_of_string digits)) in Hb.
  rewrite Hll in Hb.
  assert (10 ^ Z.of_nat (String.length digits) <= 10 ^ 5)
    by (apply Z.pow_le_mono_r; lia).
  lia.
Qed.

Lemma match_line_plain (re_match : string -> string -> Matching)
    (instance line : string) :
  plain instance = true ->
  match_line re_match instance line <> PatternError /\
  (match_line re_match instance line = NoMatch <->
   port_of_line instance line = None) /\
  (forall port, match_line re_match instance line = Match port <->
                port_of_line instance line = Some port).
Proof.
  intros Hplain. unfold match_line. rewrite Hplain.
  destruct (port_of_line instance line) as [p|].
  - split; [discriminate|]. split; [split; discriminate|].
    intros port. split; by intros [= ->].
  - split; [discriminate|]. split; [done|]. intros port. split; discriminate.
Qed.

Lemma scan_conf_first (re_match : string -> string -> Matching)
    (instance : string) (conf : list string) :
  forall bound port,
    scan_conf re_match instance conf bound = inr (Some (Some port)) ->
    bound = Some (Some port) \/
    exists before line after,
      conf = before ++ line :: after /\
      (forall l, In l before -> match_line re_match instance l = NoMatch) /\
      match_line re_match instance line = Match port.
Proof.
  induction conf as [|line conf IH]; intros bound port; simpl.
  - intros [= ->]. by left.
  - destruct (match_line re_match instance line) as [| |p] eqn:Hline.
    + discriminate.
    + intros Hscan. right.
      destruct (IH _ _ Hscan) as [Hb | (before & l & after & -> & Hnone & Hl)];
        [discriminate|].
      exists (line :: before), l, after. repeat split; [|exact Hl].
      intros l' [<-|Hin]; [exact Hline | by apply Hnone].
    + intros [= <-]. right. exists [], line, conf. by repeat split.
Qed.

(** X22. When the client is built for an instance written in word
    characters, its host name is the text before the first colon of the
    address and is not empty, and its port is the number between the quotes
    of the first line of the configuration file that gives the instance's ADB
    port: two to five digits, so a number from 0 to 99999. *)
Theorem bluestacks_client_init (max_str_digits : Z)
    (re_match : string -> string -> Matching)
    (open_conf : string -> option (list string)) (address : string)
    (hostname instance conf_path : string) (host : string) (port : Z) :
  unpack_address address = inr (hostname, instance, conf_path) ->
  plain (instance_or_default instance) = true ->
  BlueStacksClient_init max_str_digits re_match open_conf address
    = inr (host, port) ->
  host = hostname /\ hostname <> ""%string /\ 0 <= port <= 99999 /\
  exists before line after digits,
    open_conf (conf_path_or_default conf_path)
      = Some (before ++ line :: after) /\
    (forall l, In l before ->
       port_of_line (instance_or_default instance) l = None) /\
    port_of_line (instance_or_default instance) line = Some digits /\
    py_int max_str_digits digits = Ok port.
Proof.
  intros Hunpack Hplain. unfold BlueStacksClient_init. rewrite Hunpack.
  destruct (open_conf _) as [conf|]; [|discriminate].
  destruct (scan_conf _ _ conf None) as [e|[[digits|]|]] eqn:Hscan;
    [discriminate| | |].
  2,3: destruct (String.length hostname =? 0)%nat; discriminate.
  destruct (Nat.eqb_spec (String.length hostname) 0) as [|Hhost];
    [discriminate|].
  destruct (String.length digits =? 0)%nat; [discriminate|].
  destruct (py_int max_str_digits digits) as [n|] eqn:Hint; [|discriminate].
  intros [= <- <-].
  apply scan_conf_first in Hscan
    as [Hb | (before & line & after & -> & Hnone & Hline)]; [discriminate|].
  apply (match_line_plain re_match _ line Hplain) in Hline.
  split; [reflexivity|]. split; [by destruct hostname|].
  destruct (port_of_line_value max_str_digits _ _ _ Hline)
    as (n' & Hint' & Hrange & _).
  split; [congruence|].
  exists before, line, after, digits. split; [reflexivity|].
  split; [|by split].
  intros l Hl. apply (match_line_plain re_match _ l Hplain). by apply Hnone.
Qed.

Lemma bluestacks_client_init_witness :
  BlueStacksClient_init 4300 (fun _ _ => NoMatch)
    (fun _ =>
       Some [ "bst.instance.Nougat64.status.adb_port="
                ++ String quote ("5555" ++ String quote EmptyString) ])%string
    "127.0.0.1::" = inr ("127.0.0.1"%string, 5555) /\
  0 <= 5555 <= 99999.
Proof.
  split; [reflexivity|].
  apply (bluestacks_client_init 4300 (fun _ _ => NoMatch)
           (fun _ =>
              Some [ "bst.instance.Nougat64.status.adb_port="
                       ++ String quote ("5555" ++ String quote EmptyString) ])
             %string
           "127.0.0.1::" "127.0.0.1" "" "" "127.0.0.1" 5555);
    reflexivity.
Defined.

Lemma scan_conf_no_match (re_match : string -> string -> Matching)
    (instance : string) (conf : list string) :
  (forall l, In l conf -> match_line re_match instance l = NoMatch) ->
  forall bound,
    scan_conf re_match instance conf bound
      = inr (if conf is [] then bound else Some None).
Proof.
  induction conf as [|line conf IH]; intros Hnone bound; simpl; [reflexivity|].
  rewrite (Hnone line) by (by left).
  rewrite IH by (intros l Hl; apply Hnone; by right).
  by destruct conf.
Qed.

Lemma scan_conf_pattern_error (re_match : string -> string -> Matching)
    (instance : string) (before : list string) (line : string)
    (after : list string) :
  (forall l, In l before -> match_line re_match instance l = NoMatch) ->
  match_line re_match instance line = PatternError ->
  forall bound,
    scan_conf re_match instance (before ++ line :: after) bound
      = inl RegexError.
Proof.
  intros Hnone Hline.
  induction before as [|l before IH]; intros bound; simpl.
  - by rewrite Hline.
  - rewrite (Hnone l) by (by left).
    apply IH. intros l' Hl'. apply Hnone. by right.
Qed.

Lemma scan_conf_compiles (re_match : string -> string -> Matching)
    (instance : string) (conf : list string) :
  (forall l, In l conf -> match_line re_match instance l <> PatternError) ->
  forall bound, exists b, scan_conf re_match instance conf bound = inr b.
Proof.
  induction conf as [|line conf IH]; intros Hok bound; simpl; [by eexists|].
  destruct (match_line re_match instance line) eqn:Hline.
  - by destruct (Hok line (or_introl eq_refl)).
  - apply IH. intros l Hl. apply Hok. by right.
  - by eexists.
Qed.

(** X23. How building the client fails. An address that does not unpack
    fails with the unpacking error whatever the file system holds. When the
    configuration file cannot be opened that error comes first, even with an
    empty host name. Once the file is read, a pattern that does not compile
    ends the loop with [re.error] at the first line it is tried on, before
    the host name is looked at; this cannot happen for an instance written
    in word characters. When no line gives [re.error], an empty host name
    fails the assertion; otherwise a file without any line leaves the name
    [re_match] unbound, and a file none of whose lines gives the port fails
    with the [AttributeError] of [None.group], not with the assertion's
    message. *)
Theorem bluestacks_client_init_failures (max_str_digits : Z)
    (re_match : string -> string -> Matching)
    (open_conf : string -> option (list string)) (address : string) :
  (forall e, unpack_address address = inl e ->
     BlueStacksClient_init max_str_digits re_match open_conf address
       = inl UnpackError) /\
  (forall hostname instance conf_path,
     unpack_address address = inr (hostname, instance, conf_path) ->
     (open_conf (conf_path_or_default conf_path) = None ->
      BlueStacksClient_init max_str_digits re_match open_conf address
        = inl OpenError) /\
     (plain (instance_or_default instance) = true ->
      forall l,
        match_line re_match (instance_or_default instance) l
          <> PatternError) /\
     (forall conf,
        open_conf (conf_path_or_default conf_path) = Some conf ->
        (forall before line after,
           conf = before ++ line :: after ->
           (forall l, In l before ->
              match_line re_match (instance_or_default instance) l
                = NoMatch) ->
           match_line re_match (instance_or_default instance) line
             = PatternError ->
           BlueStacksClient_init max_str_digits re_match open_conf address
             = inl RegexError) /\
        ((forall l, In l conf ->
            match_line re_match (instance_or_default instance) l
              <> PatternError) ->
         hostname = ""%string ->
         BlueStacksClient_init max_str_digits re_match open_conf address
           = inl AssertError) /\
        (hostname <> ""%string -> conf = [] ->
         BlueStacksClient_init max_str_digits re_match open_conf address
           = inl UnboundLocalError) /\
        (hostname <> ""%string -> conf <> [] ->
         (forall l, In l conf ->
            match_line re_match (instance_or_default instance) l = NoMatch) ->
         BlueStacksClient_init max_str_digits re_match open_conf address
           = inl AttributeError))).
Proof.
  split.
  - intros e He. unfold BlueStacksClient_init. rewrite He.
    by apply unpack_address_error in He as ->.
  - intros hostname instance conf_path Hunpack.
    unfold BlueStacksClient_init. rewrite Hunpack. split; [by intros ->|].
    split; [intros Hplain l; by apply match_line_plain|].
    intros conf ->.
    assert (hostname <> ""%string ->
            (String.length hostname =? 0)%nat = false) as Hlen.
    { intros Hne. by destruct hostname. }
    split; [|split; [|split]].
    + intros before line after -> Hnone Hline.
      by rewrite (scan_conf_pattern_error _ _ _ _ _ Hnone Hline).
    + intros Hok ->.
      by destruct (scan_conf_compiles _ _ _ Hok None) as [b ->].
    + intros Hne ->. simpl. by rewrite (Hlen Hne).
    + intros Hne Hconf Hnone.
      rewrite scan_conf_no_match by exact Hnone. rewrite (Hlen Hne).
      by destruct conf.
Qed.

Lemma bluestacks_client_init_failures_witness :
  BlueStacksClient_init 4300 (fun _ _ => NoMatch)
    (fun _ => Some ["bst.feature.rooting=0"%string]) "127.0.0.1::"
    = inl AttributeError /\
  BlueStacksClient_init 4300 (fun _ _ => NoMatch) (fun _ => None) "::"
    = inl OpenError /\
  BlueStacksClient_init 4300
    (fun instance _ =>
       if String.eqb instance "(" then PatternError else NoMatch)
    (fun _ => Some ["bst.feature.rooting=0"%string]) ":(:path"
    = inl RegexError.
Proof.
  destruct (bluestacks_client_init_failures 4300 (fun _ _ => NoMatch)
              (fun _ => Some ["bst.feature.rooting=0"%string]) "127.0.0.1::")
    as [_ Hread].
  destruct (bluestacks_client_init_failures 4300 (fun _ _ => NoMatch)
              (fun _ => None) "::") as [_ Hmissing].
  destruct (bluestacks_client_init_failures 4300
              (fun instance _ =>
                 if String.eqb instance "(" then PatternError else NoMatch)
              (fun _ => Some ["bst.feature.rooting=0"%string]) ":(:path")
    as [_ Hregex].
  split; [|split].
  - destruct (Hread "127.0.0.1"%string ""%string ""%string eq_refl)
      as (_ & _ & Hconf).
    destruct (Hconf _ eq_refl) as (_ & _ & _ & Hattr).
    apply Hattr; [discriminate | discriminate |].
    intros l [<-|[]]. reflexivity.
  - destruct (Hmissing ""%string ""%string ""%string eq_refl) as [Hopen _].
    by apply Hopen.
  - destruct (Hregex ""%string "("%string "path"%string eq_refl)
      as (_ & _ & Hconf).
    destruct (Hconf _ eq_refl) as (Herror & _).
    apply (Herror [] "bst.feature.rooting=0"%string []);
      [reflexivity | by intros l [] | reflexivity].
Defined.

(** X24. The retry loop of [screenshot], [tap] and [swipe] ends with the
    first call that does not time out: with its result, or with its
    exception, after one reconnection per timeout; it ends earlier only when
    a reconnection raises, with that exception. While the calls time out and
    the reconnections return it is still running after any number of
    rounds. *)
Theorem retry_on_timeout_first {A E : Type} (attempt : nat -> Attempt A E)
    (connect : nat -> option E) (n : nat) :
  forall (fuel k : nat),
    (forall j, (j < n)%nat ->
       attempt (k + j)%nat = TimedOut /\ connect (k + j)%nat = None) ->
    ((n < fuel)%nat ->
     (forall a, attempt (k + n)%nat = Returned a ->
        retry_on_timeout attempt connect fuel k = Some (inr a, (k + n)%nat)) /\
     (forall e, attempt (k + n)%nat = Failed e ->
        retry_on_timeout attempt connect fuel k = Some (inl e, (k + n)%nat)) /\
     (forall e, attempt (k + n)%nat = TimedOut ->
        connect (k + n)%nat = Some e ->
        retry_on_timeout attempt connect fuel k
          = Some (inl e, S (k + n)))) /\
    ((fuel <= n)%nat -> retry_on_timeout attempt connect fuel k = None).
Proof.
  induction n as [|n IH]; intros fuel k Hbefore.
  - split.
    + intros Hfuel. destruct fuel as [|fuel]; [lia|]. simpl.
      rewrite Nat.add_0_r. repeat split.
      * by intros a ->.
      * by intros e ->.
      * by intros e -> ->.
    + intros Hfuel. by assert (fuel = 0%nat) as -> by lia.
  - assert (attempt k = TimedOut /\ connect k = None) as [Ha Hc].
    { rewrite <- (Nat.add_0_r k). apply Hbefore. lia. }
    assert (forall j, (j < n)%nat ->
              attempt (S k + j)%nat = TimedOut /\ connect (S k + j)%nat = None)
      as Hrest.
    { intros j Hj. replace (S k + j)%nat with (k + S j)%nat by lia.
      apply Hbefore. lia. }
    replace (k + S n)%nat with (S k + n)%nat by lia.
    destruct fuel as [|fuel]; [split; [lia | reflexivity]|].
    simpl retry_on_timeout. rewrite Ha, Hc.
    destruct (IH fuel (S k) Hrest) as [Hend Hrun].
    split; [intros Hfuel; apply Hend; lia | intros Hfuel; apply Hrun; lia].
Qed.

Lemma retry_on_timeout_first_witness :
  retry_on_timeout
    (fun k => if (k <? 2)%nat then TimedOut else Returned (Z.of_nat k))
    (fun _ => @None unit) 10 0 = Some (inr 2, 2%nat).
Proof.
  destruct (retry_on_timeout_first
              (fun k => if (k <? 2)%nat then TimedOut else Returned (Z.of_nat k))
              (fun _ => @None unit) 2 10 0) as [Hend _].
  - intros j Hj. by assert (j = 0 \/ j = 1)%nat as [-> | ->] by lia.
  - apply Hend; [lia | reflexivity].
Defined.
